(** * Vocabulary trainer core: scheduling, study plan, streaks, achievements

    A shallow embedding of [core.py].  Python's [float] is IEEE-754 binary64
    and is modelled with the axiom-free [SpecFloat] operations at precision 53
    and maximal exponent 1024; Python's [int] is [Z]; the module-level
    dictionaries [vocab], [progress] and [stats] become fields of a [world]
    record that every operation threads through a small state-and-exception
    monad.  Dictionaries keep insertion order, so [vocab] is an association
    list.  Dates are proleptic Gregorian day ordinals ([date.toordinal]); the
    ISO text form used on disk is a bijective rendering of the ordinal and is
    not modelled. *)

From Stdlib Require Import ZArith List String Ascii Bool Lia SpecFloat.
From Stdlib Require Import Permutation Sorted OrdersEx.
Import ListNotations.
Open Scope string_scope.
Open Scope list_scope.
Open Scope Z_scope.

(** ** Outcomes of a Python call: a value or a raised exception *)

Inductive exn : Type :=
  | OverflowError
  | ValueError
  | ZeroDivisionError
  | KeyError.

Inductive outcome (A : Type) : Type :=
  | Return (a : A)
  | Raise (e : exn).
Arguments Return {A} a.
Arguments Raise {A} e.

Definition obind {A B : Type} (c : outcome A) (k : A -> outcome B) : outcome B :=
  match c with
  | Return a => k a
  | Raise e => Raise e
  end.

Definition is_failure {A : Type} (o : outcome A) : bool :=
  match o with
  | Return _ => false
  | Raise _ => true
  end.

Declare Scope outcome_scope.
Delimit Scope outcome_scope with outcome.
Notation "x <-- c ;; k" := (obind c (fun x => k))
  (at level 61, c at next level, right associativity) : outcome_scope.

(** ** Binary64 arithmetic as Python exposes it *)

Module Float64.

Definition prec : Z := 53.
Definition emax : Z := 1024.

Definition float : Type := spec_float.

Definition add : float -> float -> float := SFadd prec emax.
Definition sub : float -> float -> float := SFsub prec emax.
Definition mul : float -> float -> float := SFmul prec emax.
Definition ltb : float -> float -> bool := SFltb.
Definition leb : float -> float -> bool := SFleb.
Definition eqb : float -> float -> bool := SFeqb.

Definition is_nan (x : float) : bool :=
  match x with
  | S754_nan => true
  | _ => false
  end.

Definition is_zero (x : float) : bool :=
  match x with
  | S754_zero _ => true
  | _ => false
  end.

(** Nearest binary64 to an integer, ties to even; an infinity when the
    integer is out of range. *)
Definition of_Z (n : Z) : float := binary_normalize prec emax n 0 false.

(** [a / 10^k] rounded once: the value of the decimal literal. *)
Definition decimal (a : Z) (k : Z) : float :=
  SFdiv prec emax (of_Z a) (of_Z (10 ^ k)).

Definition lit_0_02 : float := Eval vm_compute in decimal 2 2.
Definition lit_0_08 : float := Eval vm_compute in decimal 8 2.
Definition lit_0_1  : float := Eval vm_compute in decimal 1 1.
Definition lit_0_15 : float := Eval vm_compute in decimal 15 2.
Definition lit_0_3  : float := Eval vm_compute in decimal 3 1.
Definition lit_1_3  : float := Eval vm_compute in decimal 13 1.
Definition lit_1_5  : float := Eval vm_compute in decimal 15 1.
Definition lit_1_8  : float := Eval vm_compute in decimal 18 1.
Definition lit_2_5  : float := Eval vm_compute in decimal 25 1.
Definition lit_3_5  : float := Eval vm_compute in decimal 35 1.

(** [float(n)] as performed implicitly by mixed int/float arithmetic:
    "int too large to convert to float" when the rounded value overflows. *)
Definition float_of_int (n : Z) : outcome float :=
  match of_Z n with
  | S754_infinity _ => Raise OverflowError
  | f => Return f
  end.

(** [n * x], [n + x] and [n - x] with [n] an int and [x] a float. *)
Definition int_mul_float (n : Z) (x : float) : outcome float :=
  obind (float_of_int n) (fun f => Return (mul f x)).

Definition int_add_float (n : Z) (x : float) : outcome float :=
  obind (float_of_int n) (fun f => Return (add f x)).

Definition int_sub_float (n : Z) (x : float) : outcome float :=
  obind (float_of_int n) (fun f => Return (sub f x)).

(** [x / y] on floats: Python raises on a zero divisor instead of
    returning an infinity or a NaN. *)
Definition truediv (x y : float) : outcome float :=
  if is_zero y then Raise ZeroDivisionError
  else Return (SFdiv prec emax x y).

(** [a / b] on ints: the exact quotient rounded once. *)
Definition int_truediv (a b : Z) : outcome float :=
  match b with
  | Z0 => Raise ZeroDivisionError
  | _ =>
    match a with
    | Z0 => Return (S754_zero (b <? 0))
    | _ =>
      let '(mz, ez, lz) := SFdiv_core_binary prec emax (Z.abs a) 0 (Z.abs b) 0 in
      match binary_round_aux prec emax (xorb (a <? 0) (b <? 0)) mz ez lz with
      | S754_infinity _ => Raise OverflowError
      | f => Return f
      end
    end
  end.

(** [max(a, b)]: the first argument unless the second is strictly
    greater. *)
Definition py_max (a b : float) : float := if ltb a b then b else a.

(** Magnitude [m * 2^e] rounded to the nearest integer, ties to even. *)
Definition round_half_even (m : positive) (e : Z) : Z :=
  match e with
  | Zneg p =>
    let d := 2 ^ Zpos p in
    let q := Zpos m / d in
    match (2 * (Zpos m mod d)) ?= d with
    | Lt => q
    | Gt => q + 1
    | Eq => if Z.even q then q else q + 1
    end
  | _ => Zpos m * 2 ^ e
  end.

(** [round(x)] with one argument. *)
Definition py_round (x : float) : outcome Z :=
  match x with
  | S754_nan => Raise ValueError
  | S754_infinity _ => Raise OverflowError
  | S754_zero _ => Return 0
  | S754_finite s m e => Return (cond_Zopp s (round_half_even m e))
  end.

End Float64.

Import Float64.

(** ** Calendar dates

    A [date] is a day ordinal; Python accepts the ordinals of 0001-01-01
    to 9999-12-31 and a [timedelta] of at most 999999999 days. *)

Definition date : Type := Z.

Definition MINORDINAL : Z := 1.
Definition MAXORDINAL : Z := 3652059.
Definition MAXDELTADAYS : Z := 999999999.

(** [d + timedelta(days=n)] *)
Definition date_add_days (d : date) (n : Z) : outcome date :=
  if (Z.abs n <=? MAXDELTADAYS) && (MINORDINAL <=? d + n) && (d + n <=? MAXORDINAL)
  then Return (d + n)
  else Raise OverflowError.

(** ** Ordered dictionaries keyed by strings *)

Section Dict.
Context {V : Type}.

Definition dict : Type := list (string * V).

Definition keys (m : dict) : list string := map fst m.

(** [m.get(k)] *)
Fixpoint dict_get (k : string) (m : dict) : option V :=
  match m with
  | [] => None
  | (k', v) :: rest => if String.eqb k' k then Some v else dict_get k rest
  end.

(** [k in m] *)
Definition dict_mem (k : string) (m : dict) : bool :=
  match dict_get k m with
  | Some _ => true
  | None => false
  end.

(** [m[k] = v]: in place for a present key, appended otherwise. *)
Fixpoint dict_set (k : string) (v : V) (m : dict) : dict :=
  match m with
  | [] => [(k, v)]
  | (k', v') :: rest =>
    if String.eqb k' k then (k', v) :: rest else (k', v') :: dict_set k v rest
  end.

(** [del m[k]] for a present key. *)
Fixpoint dict_del (k : string) (m : dict) : dict :=
  match m with
  | [] => []
  | (k', v') :: rest =>
    if String.eqb k' k then rest else (k', v') :: dict_del k rest
  end.
End Dict.
Arguments dict V : clear implicits.

(** [d.get(key, default)] on a field that may be absent. *)
Definition get_default {A : Type} (field : option A) (default : A) : A :=
  match field with
  | Some a => a
  | None => default
  end.

(** ** Records held in the three stores *)

(** One item of an entry's ["history"] list. *)
Record review : Type := mkReview {
  r_date : option date;
  correct : option bool
}.

(** A value of [vocab]: every key may be missing in a legacy record. *)
Record entry : Type := mkEntry {
  sentence : option string;
  note : option string;
  box : option Z;
  times_reviewed : option Z;
  times_correct : option Z;
  ease : option float;
  history : option (list review);
  last_reviewed : option date;
  next_review : option date;
  interval : option Z
}.

Record progress_t : Type := mkProgress {
  current_streak : option Z;
  longest_streak : option Z;
  last_study_date : option date;
  achievements : list string;
  total_reviews : option Z;
  studied_today : Z;
  xp : option Z;
  daily_history : dict Z
}.

Record stats_t : Type := mkStats {
  words_added : option Z;
  words_removed : option Z;
  quiz_attempts : option Z;
  quiz_correct : option Z
}.

(** The interpreter state the module works on: the three dictionaries in
    memory and the last contents written to each of the three files. *)
Record world : Type := mkWorld {
  vocab : dict entry;
  progress : progress_t;
  stats : stats_t;
  vocab_file : option (dict entry);
  progress_file : option progress_t;
  stats_file : option stats_t
}.

Definition with_vocab (v : dict entry) (w : world) : world :=
  mkWorld v (progress w) (stats w) (vocab_file w) (progress_file w) (stats_file w).

Definition with_progress (p : progress_t) (w : world) : world :=
  mkWorld (vocab w) p (stats w) (vocab_file w) (progress_file w) (stats_file w).

Definition with_stats (s : stats_t) (w : world) : world :=
  mkWorld (vocab w) (progress w) s (vocab_file w) (progress_file w) (stats_file w).

(** ** The state-and-exception monad of the module *)

Definition M (A : Type) : Type := world -> outcome A * world.

Definition ret {A : Type} (a : A) : M A := fun w => (Return a, w).

Definition bind {A B : Type} (c : M A) (k : A -> M B) : M B :=
  fun w =>
    match c w with
    | (Return a, w') => k a w'
    | (Raise e, w') => (Raise e, w')
    end.

Definition lift {A : Type} (o : outcome A) : M A := fun w => (o, w).

Definition get_world : M world := fun w => (Return w, w).

Definition modify (f : world -> world) : M unit := fun w => (Return tt, f w).

Declare Scope monad_scope.
Delimit Scope monad_scope with monad.
Notation "x <- c ;; k" := (bind c (fun x => k))
  (at level 61, c at next level, right associativity) : monad_scope.
Notation "c ;;; k" := (bind c (fun _ => k))
  (at level 61, right associativity) : monad_scope.
Open Scope monad_scope.

Definition save_vocab : M unit :=
  modify (fun w => mkWorld (vocab w) (progress w) (stats w)
                           (Some (vocab w)) (progress_file w) (stats_file w)).

Definition save_progress : M unit :=
  modify (fun w => mkWorld (vocab w) (progress w) (stats w)
                           (vocab_file w) (Some (progress w)) (stats_file w)).

Definition save_stats : M unit :=
  modify (fun w => mkWorld (vocab w) (progress w) (stats w)
                           (vocab_file w) (progress_file w) (Some (stats w))).

(** ** Spaced repetition: [schedule_next_review] *)

(** [max(1.3, ease + (0.1 - (5 - q) * (0.08 + (5 - q) * 0.02)))] *)
Definition new_ease (e : float) (q : Z) : outcome float :=
  (a <-- int_mul_float (5 - q) lit_0_02 ;;
   b <-- int_mul_float (5 - q) (add lit_0_08 a) ;;
   Return (py_max lit_1_3 (add e (sub lit_0_1 b))))%outcome.

(** The [if q < 3: ... else: ...] block computing the next interval. *)
Definition new_interval (i : Z) (e' : float) (q : Z) : outcome Z :=
  if q <? 3 then Return 1
  else if i =? 1 then Return 3
  else obind (int_mul_float i e') py_round.

(** [min(5, max(1, box + (1 if q >= 3 else -1)))] *)
Definition new_box (b : Z) (q : Z) : Z :=
  Z.min 5 (Z.max 1 (b + (if q >=? 3 then 1 else -1))).

(** The four assignments [data["ease"] = ...] to [data["box"] = ...]. *)
Definition reschedule (data : entry) (e' : float) (i' : Z) (next_date : date)
    (q : Z) : entry :=
  mkEntry (sentence data) (note data)
          (Some (new_box (get_default (box data) 1) q))
          (times_reviewed data) (times_correct data)
          (Some e') (history data) (last_reviewed data)
          (Some next_date) (Some i').

Definition schedule_next_review (today : date) (word : string) (rating : Z)
    : M unit :=
  w <- get_world ;;
  match dict_get word (vocab w) with
  | None => ret tt
  | Some data =>
    let e := get_default (ease data) lit_2_5 in
    let i := get_default (interval data) 1 in
    let q := rating in
    e' <- lift (new_ease e q) ;;
    i' <- lift (new_interval i e' q) ;;
    next_date <- lift (date_add_days today i') ;;
    modify (with_vocab (dict_set word (reschedule data e' i' next_date q) (vocab w))) ;;;
    save_vocab
  end.

(** ** Word management: [remove_word] and [edit_word] *)

(** What the body of a [for] loop tells the loop to do next. *)
Inductive flow (A : Type) : Type :=
  | Continue
  | Break
  | ReturnNow (a : A).
Arguments Continue {A}.
Arguments Break {A}.
Arguments ReturnNow {A} a.

(** [for x in xs: body] followed by the statements [after] of the function. *)
Fixpoint for_loop {A X : Type} (xs : list X) (body : X -> M (flow A))
    (after : M A) : M A :=
  match xs with
  | [] => after
  | x :: rest =>
    f <- body x ;;
    match f with
    | Continue => for_loop rest body after
    | Break => after
    | ReturnNow a => ret a
    end
  end.

Definition set_words_removed (n : Z) (s : stats_t) : stats_t :=
  mkStats (words_added s) (Some n) (quiz_attempts s) (quiz_correct s).

Definition set_text (new_sentence new_note : string) (data : entry) : entry :=
  mkEntry (Some new_sentence) (Some new_note) (box data)
          (times_reviewed data) (times_correct data) (ease data)
          (history data) (last_reviewed data) (next_review data)
          (interval data).

Section WordManagement.
(** [str.lower] and [str.strip]: Unicode-aware in Python, left abstract. *)
Variables lower strip : string -> string.

Definition remove_word (word : string) : M bool :=
  w <- get_world ;;
  for_loop (keys (vocab w))
    (fun k =>
       if String.eqb (lower k) (lower word) then
         modify (fun w' => with_vocab (dict_del k (vocab w')) w') ;;;
         ret Break
       else
         save_vocab ;;;
         modify (fun w' =>
           with_stats
             (set_words_removed (get_default (words_removed (stats w')) 0 + 1)
                                (stats w')) w') ;;;
         save_stats ;;;
         ret (ReturnNow true))
    (ret false).

Definition edit_word (word new_sentence new_note : string) : M bool :=
  w <- get_world ;;
  match dict_get word (vocab w) with
  | Some data =>
    modify (with_vocab
              (dict_set word (set_text (strip new_sentence) (strip new_note) data)
                        (vocab w))) ;;;
    save_vocab ;;;
    ret true
  | None => ret false
  end.
End WordManagement.

(** ASCII instances of the two string operations, for concrete runs. *)
Definition ascii_lower (c : ascii) : ascii :=
  let n := nat_of_ascii c in
  if (Nat.leb 65 n && Nat.leb n 90)%bool then ascii_of_nat (n + 32) else c.

Fixpoint str_lower (s : string) : string :=
  match s with
  | EmptyString => EmptyString
  | String c rest => String (ascii_lower c) (str_lower rest)
  end.

Definition is_space (c : ascii) : bool :=
  let n := nat_of_ascii c in
  (Nat.eqb n 32 || (Nat.leb 9 n && Nat.leb n 13))%bool.

Fixpoint lstrip (s : string) : string :=
  match s with
  | EmptyString => EmptyString
  | String c rest => if is_space c then lstrip rest else s
  end.

Fixpoint rstrip (s : string) : string :=
  match s with
  | EmptyString => EmptyString
  | String c rest =>
    match rstrip rest with
    | EmptyString => if is_space c then EmptyString else String c EmptyString
    | r => String c r
    end
  end.

Definition str_strip (s : string) : string := rstrip (lstrip s).

(** ** Study sessions: [build_study_plan] *)

(** [history[-5:]] *)
Definition last5 {A : Type} (l : list A) : list A :=
  skipn (List.length l - 5)%nat l.

(** [sum(1 for h in recent if not h.get("correct", True))] *)
Definition recent_errors (recent : list review) : Z :=
  Z.of_nat (List.length (filter (fun h => negb (get_default (correct h) true)) recent)).

(** [1 + overdue_days * 0.15] *)
Definition overdue_factor (today : date) (data : entry) : outcome float :=
  let next := get_default (next_review data) today in
  let overdue_days := Z.max 0 (today - next) in
  obind (int_mul_float overdue_days lit_0_15) (int_add_float 1).

(** [3.5 / ease] *)
Definition difficulty_factor (data : entry) : outcome float :=
  truediv lit_3_5 (get_default (ease data) lit_2_5).

(** [1 + (1 - accuracy) * 1.5] where [accuracy] is the float
    [correct / reviewed] when [reviewed > 0] and the int [0] otherwise. *)
Definition accuracy_factor (data : entry) : outcome float :=
  let reviewed := get_default (times_reviewed data) 0 in
  let correct := get_default (times_correct data) 0 in
  if reviewed >? 0 then
    (accuracy <-- int_truediv correct reviewed ;;
     miss <-- int_sub_float 1 accuracy ;;
     int_add_float 1 (mul miss lit_1_5))%outcome
  else
    obind (int_mul_float (1 - 0) lit_1_5) (int_add_float 1).

(** [x * new_word_factor] where the factor is the float [1.8] for a word
    never reviewed and the int [1] otherwise. *)
Definition times_new_word_factor (x : float) (data : entry) : outcome float :=
  if get_default (times_reviewed data) 0 =? 0 then Return (mul x lit_1_8)
  else obind (float_of_int 1) (fun one => Return (mul x one)).

(** [1 + recent_errors * 0.3] *)
Definition error_boost (data : entry) : outcome float :=
  let recent := last5 (get_default (history data) []) in
  obind (int_mul_float (recent_errors recent) lit_0_3) (int_add_float 1).

Definition priority (today : date) (data : entry) : outcome float :=
  (o <-- overdue_factor today data ;;
   d <-- difficulty_factor data ;;
   a <-- accuracy_factor data ;;
   e <-- error_boost data ;;
   oda <-- Return (mul (mul o d) a) ;;
   odan <-- times_new_word_factor oda data ;;
   Return (mul odan e))%outcome.

(** The [for word, data in vocab.items()] loop filling [scored_words]. *)
Fixpoint score_words (today : date) (items : dict entry)
    : outcome (list (float * string)) :=
  match items with
  | [] => Return []
  | (word, data) :: rest =>
    (p <-- priority today data ;;
     tl <-- score_words today rest ;;
     Return ((p, word) :: tl))%outcome
  end.

(** [a < b] on [(priority, word)] tuples: the first components decide
    unless they compare equal. *)
Definition tuple_lt (a b : float * string) : bool :=
  if eqb (fst a) (fst b) then String.ltb (snd a) (snd b)
  else ltb (fst a) (fst b).

Section Sorting.
Context {A : Type}.
Variable lt : A -> A -> bool.

(** Stable insertion: [x] goes in front of the first element that is
    not smaller than it. *)
Fixpoint insert_sorted (x : A) (l : list A) : list A :=
  match l with
  | [] => [x]
  | y :: rest => if lt y x then y :: insert_sorted x rest else x :: l
  end.

Definition stable_sort (l : list A) : list A :=
  fold_right insert_sorted [] l.

(** [l.sort(reverse=True)]: the list is reversed, sorted stably and
    reversed again, so equal elements keep their original order.  It is
    the result of Python's sort whenever [lt] is a strict weak order on
    the elements. *)
Definition sort_reverse (l : list A) : list A :=
  rev (stable_sort (rev l)).
End Sorting.

(** [l[:n]] *)
Definition slice_to {A : Type} (n : Z) (l : list A) : list A :=
  if n <? 0 then firstn (Z.to_nat (Z.max 0 (Z.of_nat (List.length l) + n))) l
  else firstn (Z.to_nat n) l.

Definition build_study_plan (today : date) (target : Z) : M (list string) :=
  w <- get_world ;;
  scored_words <- lift (score_words today (vocab w)) ;;
  ret (map snd (slice_to target (sort_reverse tuple_lt scored_words))).

(** ** Progress: [update_streak] and [check_achievements] *)

Definition set_current_streak (n : Z) (p : progress_t) : progress_t :=
  mkProgress (Some n) (longest_streak p) (last_study_date p) (achievements p)
             (total_reviews p) (studied_today p) (xp p) (daily_history p).

Definition set_longest_streak (n : Z) (p : progress_t) : progress_t :=
  mkProgress (current_streak p) (Some n) (last_study_date p) (achievements p)
             (total_reviews p) (studied_today p) (xp p) (daily_history p).

Definition set_studied_today (n : Z) (p : progress_t) : progress_t :=
  mkProgress (current_streak p) (longest_streak p) (last_study_date p)
             (achievements p) (total_reviews p) n (xp p) (daily_history p).

Definition set_last_study_date (d : date) (p : progress_t) : progress_t :=
  mkProgress (current_streak p) (longest_streak p) (Some d) (achievements p)
             (total_reviews p) (studied_today p) (xp p) (daily_history p).

Definition set_achievements (l : list string) (p : progress_t) : progress_t :=
  mkProgress (current_streak p) (longest_streak p) (last_study_date p) l
             (total_reviews p) (studied_today p) (xp p) (daily_history p).

Definition modify_progress (f : progress_t -> progress_t) : M unit :=
  modify (fun w => with_progress (f (progress w)) w).

(** [progress["current_streak"]]: a subscript, so a missing key raises. *)
Definition read_current_streak : M Z :=
  w <- get_world ;;
  match current_streak (progress w) with
  | Some n => ret n
  | None => lift (Raise KeyError)
  end.

(** The statements of [update_streak] after the [if last_date: ... else:]
    block. *)
Definition finish_streak (today : date) : M unit :=
  cur <- read_current_streak ;;
  w <- get_world ;;
  (if cur >? get_default (longest_streak (progress w)) 0
   then modify_progress (set_longest_streak cur)
   else ret tt) ;;;
  modify_progress (set_studied_today 0) ;;;
  modify_progress (set_last_study_date today) ;;;
  save_progress.

Definition update_streak (today : date) : M unit :=
  w <- get_world ;;
  match last_study_date (progress w) with
  | Some last_date =>
    if today =? last_date then ret tt
    else
      next_day <- lift (date_add_days last_date 1) ;;
      (if today =? next_day then
         cur <- read_current_streak ;;
         modify_progress (set_current_streak (cur + 1))
       else modify_progress (set_current_streak 1)) ;;;
      finish_streak today
  | None =>
    modify_progress (set_current_streak 1) ;;;
    finish_streak today
  end.

(** One row of [achievements_to_check]. *)
Record achievement : Type := mkAchievement {
  achievement_id : string;
  condition : bool;
  message : string
}.

Definition achievements_to_check (xp_ streak reviewed total_words : Z)
    : list achievement :=
  [ mkAchievement "XP_100" (xp_ >=? 100) "Earned 100 XP";
    mkAchievement "XP_500" (xp_ >=? 500) "Earned 500 XP";
    mkAchievement "XP_1000" (xp_ >=? 1000) "Earned 1000 XP";
    mkAchievement "Streak_3" (streak >=? 3) "3-day study streak";
    mkAchievement "Streak_7" (streak >=? 7) "7-day study streak";
    mkAchievement "Streak_30" (streak >=? 30) "30-day study streak";
    mkAchievement "Reviews_100" (reviewed >=? 100) "100 reviews completed";
    mkAchievement "Reviews_500" (reviewed >=? 500) "500 reviews completed";
    mkAchievement "Words_50" (total_words >=? 50) "Added 50 words" ].

(** [x in l] on a list of strings *)
Definition str_in (x : string) (l : list string) : bool :=
  existsb (String.eqb x) l.

(** The [for achievement_id, condition, message in ...] loop; the
    accumulator is [new_achievements]. *)
Fixpoint check_loop (table : list achievement) (new_achievements : list string)
    : M (list string) :=
  match table with
  | [] => ret new_achievements
  | a :: rest =>
    w <- get_world ;;
    if condition a && negb (str_in (achievement_id a) (achievements (progress w)))
    then
      modify_progress (fun p =>
        set_achievements (achievements p ++ [achievement_id a]) p) ;;;
      check_loop rest (new_achievements ++ [message a])
    else check_loop rest new_achievements
  end.

Definition check_achievements : M (list string) :=
  w <- get_world ;;
  let xp_ := get_default (xp (progress w)) 0 in
  let streak := get_default (current_streak (progress w)) 0 in
  let reviewed := get_default (total_reviews (progress w)) 0 in
  let total_words := Z.of_nat (List.length (vocab w)) in
  new_achievements <-
    check_loop (achievements_to_check xp_ streak reviewed total_words) [] ;;
  (match new_achievements with
   | [] => ret tt
   | _ => save_progress
   end) ;;;
  ret new_achievements.

(** ** Adding a word: [add_word_gui_logic] *)

(** The dictionary literal stored for a new word. *)
Definition new_entry (sentence_ note_ : string) (today : date) : entry :=
  mkEntry (Some sentence_) (Some note_) (Some 1) (Some 0) (Some 0)
          (Some lit_2_5) (Some []) None (Some today) (Some 1).

Definition set_words_added (n : Z) (s : stats_t) : stats_t :=
  mkStats (Some n) (words_removed s) (quiz_attempts s) (quiz_correct s).

(** [not s] on a string *)
Definition str_empty (s : string) : bool :=
  match s with
  | EmptyString => true
  | String _ _ => false
  end.

Section AddWord.
Variables lower strip : string -> string.

Definition add_word_gui_logic (today : date) (word sentence_ note_ : string)
    : M bool :=
  let word := strip word in
  let sentence_ := strip sentence_ in
  let note_ := strip note_ in
  if str_empty word || str_empty sentence_ then ret false
  else
    w <- get_world ;;
    if str_in (lower word) (map lower (keys (vocab w))) then ret false
    else
      modify (with_vocab
                (dict_set word (new_entry sentence_ note_ today) (vocab w))) ;;;
      save_vocab ;;;
      modify (fun w' =>
        with_stats
          (set_words_added (get_default (words_added (stats w')) 0 + 1)
                           (stats w')) w') ;;;
      save_stats ;;;
      ret true.
End AddWord.

(** ** Due words: [get_due_words], [get_due_count],
    [suggested_daily_target]

    The source compares the ISO texts of the two dates, which order as the
    dates do. *)

(** The [for word, data in vocab.items()] loop filling [due]. *)
Fixpoint due_loop (today : date) (items : dict entry) : list string :=
  match items with
  | [] => []
  | (word, data) :: rest =>
    if get_default (next_review data) today <=? today
    then word :: due_loop today rest
    else due_loop today rest
  end.

Definition get_due_words (today : date) : M (list string) :=
  w <- get_world ;;
  ret (due_loop today (vocab w)).

Definition get_due_count (today : date) : M Z :=
  due <- get_due_words today ;;
  ret (Z.of_nat (List.length due)).

Definition suggested_daily_target (today : date) : M Z :=
  due <- get_due_count today ;;
  ret (Z.max 5 (Z.min 20 due)).

(** ** Statistics: accuracy, difficult words, box distribution *)

(** [x * n] with [x] a float and [n] an int. *)
Definition float_mul_int (x : float) (n : Z) : outcome float :=
  obind (float_of_int n) (fun f => Return (mul x f)).

Definition get_word_accuracy (word : string) : M float :=
  w <- get_world ;;
  match dict_get word (vocab w) with
  | None => ret (S754_zero false)
  | Some data =>
    let reviewed := get_default (times_reviewed data) 0 in
    if reviewed =? 0 then ret (S754_zero false)
    else
      let correct_ := get_default (times_correct data) 0 in
      lift (obind (int_truediv correct_ reviewed) (fun r => float_mul_int r 100))
  end.

(** [sum(d.get(key, 0) for d in vocab.values())] for the two counters. *)
Definition sum_reviewed (items : dict entry) : Z :=
  fold_left (fun acc item => acc + get_default (times_reviewed (snd item)) 0)
            items 0.

Definition sum_correct (items : dict entry) : Z :=
  fold_left (fun acc item => acc + get_default (times_correct (snd item)) 0)
            items 0.

Definition get_overall_accuracy : M float :=
  w <- get_world ;;
  let total_reviewed := sum_reviewed (vocab w) in
  if total_reviewed =? 0 then ret (S754_zero false)
  else
    let total_correct := sum_correct (vocab w) in
    lift (obind (int_truediv total_correct total_reviewed)
                (fun r => float_mul_int r 100)).

(** The [for word, data in vocab.items()] loop filling [difficulties]. *)
Fixpoint difficulties_loop (items : dict entry)
    : outcome (list (string * float)) :=
  match items with
  | [] => Return []
  | (word, data) :: rest =>
    let reviewed := get_default (times_reviewed data) 0 in
    if reviewed >=? 3 then
      (error_rate <-- int_truediv (reviewed - get_default (times_correct data) 0)
                                  reviewed ;;
       tl <-- difficulties_loop rest ;;
       Return ((word, error_rate) :: tl))%outcome
    else difficulties_loop rest
  end.

(** [a < b] on the sort keys [x[1]]. *)
Definition rate_lt (a b : string * float) : bool := ltb (snd a) (snd b).

Definition get_difficult_words (limit : Z) : M (list (string * float)) :=
  w <- get_world ;;
  difficulties <- lift (difficulties_loop (vocab w)) ;;
  ret (slice_to limit (sort_reverse rate_lt difficulties)).

(** Dictionaries keyed by ints, in insertion order. *)
Definition idict : Type := list (Z * Z).

Fixpoint idict_get (k : Z) (m : idict) : option Z :=
  match m with
  | [] => None
  | (k', v) :: rest => if k' =? k then Some v else idict_get k rest
  end.

Fixpoint idict_set (k : Z) (v : Z) (m : idict) : idict :=
  match m with
  | [] => [(k, v)]
  | (k', v') :: rest =>
    if k' =? k then (k', v) :: rest else (k', v') :: idict_set k v rest
  end.

(** The [for data in vocab.values()] loop of [get_box_distribution]. *)
Fixpoint distribution_loop (items : dict entry) (distribution : idict) : idict :=
  match items with
  | [] => distribution
  | (_, data) :: rest =>
    let b := get_default (box data) 1 in
    distribution_loop rest
      (idict_set b (get_default (idict_get b distribution) 0 + 1) distribution)
  end.

Definition get_box_distribution : M idict :=
  w <- get_world ;;
  ret (distribution_loop (vocab w) [(1, 0); (2, 0); (3, 0); (4, 0); (5, 0)]).

(** ** Loading the progress file: [load_progress] *)

Definition default_progress : progress_t :=
  mkProgress (Some 0) (Some 0) None [] (Some 0) 0 (Some 0) [].

(** The [setdefault] calls on the two keys that the record type lets be
    absent; the other three are always present in it. *)
Definition with_progress_defaults (data : progress_t) : progress_t :=
  mkProgress (current_streak data) (longest_streak data) (last_study_date data)
             (achievements data)
             (Some (get_default (total_reviews data) 0))
             (studied_today data)
             (Some (get_default (xp data) 0))
             (daily_history data).

Definition load_progress : M progress_t :=
  w <- get_world ;;
  match progress_file w with
  | None => ret default_progress
  | Some data => ret (with_progress_defaults data)
  end.

(** The module-level statement [progress = load_progress()]. *)
Definition init_progress : M unit :=
  p <- load_progress ;;
  modify (with_progress p).

(** ** Schema migration: [upgrade_vocab_schema]

    The migration tells a missing ["last_reviewed"] key from one that holds
    [None], so the records it works on keep that difference: the field is
    [None] for a missing key, [Some None] for a stored [None]. *)

Record json_entry : Type := mkJson {
  j_sentence : option string;
  j_note : option string;
  j_box : option Z;
  j_times_reviewed : option Z;
  j_times_correct : option Z;
  j_ease : option float;
  j_history : option (list review);
  j_last_reviewed : option (option date);
  j_next_review : option date;
  j_interval : option Z
}.

(** [data[key] = default] when [key not in data], for one key; the flag is
    the new value of [updated]. *)
Definition heal_key {A : Type} (field : option A) (default : A)
    (updated : bool) : option A * bool :=
  match field with
  | Some a => (Some a, updated)
  | None => (Some default, true)
  end.

(** The [for key, default in defaults.items()] loop on one entry. *)
Definition heal_entry (today : date) (data : json_entry) (updated : bool)
    : json_entry * bool :=
  let '(f_sentence, u) := heal_key (j_sentence data) "" updated in
  let '(f_note, u) := heal_key (j_note data) "" u in
  let '(f_box, u) := heal_key (j_box data) 1 u in
  let '(f_reviewed, u) := heal_key (j_times_reviewed data) 0 u in
  let '(f_correct, u) := heal_key (j_times_correct data) 0 u in
  let '(f_ease, u) := heal_key (j_ease data) lit_2_5 u in
  let '(f_history, u) := heal_key (j_history data) [] u in
  let '(f_last, u) := heal_key (j_last_reviewed data) None u in
  let '(f_next, u) := heal_key (j_next_review data) today u in
  let '(f_interval, u) := heal_key (j_interval data) 1 u in
  (mkJson f_sentence f_note f_box f_reviewed f_correct f_ease f_history
          f_last f_next f_interval, u).

(** The [for word, data in vocab.items()] loop. *)
Fixpoint heal_loop (today : date) (items : dict json_entry) (updated : bool)
    : dict json_entry * bool :=
  match items with
  | [] => ([], updated)
  | (word, data) :: rest =>
    let '(data', u) := heal_entry today data updated in
    let '(rest', u') := heal_loop today rest u in
    ((word, data') :: rest', u')
  end.

(** The vocabulary in memory and the vocabulary file, before and after. *)
Definition upgrade_vocab_schema (today : date)
    (st : dict json_entry * option (dict json_entry))
    : dict json_entry * option (dict json_entry) :=
  let '(vocab', updated) := heal_loop today (fst st) false in
  (vocab', if updated then Some vocab' else snd st).

(** The entry the other operations see: they read ["last_reviewed"] as
    [None] whether the key is missing or holds [None]. *)
Definition entry_of_json (data : json_entry) : entry :=
  mkEntry (j_sentence data) (j_note data) (j_box data)
          (j_times_reviewed data) (j_times_correct data) (j_ease data)
          (j_history data)
          (match j_last_reviewed data with Some d => d | None => None end)
          (j_next_review data) (j_interval data).

Definition is_some {A : Type} (o : option A) : bool :=
  match o with
  | Some _ => true
  | None => false
  end.

(** All ten keys are present. *)
Definition complete (data : json_entry) : bool :=
  is_some (j_sentence data) && is_some (j_note data) && is_some (j_box data)
  && is_some (j_times_reviewed data) && is_some (j_times_correct data)
  && is_some (j_ease data) && is_some (j_history data)
  && is_some (j_last_reviewed data) && is_some (j_next_review data)
  && is_some (j_interval data).

(** ** End of a study session: [finish_session] in [gui.py]

    The method up to and including its call of [check_achievements], which
    is all of it that writes to [progress] and to the files: what follows
    shows message boxes, closes the session window and redraws the tables
    from read-only queries.  [reviewed] and [correct_] are
    [state["reviewed"]] and [state["correct"]]; the result is the list the
    method hands to the "Achievements Unlocked" message box.  The method
    reads the clock twice, in [update_streak] and for the history key; both
    readings are the one [today]. *)

Definition set_xp (n : Z) (p : progress_t) : progress_t :=
  mkProgress (current_streak p) (longest_streak p) (last_study_date p)
             (achievements p) (total_reviews p) (studied_today p) (Some n)
             (daily_history p).

Definition set_daily_history (h : dict Z) (p : progress_t) : progress_t :=
  mkProgress (current_streak p) (longest_streak p) (last_study_date p)
             (achievements p) (total_reviews p) (studied_today p) (xp p) h.

Section FinishSession.
(** [str(date.today())]: the ISO text of a date. *)
Variable iso : date -> string.

Definition finish_session (today : date) (reviewed correct_ : Z)
    : M (list string) :=
  update_streak today ;;;
  modify_progress (fun p => set_studied_today (studied_today p + reviewed) p) ;;;
  modify_progress (fun p => set_xp (get_default (xp p) 0 + correct_ * 5) p) ;;;
  modify_progress (fun p =>
    set_daily_history
      (dict_set (iso today)
                (get_default (dict_get (iso today) (daily_history p)) 0 + reviewed)
                (daily_history p)) p) ;;;
  save_progress ;;;
  save_vocab ;;;
  new_achievements <- check_achievements ;;
  ret new_achievements.
End FinishSession.

(** ** Derived notions used to state the properties *)

(** The world after [vocab[word]] has been rewritten to [data'] and the
    vocabulary saved. *)
Definition committed (word : string) (data' : entry) (w : world) : world :=
  mkWorld (dict_set word data' (vocab w)) (progress w) (stats w)
          (Some (dict_set word data' (vocab w))) (progress_file w)
          (stats_file w).

(** The arithmetic of one call of [schedule_next_review] on [data]. *)
Definition rescheduled (today : date) (data : entry) (q : Z) : outcome entry :=
  (e' <-- new_ease (get_default (ease data) lit_2_5) q ;;
   i' <-- new_interval (get_default (interval data) 1) e' q ;;
   next_date <-- date_add_days today i' ;;
   Return (reschedule data e' i' next_date q))%outcome.

(** [longest_streak >= current_streak], a missing key counting as 0. *)
Definition streak_invariant (p : progress_t) : Prop :=
  get_default (current_streak p) 0 <= get_default (longest_streak p) 0.

(** The progress record after the streak has been set to [cur] on [today]. *)
Definition streak_set (cur : Z) (today : date) (p : progress_t) : progress_t :=
  mkProgress (Some cur)
             (if cur >? get_default (longest_streak p) 0
              then Some cur else longest_streak p)
             (Some today) (achievements p) (total_reviews p) 0 (xp p)
             (daily_history p).

Definition streak_saved (cur : Z) (today : date) (w : world) : world :=
  mkWorld (vocab w) (streak_set cur today (progress w)) (stats w)
          (vocab_file w) (Some (streak_set cur today (progress w)))
          (stats_file w).

(** The rows of the table that a call of [check_achievements] unlocks. *)
Definition newly_unlocked (w : world) : list achievement :=
  filter
    (fun a => condition a
              && negb (str_in (achievement_id a) (achievements (progress w))))
    (achievements_to_check
       (get_default (xp (progress w)) 0)
       (get_default (current_streak (progress w)) 0)
       (get_default (total_reviews (progress w)) 0)
       (Z.of_nat (List.length (vocab w)))).

(** The world after the identifiers [ids] have been appended to
    [progress["achievements"]]. *)
Definition unlocked_world (ids : list string) (w : world) : world :=
  with_progress
    (set_achievements (achievements (progress w) ++ ids) (progress w)) w.

(** A position of a number on the extended real line, as an integer
    triple ordered lexicographically: the class (infinities, signs, zero),
    then the exponent, then the mantissa. *)
Definition fkey (x : float) : Z * Z * Z :=
  match x with
  | S754_nan => (0, 0, 0)
  | S754_zero _ => (0, 0, 0)
  | S754_infinity true => (-2, 0, 0)
  | S754_infinity false => (2, 0, 0)
  | S754_finite false m e => (1, e, Zpos m)
  | S754_finite true m e => (-1, - e, - Zpos m)
  end.

Definition lex_lt (a b : Z * Z * Z) : Prop :=
  let '(a1, a2, a3) := a in
  let '(b1, b2, b3) := b in
  a1 < b1 \/ (a1 = b1 /\ (a2 < b2 \/ (a2 = b2 /\ a3 < b3))).

(** A scored word whose priority is a number. *)
Definition scored_ok (a : float * string) : Prop := is_nan (fst a) = false.

(** In a list sorted upwards no later element is below an earlier one; in
    a list sorted downwards no later element is above an earlier one. *)
Definition ascending {A : Type} (lt : A -> A -> bool) (a b : A) : Prop :=
  lt b a = false.
Definition descending {A : Type} (lt : A -> A -> bool) (a b : A) : Prop :=
  lt a b = false.

(** The pairing of each vocabulary item with its scored word. *)
Definition scores (today : date) (item : string * entry)
    (sc : float * string) : Prop :=
  priority today (snd item) = Return (fst sc) /\ snd sc = fst item.

(** A finite number above the subnormal range carries a full 53-bit
    mantissa. *)
Definition normalized (x : float) : Prop :=
  match x with
  | S754_finite _ m e => emin prec emax < e -> 2 ^ 52 <= Zpos m
  | _ => True
  end.

(** The sum of the counts of a distribution, and the number of entries in
    a given box. *)
Definition sum_values (m : idict) : Z :=
  fold_right (fun kv acc => snd kv + acc) 0 m.

Definition count_box (b : Z) (items : dict entry) : Z :=
  Z.of_nat
    (List.length (filter (fun item => get_default (box (snd item)) 1 =? b) items)).

(** A ranked word whose error rate is a number. *)
Definition rate_ok (a : string * float) : Prop := is_nan (snd a) = false.

(** What [get_difficult_words] computes for one entry. *)
Definition error_rate_of (data : entry) : outcome float :=
  int_truediv (get_default (times_reviewed data) 0
               - get_default (times_correct data) 0)
              (get_default (times_reviewed data) 0).

(** ** Sample data for concrete runs *)

Definition today0 : date := 739923.

Definition apple : entry :=
  mkEntry (Some "An apple a day") (Some "") (Some 2) (Some 4) (Some 3)
          (Some lit_2_5) (Some []) None (Some 739920) (Some 5).

Definition pear : entry :=
  mkEntry (Some "A pear tree") (Some "fruit") (Some 1) (Some 0) (Some 0)
          (Some lit_2_5) (Some []) None (Some 739923) (Some 1).

Definition progress0 : progress_t :=
  mkProgress (Some 2) (Some 4) (Some 739922) ["XP_100"] (Some 120) 0
             (Some 510) [].

Definition stats0 : stats_t := mkStats (Some 2) (Some 0) (Some 0) (Some 0).

Definition world0 : world :=
  mkWorld [("apple", apple); ("pear", pear)] progress0 stats0 None None None.

Definition plum : entry :=
  mkEntry (Some "A plum tart") (Some "") (Some 3) (Some 4) (Some 3)
          (Some lit_2_5) (Some []) None (Some 739930) (Some 7).

Definition fig : entry :=
  mkEntry (Some "A ripe fig") (Some "") (Some 1) (Some 5) (Some 1)
          (Some lit_1_3) (Some []) None (Some 739923) (Some 1).

Definition world1 : world :=
  mkWorld [("apple", apple); ("pear", pear); ("plum", plum); ("fig", fig)]
          progress0 stats0 None None None.

(** An entry whose stored ease is [0.0]. *)
Definition flat : entry :=
  mkEntry (Some "A flat tyre") (Some "") (Some 1) (Some 0) (Some 0)
          (Some (S754_zero false)) (Some []) None (Some 739923) (Some 1).

Definition world_flat : world :=
  mkWorld [("apple", apple); ("flat", flat)] progress0 stats0 None None None.

(** A vocabulary file written before the scheduling fields existed. *)
Definition legacy : json_entry :=
  mkJson (Some "An old entry") None (Some 2) None None None None None None None.

(** [str(d)] for a date: [YYYY-MM-DD] from the day ordinal. *)
Definition digit (n : Z) : string :=
  String (ascii_of_nat (48 + Z.to_nat (n mod 10))) "".

Definition pad2 (n : Z) : string := digit (n / 10) ++ digit n.

Definition pad4 (n : Z) : string := pad2 (n / 100) ++ pad2 (n mod 100).

Definition iso_format (d : date) : string :=
  let z := d + 305 in
  let era := z / 146097 in
  let doe := z mod 146097 in
  let yoe := (doe - doe / 1460 + doe / 36524 - doe / 146096) / 365 in
  let doy := doe - (365 * yoe + yoe / 4 - yoe / 100) in
  let mp := (5 * doy + 2) / 153 in
  let day := doy - (153 * mp + 2) / 5 + 1 in
  let month := if mp <? 10 then mp + 3 else mp - 9 in
  let year := yoe + era * 400 + (if month <=? 2 then 1 else 0) in
  pad4 year ++ "-" ++ pad2 month ++ "-" ++ pad2 day.


Definition legacy_vocab : dict json_entry := [("old", legacy)].

(** An entry with eight recorded reviews, one of them without a ["correct"]
    key: three of its last five are wrong answers, four of all eight. *)
Definition grape_history : list review :=
  [ mkReview (Some 739900) (Some true);
    mkReview (Some 739902) (Some true);
    mkReview (Some 739905) (Some false);
    mkReview (Some 739908) (Some false);
    mkReview (Some 739911) (Some true);
    mkReview (Some 739914) None;
    mkReview (Some 739917) (Some false);
    mkReview (Some 739920) (Some false) ].

Definition grape : entry :=
  mkEntry (Some "A grape vine") (Some "") (Some 1) (Some 8) (Some 3)
          (Some lit_2_5) (Some grape_history) (Some 739920) (Some 739930)
          (Some 1).

Definition world_history : world :=
  mkWorld [("apple", apple); ("grape", grape); ("pear", pear)]
          progress0 stats0 None None None.

(** Two words stored with the same data, hence the same priority, the
    smaller word first, and a third word of a higher priority between
    them. *)
Definition world_tie : world :=
  mkWorld [("alp", apple); ("pear", pear); ("beta", apple)]
          progress0 stats0 None None None.

(** * Properties *)

(** ** Dictionaries *)

Section DictFacts.
Context {V : Type}.
Implicit Types (m : dict V) (k : string) (v : V).

Lemma dict_get_set_same k v m : dict_get k (dict_set k v m) = Some v.
Proof.
  induction m as [|[k' v'] m IH]; simpl.
  - now rewrite String.eqb_refl.
  - destruct (String.eqb k' k) eqn:E; simpl; rewrite E; auto.
Qed.

Lemma dict_get_set_other k k' v m :
  k' <> k -> dict_get k' (dict_set k v m) = dict_get k' m.
Proof.
  intros Hne. induction m as [|[k0 v0] m IH]; simpl.
  - destruct (String.eqb k k') eqn:E; auto.
    apply String.eqb_eq in E. congruence.
  - destruct (String.eqb k0 k) eqn:E; simpl.
    + apply String.eqb_eq in E. subst k0.
      destruct (String.eqb k k') eqn:E'; auto.
      apply String.eqb_eq in E'. congruence.
    + now rewrite IH.
Qed.

Lemma keys_dict_set k v m :
  dict_mem k m = true -> keys (dict_set k v m) = keys m.
Proof.
  unfold dict_mem, keys. induction m as [|[k0 v0] m IH]; simpl.
  - discriminate.
  - destruct (String.eqb k0 k) eqn:E; simpl; auto.
    intros H. now rewrite IH.
Qed.

End DictFacts.

(** ** Order facts on binary64 values *)

Lemma compare_cont_antisym (p q : positive) (c : comparison) :
  Pos.compare_cont c q p = CompOpp (Pos.compare_cont (CompOpp c) p q).
Proof.
  rewrite Pos.compare_cont_antisym. now rewrite CompOpp_involutive.
Qed.

Lemma SFcompare_antisym (x y : float) :
  SFcompare y x = option_map CompOpp (SFcompare x y).
Proof.
  destruct x as [sx|sx| |sx mx ex], y as [sy|sy| |sy my ey]; simpl;
    try reflexivity;
    try (destruct sx; reflexivity); try (destruct sy; reflexivity);
    try (destruct sx, sy; reflexivity).
  destruct sx, sy; simpl; try reflexivity;
    rewrite (Z.compare_antisym ex ey);
    destruct (ex ?= ey) eqn:E; simpl; try reflexivity;
    rewrite (compare_cont_antisym mx my Eq); simpl;
    now rewrite ?CompOpp_involutive.
Qed.

Lemma SFcompare_refl (x : float) : is_nan x = false -> SFcompare x x = Some Eq.
Proof.
  destruct x as [s|s| |s m e]; simpl; intros H; try discriminate;
    try reflexivity; try (destruct s; reflexivity).
  destruct s; rewrite Z.compare_refl;
    fold (Pos.compare m m); now rewrite Pos.compare_refl.
Qed.

Lemma ltb_leb (x y : float) : ltb x y = true -> leb x y = true.
Proof.
  unfold ltb, leb, SFltb, SFleb.
  destruct (SFcompare x y) as [[| |]|]; auto.
Qed.

Lemma leb_refl (x : float) : is_nan x = false -> leb x x = true.
Proof. intros H. unfold leb, SFleb. now rewrite SFcompare_refl. Qed.

(** Of two numbers, one is below the other. *)
Lemma not_ltb_leb (x y : float) :
  is_nan x = false -> is_nan y = false -> ltb x y = false -> leb y x = true.
Proof.
  intros Hx Hy. unfold ltb, leb, SFltb, SFleb.
  rewrite (SFcompare_antisym x y).
  destruct (SFcompare x y) as [[| |]|] eqn:E; simpl; auto; try discriminate.
  destruct x, y; simpl in *; discriminate.
Qed.

Lemma py_max_lower_bound (x : float) : leb lit_1_3 (py_max lit_1_3 x) = true.
Proof.
  unfold py_max. destruct (ltb lit_1_3 x) eqn:E.
  - now apply ltb_leb.
  - reflexivity.
Qed.

(** ** [schedule_next_review] *)

Lemma schedule_next_review_missing today word q w :
  dict_get word (vocab w) = None ->
  schedule_next_review today word q w = (Return tt, w).
Proof.
  intros H. unfold schedule_next_review, bind, get_world. now rewrite H.
Qed.

Lemma schedule_next_review_stored today word q w data :
  dict_get word (vocab w) = Some data ->
  schedule_next_review today word q w =
  match rescheduled today data q with
  | Return data' => (Return tt, committed word data' w)
  | Raise x => (Raise x, w)
  end.
Proof.
  intros H. unfold schedule_next_review, rescheduled, bind, get_world, lift.
  rewrite H.
  destruct (new_ease _ q) as [e'|x]; simpl; [|reflexivity].
  destruct (new_interval _ e' q) as [i'|x]; simpl; [|reflexivity].
  destruct (date_add_days today i') as [nd|x]; simpl; reflexivity.
Qed.

Lemma rescheduled_inv today data q data' :
  rescheduled today data q = Return data' ->
  exists e' i' nd,
    new_ease (get_default (ease data) lit_2_5) q = Return e' /\
    new_interval (get_default (interval data) 1) e' q = Return i' /\
    date_add_days today i' = Return nd /\
    data' = reschedule data e' i' nd q.
Proof.
  unfold rescheduled.
  destruct (new_ease _ q) as [e'|x] eqn:He; simpl; [|discriminate].
  destruct (new_interval _ e' q) as [i'|x] eqn:Hi; simpl; [|discriminate].
  destruct (date_add_days today i') as [nd|x] eqn:Hd; simpl; [|discriminate].
  intros [= <-]. now exists e', i', nd.
Qed.

Lemma schedule_next_review_inv today word q w data w' :
  dict_get word (vocab w) = Some data ->
  schedule_next_review today word q w = (Return tt, w') ->
  exists e' i' nd,
    new_ease (get_default (ease data) lit_2_5) q = Return e' /\
    new_interval (get_default (interval data) 1) e' q = Return i' /\
    date_add_days today i' = Return nd /\
    w' = committed word (reschedule data e' i' nd q) w.
Proof.
  intros Hget Hrun. rewrite (schedule_next_review_stored _ _ _ _ _ Hget) in Hrun.
  destruct (rescheduled today data q) as [d'|x] eqn:E; [|discriminate].
  destruct (rescheduled_inv _ _ _ _ E) as (e' & i' & nd & He & Hi & Hd & ->).
  injection Hrun as <-. now exists e', i', nd.
Qed.

Lemma date_add_days_inv d n r :
  date_add_days d n = Return r -> r = d + n.
Proof.
  unfold date_add_days.
  destruct ((Z.abs n <=? MAXDELTADAYS) && (MINORDINAL <=? d + n)
            && (d + n <=? MAXORDINAL)); [|discriminate].
  intros [= <-]. reflexivity.
Qed.

Lemma float_of_int_small n :
  Z.abs n <= 4 -> float_of_int n = Return (of_Z n).
Proof.
  intros H.
  assert (n = -4 \/ n = -3 \/ n = -2 \/ n = -1 \/ n = 0 \/
          n = 1 \/ n = 2 \/ n = 3 \/ n = 4) as Hn by lia.
  repeat destruct Hn as [->|Hn]; try subst n; reflexivity.
Qed.

(** The ease step as one expression, for a rating whose conversion to
    float succeeds. *)
Lemma new_ease_formula e q :
  float_of_int (5 - q) = Return (of_Z (5 - q)) ->
  new_ease e q =
  Return (py_max lit_1_3
            (add e (sub lit_0_1
                      (mul (of_Z (5 - q))
                           (add lit_0_08 (mul (of_Z (5 - q)) lit_0_02)))))).
Proof.
  intros H. unfold new_ease, int_mul_float. now rewrite H.
Qed.

Lemma new_ease_lower_bound e q e' :
  new_ease e q = Return e' -> leb lit_1_3 e' = true.
Proof.
  unfold new_ease, int_mul_float.
  destruct (float_of_int (5 - q)); simpl; [|discriminate].
  intros [= <-]. apply py_max_lower_bound.
Qed.

(** C1: for a stored word and a rating from 1 to 4 the ease step is
    defined and equals [max(1.3, ease + (0.1 - (5-q)*(0.08 + (5-q)*0.02)))];
    that value is at least 1.3 whatever the stored ease, and it is the ease
    the entry carries after every completed call. *)
Theorem schedule_updates_ease today word q w data :
  dict_get word (vocab w) = Some data ->
  1 <= q <= 4 ->
  let e := get_default (ease data) lit_2_5 in
  let k := of_Z (5 - q) in
  let e' :=
    py_max lit_1_3
      (add e (sub lit_0_1 (mul k (add lit_0_08 (mul k lit_0_02))))) in
  new_ease e q = Return e' /\
  leb lit_1_3 e' = true /\
  forall w',
    schedule_next_review today word q w = (Return tt, w') ->
    exists data',
      dict_get word (vocab w') = Some data' /\ ease data' = Some e'.
Proof.
  intros Hget Hq e k e'.
  assert (new_ease e q = Return e') as He.
  { apply new_ease_formula, float_of_int_small. lia. }
  split; [exact He|]. split; [apply py_max_lower_bound|].
  intros w' Hrun.
  destruct (schedule_next_review_inv _ _ _ _ _ _ Hget Hrun)
    as (e1 & i' & nd & He1 & _ & _ & ->).
  fold e in He1. rewrite He in He1. injection He1 as <-.
  eexists. split; [apply dict_get_set_same|reflexivity].
Qed.

Lemma date_add_days_in_range d n :
  Z.abs n <= MAXDELTADAYS -> MINORDINAL <= d + n <= MAXORDINAL ->
  date_add_days d n = Return (d + n).
Proof.
  intros Hn [Hlo Hhi]. unfold date_add_days.
  apply Z.leb_le in Hn, Hlo, Hhi. now rewrite Hn, Hlo, Hhi.
Qed.

(** A lapse (rating 1 or 2) completes whenever tomorrow is a date. *)
Lemma schedule_next_review_lapse_completes today word q w data :
  dict_get word (vocab w) = Some data ->
  1 <= q < 3 ->
  MINORDINAL <= today + 1 <= MAXORDINAL ->
  exists w', schedule_next_review today word q w = (Return tt, w').
Proof.
  intros Hget Hq Hd.
  rewrite (schedule_next_review_stored _ _ _ _ _ Hget). unfold rescheduled.
  rewrite new_ease_formula by (apply float_of_int_small; lia). simpl.
  unfold new_interval. destruct (q <? 3) eqn:E; [|lia]. simpl.
  rewrite date_add_days_in_range by (unfold MAXDELTADAYS; lia || exact Hd).
  simpl. eauto.
Qed.

(** A first pass (rating 3 or 4 on interval 1) completes whenever the day
    three days ahead is a date. *)
Lemma schedule_next_review_first_pass_completes today word q w data :
  dict_get word (vocab w) = Some data ->
  3 <= q <= 4 ->
  get_default (interval data) 1 = 1 ->
  MINORDINAL <= today + 3 <= MAXORDINAL ->
  exists w', schedule_next_review today word q w = (Return tt, w').
Proof.
  intros Hget Hq Hi Hd.
  rewrite (schedule_next_review_stored _ _ _ _ _ Hget). unfold rescheduled.
  rewrite new_ease_formula by (apply float_of_int_small; lia). simpl.
  unfold new_interval. destruct (q <? 3) eqn:E; [lia|]. rewrite Hi. simpl.
  rewrite date_add_days_in_range by (unfold MAXDELTADAYS; lia || exact Hd).
  simpl. eauto.
Qed.

Lemma new_box_lapse b q : q < 3 -> new_box b q = Z.min 5 (Z.max 1 (b - 1)).
Proof.
  intros H. unfold new_box. destruct (q >=? 3) eqn:E; [lia|reflexivity].
Qed.

Lemma new_box_pass b q : 3 <= q -> new_box b q = Z.min 5 (Z.max 1 (b + 1)).
Proof.
  intros H. unfold new_box. destruct (q >=? 3) eqn:E; [reflexivity|lia].
Qed.

(** C2: after a completed call on a stored word, a rating below 3 leaves
    interval 1 and the box one lower but not below 1; a rating of 3 or more
    leaves interval 3 when it was 1 and otherwise the rounded product of the
    old interval and the new ease, and the box one higher but not above 5;
    in both cases the next review is [today] plus the new interval. *)
Theorem schedule_updates_interval_box_date today word q w data w' :
  dict_get word (vocab w) = Some data ->
  schedule_next_review today word q w = (Return tt, w') ->
  let i := get_default (interval data) 1 in
  let b := get_default (box data) 1 in
  exists data' e' i',
    dict_get word (vocab w') = Some data' /\
    ease data' = Some e' /\
    interval data' = Some i' /\
    next_review data' = Some (today + i') /\
    (q < 3 -> i' = 1 /\ box data' = Some (Z.min 5 (Z.max 1 (b - 1)))) /\
    (3 <= q ->
       (i = 1 -> i' = 3) /\
       (i <> 1 ->
          exists f, float_of_int i = Return f /\
                    py_round (mul f e') = Return i') /\
       box data' = Some (Z.min 5 (Z.max 1 (b + 1)))) /\
    (1 <= b <= 5 ->
       box data' = Some (if q <? 3 then Z.max 1 (b - 1) else Z.min 5 (b + 1))).
Proof.
  intros Hget Hrun i b.
  destruct (schedule_next_review_inv _ _ _ _ _ _ Hget Hrun)
    as (e' & i' & nd & He & Hi & Hd & ->).
  apply date_add_days_inv in Hd. subst nd.
  exists (reschedule data e' i' (today + i') q), e', i'.
  split; [apply dict_get_set_same|].
  do 3 (split; [reflexivity|]).
  fold i in Hi. unfold new_interval in Hi. simpl. fold b.
  split; [|split].
  - intros Hq. destruct (q <? 3) eqn:E; [|lia].
    injection Hi as <-. split; [reflexivity|]. now rewrite new_box_lapse.
  - intros Hq. destruct (q <? 3) eqn:E; [lia|].
    split; [|split].
    + intros Hi1. rewrite Hi1 in Hi. simpl in Hi. now injection Hi as <-.
    + intros Hi1. destruct (i =? 1) eqn:E1; [lia|].
      unfold int_mul_float in Hi.
      destruct (float_of_int i) as [f|x]; simpl in Hi; [|discriminate].
      now exists f.
    + now rewrite new_box_pass.
  - intros Hb. unfold new_box.
    destruct (q <? 3) eqn:E, (q >=? 3) eqn:E'; try lia; f_equal; lia.
Qed.

(** C7 fails on the code: rating 7 on a stored word returns [None] like any
    other call and rewrites the entry, and an unknown word returns [None]
    as well. *)
Lemma schedule_reports_no_failure :
  is_failure (fst (schedule_next_review today0 "apple" 7 world0)) = false /\
  vocab (snd (schedule_next_review today0 "apple" 7 world0)) <> vocab world0 /\
  is_failure (fst (schedule_next_review today0 "ghost" 3 world0)) = false.
Proof.
  split; [vm_compute; reflexivity|]. split; [|vm_compute; reflexivity].
  vm_compute. discriminate.
Qed.

(** C7 as amended: the call has no failure result.  For a word not in the
    store it returns [None] and leaves the world as it was; for a stored word
    and any integer rating, in or out of 1..4, it either returns [None] with
    the entry rewritten by the one set of formulas, or an arithmetic
    exception leaves the world as it was. *)
Theorem schedule_silent_on_bad_input today word q w :
  (dict_get word (vocab w) = None ->
   schedule_next_review today word q w = (Return tt, w)) /\
  (forall data,
     dict_get word (vocab w) = Some data ->
     (exists e' i',
        new_ease (get_default (ease data) lit_2_5) q = Return e' /\
        new_interval (get_default (interval data) 1) e' q = Return i' /\
        schedule_next_review today word q w =
        (Return tt, committed word (reschedule data e' i' (today + i') q) w))
     \/
     (exists x, schedule_next_review today word q w = (Raise x, w))).
Proof.
  split; [apply schedule_next_review_missing|].
  intros data Hget. rewrite (schedule_next_review_stored _ _ _ _ _ Hget).
  destruct (rescheduled today data q) as [d'|x] eqn:E.
  - left. destruct (rescheduled_inv _ _ _ _ E) as (e' & i' & nd & He & Hi & Hd & ->).
    apply date_add_days_inv in Hd. subst nd. now exists e', i'.
  - right. now exists x.
Qed.

(** ** [remove_word] and [edit_word] *)

(** What one call of [remove_word] does, by the first key of the
    dictionary: the loop body leaves the loop on its first round. *)
Lemma remove_word_unfold lower word w :
  remove_word lower word w =
  match keys (vocab w) with
  | [] => (Return false, w)
  | k :: _ =>
    if String.eqb (lower k) (lower word)
    then (Return false, with_vocab (dict_del k (vocab w)) w)
    else (Return true,
          mkWorld (vocab w) (progress w)
                  (set_words_removed
                     (get_default (words_removed (stats w)) 0 + 1) (stats w))
                  (Some (vocab w)) (progress_file w)
                  (Some (set_words_removed
                           (get_default (words_removed (stats w)) 0 + 1)
                           (stats w))))
  end.
Proof.
  unfold remove_word, bind, get_world.
  destruct (keys (vocab w)) as [|k rest]; [reflexivity|]. simpl.
  unfold bind. destruct (String.eqb (lower k) (lower word)); reflexivity.
Qed.

(** C4 at three inputs: removing the first key deletes it but answers
    [False]; removing the second key, or a word that is not stored, answers
    [True] and deletes nothing. *)
Theorem remove_word_answers_by_first_key :
  remove_word str_lower "Apple" world0 =
    (Return false,
     mkWorld [("pear", pear)] progress0 stats0 None None None) /\
  (fst (remove_word str_lower "pear" world0) = Return true /\
   vocab (snd (remove_word str_lower "pear" world0)) = vocab world0) /\
  (fst (remove_word str_lower "ghost" world0) = Return true /\
   vocab (snd (remove_word str_lower "ghost" world0)) = vocab world0).
Proof. repeat split; vm_compute; reflexivity. Qed.

(** C9: editing a stored word answers [True]; the entry keeps its eight
    scheduling fields and gets the stripped sentence and note; every other key
    keeps its entry, the key order stays, and progress and statistics are not
    touched. *)
Theorem edit_word_frame strip word new_sentence new_note w data :
  dict_get word (vocab w) = Some data ->
  exists data',
    edit_word strip word new_sentence new_note w =
      (Return true, committed word data' w) /\
    sentence data' = Some (strip new_sentence) /\
    note data' = Some (strip new_note) /\
    (box data' = box data /\ ease data' = ease data /\
     interval data' = interval data /\
     last_reviewed data' = last_reviewed data /\
     next_review data' = next_review data /\
     history data' = history data /\
     times_reviewed data' = times_reviewed data /\
     times_correct data' = times_correct data) /\
    dict_get word (vocab (committed word data' w)) = Some data' /\
    (forall k, k <> word ->
       dict_get k (vocab (committed word data' w)) = dict_get k (vocab w)) /\
    keys (vocab (committed word data' w)) = keys (vocab w) /\
    progress (committed word data' w) = progress w /\
    stats (committed word data' w) = stats w.
Proof.
  intros Hget.
  exists (set_text (strip new_sentence) (strip new_note) data).
  split.
  { unfold edit_word, bind, get_world. rewrite Hget. reflexivity. }
  do 3 (split; [simpl; auto 10|]).
  split; [apply dict_get_set_same|].
  split; [intros k Hk; now apply dict_get_set_other|].
  split; [|split; reflexivity].
  apply keys_dict_set. unfold dict_mem. now rewrite Hget.
Qed.

(** ** [update_streak] *)

Lemma finish_streak_run today w cur :
  current_streak (progress w) = Some cur ->
  finish_streak today w =
  (Return tt,
   mkWorld (vocab w) (streak_set cur today (progress w)) (stats w)
           (vocab_file w) (Some (streak_set cur today (progress w)))
           (stats_file w)).
Proof.
  intros Hc.
  cbv [finish_streak bind read_current_streak get_world ret lift
       modify_progress modify save_progress with_progress].
  rewrite Hc. cbn [progress longest_streak]. unfold streak_set.
  destruct (cur >? get_default (longest_streak (progress w)) 0) eqn:E;
    unfold set_last_study_date, set_studied_today, set_longest_streak;
    cbn; rewrite ?Hc; reflexivity.
Qed.

Lemma update_streak_set today w cur :
  finish_streak today (with_progress (set_current_streak cur (progress w)) w) =
  (Return tt, streak_saved cur today w).
Proof. now rewrite (finish_streak_run _ _ cur). Qed.

Lemma streak_set_invariant cur today p :
  streak_invariant (streak_set cur today p).
Proof.
  unfold streak_invariant, streak_set. simpl.
  destruct (cur >? get_default (longest_streak p) 0) eqn:E; simpl; lia.
Qed.

Lemma streak_set_longest cur today p :
  get_default (longest_streak (streak_set cur today p)) 0 =
  Z.max (get_default (longest_streak p) 0) cur.
Proof.
  unfold streak_set. simpl.
  destruct (cur >? get_default (longest_streak p) 0) eqn:E; simpl; lia.
Qed.

(** Every run of [update_streak] ends in one of four ways. *)
Lemma update_streak_cases today w :
  update_streak today w = (Return tt, w) \/
  (exists cur, update_streak today w = (Return tt, streak_saved cur today w)) \/
  (exists x, update_streak today w = (Raise x, w)).
Proof.
  unfold update_streak, bind, get_world.
  destruct (last_study_date (progress w)) as [last|].
  - destruct (today =? last); [now left|]. unfold lift.
    destruct (date_add_days last 1) as [nd|x]; [|right; right; now exists x].
    destruct (today =? nd).
    + unfold read_current_streak, bind, get_world.
      destruct (current_streak (progress w)) as [cur|] eqn:Hc.
      * right; left. exists (cur + 1). unfold ret, modify_progress, modify.
        apply update_streak_set.
      * right; right. now exists KeyError.
    + right; left. exists 1. unfold modify_progress, modify.
      apply update_streak_set.
  - right; left. exists 1. unfold modify_progress, modify.
    apply update_streak_set.
Qed.

(** C5: [update_streak] changes nothing when the last study date is
    [today]; on the day after the last study date it adds one to the streak;
    with no last study date, or on any other day, it sets the streak to 1;
    whenever it sets the streak the longest streak becomes the larger of its
    old value and the new streak, and the studied-today counter and the last
    study date are reset; every call, however it ends, preserves
    [longest_streak >= current_streak]. *)
Theorem update_streak_state_machine today w :
  let p := progress w in
  (last_study_date p = Some today -> update_streak today w = (Return tt, w)) /\
  (forall last cur,
     last_study_date p = Some last -> current_streak p = Some cur ->
     today = last + 1 -> MINORDINAL <= today <= MAXORDINAL ->
     update_streak today w = (Return tt, streak_saved (cur + 1) today w)) /\
  (last_study_date p = None ->
   update_streak today w = (Return tt, streak_saved 1 today w)) /\
  (forall last,
     last_study_date p = Some last ->
     today <> last -> today <> last + 1 -> MINORDINAL <= last + 1 <= MAXORDINAL ->
     update_streak today w = (Return tt, streak_saved 1 today w)) /\
  (forall cur,
     let p' := progress (streak_saved cur today w) in
     current_streak p' = Some cur /\
     get_default (longest_streak p') 0 =
       Z.max (get_default (longest_streak p) 0) cur /\
     studied_today p' = 0 /\ last_study_date p' = Some today) /\
  (forall o w',
     update_streak today w = (o, w') ->
     streak_invariant p -> streak_invariant (progress w')).
Proof.
  intros p. repeat split.
  - intros H. unfold update_streak, bind, get_world. fold p. rewrite H.
    now rewrite Z.eqb_refl.
  - intros last cur Hl Hc -> Hr.
    unfold update_streak, bind, get_world, lift. fold p. rewrite Hl.
    destruct (last + 1 =? last) eqn:E; [lia|].
    rewrite date_add_days_in_range by (unfold MAXDELTADAYS; lia).
    rewrite Z.eqb_refl. unfold read_current_streak, bind, get_world.
    fold p. rewrite Hc. apply update_streak_set.
  - intros H. unfold update_streak, bind, get_world. fold p. rewrite H.
    apply update_streak_set.
  - intros last Hl Hne Hne1 Hr.
    unfold update_streak, bind, get_world, lift. fold p. rewrite Hl.
    destruct (today =? last) eqn:E; [lia|].
    rewrite date_add_days_in_range by (unfold MAXDELTADAYS; lia).
    destruct (today =? last + 1) eqn:E1; [lia|].
    apply update_streak_set.
  - apply streak_set_longest.
  - intros o w' Hrun Hinv.
    destruct (update_streak_cases today w) as [H|[[cur H]|[x H]]];
      rewrite H in Hrun; injection Hrun as <- <-; auto.
    apply streak_set_invariant.
Qed.

(** ** [check_achievements] *)

Lemma unlocked_world_nil w : unlocked_world [] w = w.
Proof.
  destruct w as [v [c l d a t s x h] st vf pf sf].
  unfold unlocked_world, with_progress, set_achievements. simpl.
  now rewrite app_nil_r.
Qed.

Lemma unlocked_world_cons id ids w :
  unlocked_world ids (unlocked_world [id] w) = unlocked_world (id :: ids) w.
Proof.
  unfold unlocked_world, with_progress, set_achievements. simpl.
  now rewrite <- app_assoc.
Qed.

Lemma str_in_app x l l' : str_in x (l ++ l') = str_in x l || str_in x l'.
Proof. apply existsb_app. Qed.

Lemma check_loop_run table :
  NoDup (map achievement_id table) ->
  forall acc w,
    let fresh :=
      filter
        (fun a => condition a
                  && negb (str_in (achievement_id a) (achievements (progress w))))
        table in
    check_loop table acc w =
    (Return (acc ++ map message fresh),
     unlocked_world (map achievement_id fresh) w).
Proof.
  induction table as [|a rest IH]; intros Hnd acc w; simpl.
  - now rewrite app_nil_r, unlocked_world_nil.
  - inversion Hnd as [|? ? Hnotin Hnd']; subst.
    unfold bind, get_world.
    destruct (condition a
              && negb (str_in (achievement_id a) (achievements (progress w))))
      eqn:Hc.
    + unfold modify_progress, modify. fold (unlocked_world [achievement_id a] w).
      rewrite IH by assumption. simpl.
      rewrite unlocked_world_cons, <- app_assoc. simpl.
      rewrite (filter_ext_in _
                 (fun a0 => condition a0
                            && negb (str_in (achievement_id a0)
                                       (achievements (progress w))))); [reflexivity|].
      intros b Hb. rewrite str_in_app. simpl. rewrite orb_false_r.
      destruct (String.eqb (achievement_id b) (achievement_id a)) eqn:E;
        [|now rewrite orb_false_r].
      apply String.eqb_eq in E. exfalso. apply Hnotin. rewrite <- E.
      now apply in_map.
    + now rewrite IH.
Qed.

Lemma table_ids_distinct x s r t :
  NoDup (map achievement_id (achievements_to_check x s r t)).
Proof.
  simpl. repeat (constructor; [simpl; intuition discriminate|]). constructor.
Qed.

Lemma table_message_determines_id x s r t a b :
  In a (achievements_to_check x s r t) ->
  In b (achievements_to_check x s r t) ->
  message a = message b -> achievement_id a = achievement_id b.
Proof.
  unfold achievements_to_check. intros Ha Hb.
  repeat (destruct Ha as [<-|Ha]; [|]); try contradiction;
    repeat (destruct Hb as [<-|Hb]; [|]); try contradiction;
    simpl; intros H; (reflexivity || discriminate H).
Qed.

(** C8: [check_achievements] returns, in table order, the messages of
    exactly the rows whose condition holds and whose identifier is not yet
    unlocked; it appends the identifiers of those rows, in the same order, to
    the unlocked list and touches nothing else of the vocabulary, statistics
    or streak data; a row whose identifier is already unlocked is never
    among the reported ones. *)
Theorem check_achievements_reports_new w :
  let table :=
    achievements_to_check
      (get_default (xp (progress w)) 0)
      (get_default (current_streak (progress w)) 0)
      (get_default (total_reviews (progress w)) 0)
      (Z.of_nat (List.length (vocab w))) in
  let fresh := newly_unlocked w in
  (forall a,
     In a fresh <->
     In a table /\ condition a = true /\
     str_in (achievement_id a) (achievements (progress w)) = false) /\
  fresh =
    filter
      (fun a => condition a
                && negb (str_in (achievement_id a) (achievements (progress w))))
      table /\
  (forall a,
     In a table ->
     str_in (achievement_id a) (achievements (progress w)) = true ->
     ~ In (message a) (map message fresh)) /\
  exists w',
    check_achievements w = (Return (map message fresh), w') /\
    achievements (progress w') =
      achievements (progress w) ++ map achievement_id fresh /\
    vocab w' = vocab w /\ stats w' = stats w /\
    current_streak (progress w') = current_streak (progress w) /\
    longest_streak (progress w') = longest_streak (progress w) /\
    xp (progress w') = xp (progress w) /\
    total_reviews (progress w') = total_reviews (progress w).
Proof.
  intros table fresh.
  assert (forall a,
            In a fresh <->
            In a table /\ condition a = true /\
            str_in (achievement_id a) (achievements (progress w)) = false)
    as Hin.
  { intros a. unfold fresh, newly_unlocked. fold table.
    rewrite filter_In, andb_true_iff, negb_true_iff. tauto. }
  split; [exact Hin|]. split; [reflexivity|]. split.
  - intros a Ha Hun Hmsg. apply in_map_iff in Hmsg.
    destruct Hmsg as (b & Hmb & Hb). apply Hin in Hb.
    destruct Hb as (Hbt & _ & Hbn).
    rewrite (table_message_determines_id _ _ _ _ _ _ Hbt Ha Hmb) in Hbn.
    congruence.
  - unfold check_achievements, bind, get_world. cbv zeta.
    rewrite (check_loop_run _ (table_ids_distinct _ _ _ _)).
    rewrite app_nil_l. cbv zeta.
    change (filter _ _) with fresh. clear Hin. clearbody fresh. clear table.
    destruct (map message fresh) eqn:E; unfold ret, save_progress, modify;
      eexists; (split; [reflexivity|]); simpl; auto 10.
Qed.

(** ** The order on scored words *)

Lemma compare_cont_Eq (p q : positive) : Pos.compare_cont Eq p q = (p ?= q)%positive.
Proof. reflexivity. Qed.

Ltac order_cases :=
  repeat match goal with
  | |- context [(?a ?= ?b)%Z] =>
      destruct (Z.compare_spec a b); subst; simpl
  | |- context [(?a ?= ?b)%positive] =>
      destruct (Pos.compare_spec a b); subst; simpl
  end.

Lemma SFcompare_fkey (x y : float) :
  is_nan x = false -> is_nan y = false ->
  exists c, SFcompare x y = Some c /\
    match c with
    | Lt => lex_lt (fkey x) (fkey y)
    | Eq => fkey x = fkey y
    | Gt => lex_lt (fkey y) (fkey x)
    end.
Proof.
  destruct x as [sx|sx| |sx mx ex], y as [sy|sy| |sy my ey];
    simpl; intros Hx Hy; try discriminate;
    try destruct sx; try destruct sy; simpl;
    rewrite ?compare_cont_Eq;
    order_cases; eexists; (split; [reflexivity|]); simpl;
    try reflexivity; try lia.
Qed.

Lemma ltb_fkey x y :
  is_nan x = false -> is_nan y = false ->
  (ltb x y = true <-> lex_lt (fkey x) (fkey y)).
Proof.
  intros Hx Hy. destruct (SFcompare_fkey x y Hx Hy) as (c & Hc & Hk).
  unfold ltb, SFltb. rewrite Hc.
  destruct (fkey x) as [[a1 a2] a3], (fkey y) as [[b1 b2] b3].
  destruct c; simpl in *; split; intros H; try discriminate; auto;
    try (injection Hk as -> -> ->); lia.
Qed.

Lemma eqb_fkey x y :
  is_nan x = false -> is_nan y = false ->
  (eqb x y = true <-> fkey x = fkey y).
Proof.
  intros Hx Hy. destruct (SFcompare_fkey x y Hx Hy) as (c & Hc & Hk).
  unfold eqb, SFeqb. rewrite Hc.
  destruct (fkey x) as [[a1 a2] a3], (fkey y) as [[b1 b2] b3].
  destruct c; simpl in *; split; intros H; try discriminate; auto;
    injection H as -> -> ->; lia.
Qed.

Lemma string_compare_OT a b : String.compare a b = String_as_OT.compare a b.
Proof.
  revert b. induction a as [|c a IH]; destruct b as [|d b]; simpl; auto.
Qed.

Lemma string_ltb_trans a b c :
  String.ltb a b = true -> String.ltb b c = true -> String.ltb a c = true.
Proof.
  unfold String.ltb.
  rewrite (string_compare_OT a b), (string_compare_OT b c),
    (string_compare_OT a c).
  destruct (String_as_OT.compare a b) eqn:E1; intros H1; try discriminate H1.
  destruct (String_as_OT.compare b c) eqn:E2; intros H2; try discriminate H2.
  assert (String_as_OT.lt a c) as H.
  { destruct String_as_OT.lt_strorder as [_ T]. exact (T a b c E1 E2). }
  unfold String_as_OT.lt in H. now rewrite H.
Qed.

Lemma string_ltb_irrefl a : String.ltb a a = false.
Proof.
  unfold String.ltb.
  destruct (String.compare a a) eqn:E; auto.
  pose proof (String.compare_antisym a a) as H. rewrite E in H. discriminate.
Qed.

Lemma string_ltb_total a b :
  String.ltb a b = false -> String.ltb b a = false -> a = b.
Proof.
  unfold String.ltb. rewrite (String.compare_antisym b a).
  destruct (String.compare a b) eqn:E; simpl; intros H1 H2;
    try discriminate H1; try discriminate H2.
  now apply String.compare_eq_iff.
Qed.

(** [tuple_lt] through the integer keys. *)
Lemma tuple_lt_spec a b :
  scored_ok a -> scored_ok b ->
  (tuple_lt a b = true <->
   lex_lt (fkey (fst a)) (fkey (fst b)) \/
   (fkey (fst a) = fkey (fst b) /\ String.ltb (snd a) (snd b) = true)).
Proof.
  intros Ha Hb. unfold tuple_lt.
  pose proof (eqb_fkey _ _ Ha Hb) as He. pose proof (ltb_fkey _ _ Ha Hb) as Hl.
  destruct (eqb (fst a) (fst b)) eqn:E.
  - assert (fkey (fst a) = fkey (fst b)) as K by now apply He.
    split; [now right|]. intros [H|[_ H]]; auto.
    rewrite K in H. destruct (fkey (fst b)) as [[b1 b2] b3]. simpl in H. lia.
  - rewrite Hl. split; [now left|]. intros [H|[K _]]; auto.
    apply He in K. congruence.
Qed.

Lemma tuple_lt_asym a b :
  scored_ok a -> scored_ok b -> tuple_lt a b = true -> tuple_lt b a = false.
Proof.
  intros Ha Hb H. apply (tuple_lt_spec a b Ha Hb) in H.
  destruct (tuple_lt b a) eqn:E; auto. apply (tuple_lt_spec b a Hb Ha) in E.
  destruct (fkey (fst a)) as [[a1 a2] a3], (fkey (fst b)) as [[b1 b2] b3].
  simpl in *. destruct H as [H|[K H]], E as [E|[K' E]]; try lia.
  - injection K' as -> -> ->. lia.
  - injection K as -> -> ->. lia.
  - pose proof (string_ltb_trans _ _ _ H E) as T.
    now rewrite string_ltb_irrefl in T.
Qed.

Lemma tuple_lt_trans a b c :
  scored_ok a -> scored_ok b -> scored_ok c ->
  tuple_lt a b = true -> tuple_lt b c = true -> tuple_lt a c = true.
Proof.
  intros Ha Hb Hc H1 H2.
  apply (tuple_lt_spec a b Ha Hb) in H1. apply (tuple_lt_spec b c Hb Hc) in H2.
  apply (tuple_lt_spec a c Ha Hc).
  destruct (fkey (fst a)) as [[a1 a2] a3], (fkey (fst b)) as [[b1 b2] b3],
           (fkey (fst c)) as [[c1 c2] c3].
  simpl in *. destruct H1 as [H1|[K1 H1]], H2 as [H2|[K2 H2]].
  - left. lia.
  - injection K2 as <- <- <-. now left.
  - injection K1 as -> -> ->. now left.
  - right. split; [congruence|]. eapply string_ltb_trans; eassumption.
Qed.

(** Two scored words neither of which is below the other have equal
    priorities and the same word. *)
Lemma tuple_lt_total a b :
  scored_ok a -> scored_ok b ->
  tuple_lt a b = false -> tuple_lt b a = false ->
  eqb (fst a) (fst b) = true /\ snd a = snd b.
Proof.
  intros Ha Hb H1 H2.
  assert (~ (lex_lt (fkey (fst a)) (fkey (fst b)) \/
             (fkey (fst a) = fkey (fst b) /\ String.ltb (snd a) (snd b) = true)))
    as N1 by (rewrite <- (tuple_lt_spec a b Ha Hb); congruence).
  assert (~ (lex_lt (fkey (fst b)) (fkey (fst a)) \/
             (fkey (fst b) = fkey (fst a) /\ String.ltb (snd b) (snd a) = true)))
    as N2 by (rewrite <- (tuple_lt_spec b a Hb Ha); congruence).
  assert (fkey (fst a) = fkey (fst b)) as K.
  { destruct (fkey (fst a)) as [[a1 a2] a3], (fkey (fst b)) as [[b1 b2] b3].
    simpl in *.
    assert (a1 = b1 /\ a2 = b2 /\ a3 = b3) as (-> & -> & ->) by lia.
    reflexivity. }
  split; [now apply eqb_fkey|].
  apply string_ltb_total.
  - destruct (String.ltb (snd a) (snd b)) eqn:E; auto. exfalso. apply N1. auto.
  - destruct (String.ltb (snd b) (snd a)) eqn:E; auto. exfalso. apply N2. auto.
Qed.

Lemma tuple_le_trans a b c :
  scored_ok a -> scored_ok b -> scored_ok c ->
  tuple_lt b a = false -> tuple_lt c b = false -> tuple_lt c a = false.
Proof.
  intros Ha Hb Hc H1 H2.
  destruct (tuple_lt c a) eqn:E; auto.
  destruct (tuple_lt a b) eqn:E1.
  - pose proof (tuple_lt_trans _ _ _ Hc Ha Hb E E1). congruence.
  - destruct (tuple_lt_total a b Ha Hb E1 H1) as [Heq Hw].
    assert (tuple_lt c b = true); [|congruence].
    apply (tuple_lt_spec c b Hc Hb). apply (tuple_lt_spec c a Hc Ha) in E.
    apply (eqb_fkey _ _ Ha Hb) in Heq. rewrite <- Heq, <- Hw. exact E.
Qed.

(** ** Sorting *)

Section SortingFacts.
Context {A : Type}.
Variable lt : A -> A -> bool.
Variable good : A -> Prop.
Hypothesis lt_asym :
  forall a b, good a -> good b -> lt a b = true -> lt b a = false.
Hypothesis le_trans :
  forall a b c, good a -> good b -> good c ->
    lt b a = false -> lt c b = false -> lt c a = false.

Lemma insert_sorted_perm x l : Permutation (insert_sorted lt x l) (x :: l).
Proof.
  induction l as [|y l IH]; simpl; [reflexivity|].
  destruct (lt y x); [|reflexivity].
  rewrite IH. apply perm_swap.
Qed.

Lemma stable_sort_perm l : Permutation (stable_sort lt l) l.
Proof.
  induction l as [|x l IH]; simpl; [reflexivity|].
  rewrite insert_sorted_perm. now constructor.
Qed.

Lemma sort_reverse_perm l : Permutation (sort_reverse lt l) l.
Proof.
  unfold sort_reverse.
  rewrite <- Permutation_rev, stable_sort_perm. symmetry. apply Permutation_rev.
Qed.

Lemma insert_sorted_sorted x l :
  good x -> Forall good l -> StronglySorted (ascending lt) l ->
  StronglySorted (ascending lt) (insert_sorted lt x l).
Proof.
  intros Hx Hl Hs. induction Hs as [|y l Hs IH Hy]; simpl.
  - repeat constructor.
  - inversion Hl as [|? ? Gy Gl]; subst.
    destruct (lt y x) eqn:E.
    + constructor; [now apply IH|].
      eapply Permutation_Forall; [symmetry; apply insert_sorted_perm|].
      constructor; [|exact Hy]. unfold ascending. now apply lt_asym.
    + constructor; [now constructor|].
      constructor; [exact E|].
      rewrite Forall_forall in *. intros z Hz.
      unfold ascending in *. apply (le_trans x y z); auto.
Qed.

Lemma stable_sort_sorted l :
  Forall good l -> StronglySorted (ascending lt) (stable_sort lt l).
Proof.
  induction l as [|x l IH]; simpl; intros Hl; [constructor|].
  inversion Hl; subst. apply insert_sorted_sorted; auto.
  eapply Permutation_Forall; [symmetry; apply stable_sort_perm|assumption].
Qed.

Lemma StronglySorted_snoc (R : A -> A -> Prop) l x :
  StronglySorted R l -> Forall (fun y => R y x) l ->
  StronglySorted R (l ++ [x]).
Proof.
  induction 1 as [|y l Hs IH Hy]; simpl; intros Hx.
  - repeat constructor.
  - inversion Hx; subst. constructor; [now apply IH|].
    apply Forall_app. split; [assumption|]. now constructor.
Qed.

Lemma StronglySorted_rev (R : A -> A -> Prop) l :
  StronglySorted R l -> StronglySorted (fun a b => R b a) (rev l).
Proof.
  induction 1 as [|y l Hs IH Hy]; simpl; [constructor|].
  apply StronglySorted_snoc; [assumption|].
  apply Forall_rev. exact Hy.
Qed.

Lemma sort_reverse_sorted l :
  Forall good l -> StronglySorted (descending lt) (sort_reverse lt l).
Proof.
  intros Hl. unfold sort_reverse.
  apply (StronglySorted_rev (ascending lt)). apply stable_sort_sorted.
  now apply Forall_rev.
Qed.

(** A list has one descending arrangement when distinct elements are
    always comparable. *)
Lemma descending_unique l1 :
  forall l2,
    (forall a b, In a l1 -> In b l1 ->
                 lt a b = false -> lt b a = false -> a = b) ->
    StronglySorted (descending lt) l1 -> StronglySorted (descending lt) l2 ->
    Permutation l1 l2 -> l1 = l2.
Proof.
  induction l1 as [|a l1 IH]; intros l2 Hanti H1 H2 Hp.
  - apply Permutation_nil in Hp. now subst.
  - destruct l2 as [|b l2];
      [apply Permutation_sym, Permutation_nil in Hp; discriminate|].
    apply StronglySorted_inv in H1, H2.
    destruct H1 as [H1 Ha], H2 as [H2 Hb].
    rewrite Forall_forall in Ha, Hb.
    assert (In b (a :: l1)) as Hbin
      by (eapply Permutation_in; [symmetry; eassumption|now left]).
    assert (In a (b :: l2)) as Hain
      by (eapply Permutation_in; [eassumption|now left]).
    assert (a = b) as ->.
    { destruct Hbin as [->|Hbin]; [reflexivity|].
      destruct Hain as [->|Hain]; [reflexivity|].
      apply Hanti; [now left|now right| |].
      - now apply Ha.
      - now apply Hb. }
    f_equal. apply IH; auto.
    + intros x y Hx Hy. apply Hanti; now right.
    + eapply Permutation_cons_inv; eassumption.
Qed.
End SortingFacts.

(** ** [build_study_plan] *)

Lemma float_of_int_inv n f : float_of_int n = Return f -> f = of_Z n.
Proof.
  unfold float_of_int. destruct (of_Z n); intros H; now inversion H.
Qed.

Lemma int_mul_float_inv n x r :
  int_mul_float n x = Return r -> r = mul (of_Z n) x.
Proof.
  unfold int_mul_float. destruct (float_of_int n) eqn:E; simpl; [|discriminate].
  intros [= <-]. now rewrite (float_of_int_inv _ _ E).
Qed.

Lemma int_add_float_inv n x r :
  int_add_float n x = Return r -> r = add (of_Z n) x.
Proof.
  unfold int_add_float. destruct (float_of_int n) eqn:E; simpl; [|discriminate].
  intros [= <-]. now rewrite (float_of_int_inv _ _ E).
Qed.

Lemma int_sub_float_inv n x r :
  int_sub_float n x = Return r -> r = sub (of_Z n) x.
Proof.
  unfold int_sub_float. destruct (float_of_int n) eqn:E; simpl; [|discriminate].
  intros [= <-]. now rewrite (float_of_int_inv _ _ E).
Qed.

Lemma overdue_factor_inv today data o :
  overdue_factor today data = Return o ->
  o = add (of_Z 1)
        (mul (of_Z (Z.max 0 (today - get_default (next_review data) today)))
             lit_0_15).
Proof.
  unfold overdue_factor.
  destruct (int_mul_float _ lit_0_15) eqn:E; simpl; [|discriminate].
  intros H. apply int_add_float_inv in H. apply int_mul_float_inv in E.
  now subst.
Qed.

Lemma difficulty_factor_inv data d :
  difficulty_factor data = Return d ->
  is_zero (get_default (ease data) lit_2_5) = false /\
  d = SFdiv prec emax lit_3_5 (get_default (ease data) lit_2_5).
Proof.
  unfold difficulty_factor, truediv.
  destruct (is_zero _); [discriminate|]. intros [= <-]. auto.
Qed.

Lemma accuracy_factor_inv data a :
  accuracy_factor data = Return a ->
  exists accuracy,
    (if get_default (times_reviewed data) 0 >? 0
     then int_truediv (get_default (times_correct data) 0)
                      (get_default (times_reviewed data) 0) = Return accuracy
     else accuracy = of_Z 0) /\
    a = add (of_Z 1) (mul (sub (of_Z 1) accuracy) lit_1_5).
Proof.
  unfold accuracy_factor.
  destruct (get_default (times_reviewed data) 0 >? 0).
  - destruct (int_truediv _ _) as [accuracy|] eqn:E; simpl; [|discriminate].
    destruct (int_sub_float 1 accuracy) as [miss|] eqn:E1; simpl; [|discriminate].
    intros H. apply int_add_float_inv in H. apply int_sub_float_inv in E1.
    exists accuracy. subst. auto.
  - destruct (int_mul_float (1 - 0) lit_1_5) eqn:E; simpl; [|discriminate].
    intros H. apply int_add_float_inv in H. apply int_mul_float_inv in E.
    exists (of_Z 0). subst. auto.
Qed.

Lemma times_new_word_factor_inv x data r :
  times_new_word_factor x data = Return r ->
  r = mul x (if get_default (times_reviewed data) 0 =? 0
             then lit_1_8 else of_Z 1).
Proof.
  unfold times_new_word_factor.
  destruct (get_default (times_reviewed data) 0 =? 0).
  - now intros [= <-].
  - simpl. now intros [= <-].
Qed.

Lemma error_boost_inv data e :
  error_boost data = Return e ->
  e = add (of_Z 1)
        (mul (of_Z (recent_errors (last5 (get_default (history data) []))))
             lit_0_3).
Proof.
  unfold error_boost.
  destruct (int_mul_float _ lit_0_3) eqn:E; simpl; [|discriminate].
  intros H. apply int_add_float_inv in H. apply int_mul_float_inv in E.
  now subst.
Qed.

(** The score of an entry is the product of the five factors. *)
Lemma priority_product today data p :
  priority today data = Return p ->
  exists o d accuracy a n e,
    o = add (of_Z 1)
          (mul (of_Z (Z.max 0 (today - get_default (next_review data) today)))
               lit_0_15) /\
    d = SFdiv prec emax lit_3_5 (get_default (ease data) lit_2_5) /\
    (if get_default (times_reviewed data) 0 >? 0
     then int_truediv (get_default (times_correct data) 0)
                      (get_default (times_reviewed data) 0) = Return accuracy
     else accuracy = of_Z 0) /\
    a = add (of_Z 1) (mul (sub (of_Z 1) accuracy) lit_1_5) /\
    n = (if get_default (times_reviewed data) 0 =? 0
         then lit_1_8 else of_Z 1) /\
    e = add (of_Z 1)
          (mul (of_Z (recent_errors (last5 (get_default (history data) []))))
               lit_0_3) /\
    p = mul (mul (mul (mul o d) a) n) e.
Proof.
  unfold priority.
  destruct (overdue_factor today data) as [o|] eqn:Eo; simpl; [|discriminate].
  destruct (difficulty_factor data) as [d|] eqn:Ed; simpl; [|discriminate].
  destruct (accuracy_factor data) as [a|] eqn:Ea; simpl; [|discriminate].
  destruct (error_boost data) as [e|] eqn:Ee; simpl; [|discriminate].
  destruct (times_new_word_factor _ data) as [odan|] eqn:En; simpl;
    [|discriminate].
  intros [= <-].
  apply overdue_factor_inv in Eo. apply difficulty_factor_inv in Ed.
  destruct Ed as [_ Ed].
  apply accuracy_factor_inv in Ea. destruct Ea as (accuracy & Hacc & Ea).
  apply error_boost_inv in Ee. apply times_new_word_factor_inv in En.
  exists o, d, accuracy, a,
    (if get_default (times_reviewed data) 0 =? 0 then lit_1_8 else of_Z 1), e.
  subst odan. auto 10.
Qed.

Lemma score_words_spec today items :
  forall scored,
    score_words today items = Return scored <->
    Forall2 (scores today) items scored.
Proof.
  induction items as [|[word data] items IH]; intros scored; simpl.
  - split.
    + intros [= <-]. constructor.
    + intros H. now inversion H.
  - destruct (priority today data) as [p|x] eqn:Ep; simpl.
    + destruct (score_words today items) as [tl|x] eqn:Et; simpl.
      * split.
        -- intros [= <-]. constructor; [now split|]. now apply IH.
        -- intros H. inversion H as [|? [p' w'] ? ? [Hp Hw] Hrest]; subst.
           simpl in *. apply IH in Hrest. congruence.
      * split; [discriminate|].
        intros H. inversion H as [|? ? ? ? _ Hrest]; subst.
        apply IH in Hrest. discriminate.
    + split; [discriminate|].
      intros H. inversion H as [|? ? ? ? [Hp _] _]; subst. simpl in Hp.
      congruence.
Qed.

Lemma build_study_plan_pure today target w o w' :
  build_study_plan today target w = (o, w') -> w' = w.
Proof.
  unfold build_study_plan, bind, get_world, lift, ret.
  destruct (score_words today (vocab w)); now intros [= _ <-].
Qed.

Lemma StronglySorted_weaken {A : Type} (R R' : A -> A -> Prop) l :
  (forall a b, In a l -> In b l -> R a b -> R' a b) ->
  StronglySorted R l -> StronglySorted R' l.
Proof.
  intros Himp Hs. induction Hs as [|a l Hs IH Ha]; constructor.
  - apply IH. intros x y Hx Hy. apply Himp; now right.
  - rewrite Forall_forall in *. intros b Hb.
    apply Himp; [now left|now right|now apply Ha].
Qed.

Lemma eqb_leb x y : eqb x y = true -> leb y x = true.
Proof.
  unfold eqb, leb, SFeqb, SFleb. rewrite (SFcompare_antisym x y).
  destruct (SFcompare x y) as [[| |]|]; simpl; auto; discriminate.
Qed.

(** A scored word that is not below another has a priority at least as
    large. *)
Lemma tuple_lt_false_leb a b :
  scored_ok a -> scored_ok b -> tuple_lt a b = false ->
  leb (fst b) (fst a) = true.
Proof.
  unfold tuple_lt. intros Ha Hb.
  destruct (eqb (fst a) (fst b)) eqn:E.
  - intros _. now apply eqb_leb.
  - now apply not_ltb_leb.
Qed.

Lemma tuple_sort_reverse_sorted scored :
  Forall scored_ok scored ->
  StronglySorted (descending tuple_lt) (sort_reverse tuple_lt scored).
Proof.
  apply (sort_reverse_sorted tuple_lt scored_ok).
  - exact tuple_lt_asym.
  - exact tuple_le_trans.
Qed.

Lemma slice_to_nonneg {A : Type} (n : Z) (l : list A) :
  0 <= n -> slice_to n l = firstn (Z.to_nat n) l.
Proof.
  intros H. unfold slice_to. destruct (n <? 0) eqn:E; [lia|reflexivity].
Qed.

Lemma Forall2_length_eq {A B : Type} (R : A -> B -> Prop) l l' :
  Forall2 R l l' -> List.length l = List.length l'.
Proof. induction 1; simpl; congruence. Qed.

(** The last five items of a list: what is left after the longest prefix
    that leaves at most five items. *)
Lemma last5_split {A : Type} (l : list A) :
  exists older,
    l = older ++ last5 l /\
    List.length (last5 l) = Nat.min 5 (List.length l).
Proof.
  exists (firstn (List.length l - 5) l). unfold last5. split.
  - symmetry. apply firstn_skipn.
  - rewrite length_skipn. lia.
Qed.

(** A suffix of that length is the last five items. *)
Lemma last_five_unique {A : Type} (l older recent : list A) :
  l = older ++ recent ->
  List.length recent = Nat.min 5 (List.length l) ->
  recent = skipn (List.length l - 5) l.
Proof.
  intros -> Hlen. rewrite length_app in *.
  replace (List.length older + List.length recent - 5)%nat
    with (List.length older) by lia.
  now rewrite skipn_app, skipn_all, Nat.sub_diag.
Qed.

(** The reviews counted as errors are those whose ["correct"] key holds
    [False]; a review without the key is not one. *)
Lemma recent_errors_count recent :
  recent_errors recent
  = Z.of_nat
      (List.length
         (filter (fun h => match correct h with
                           | Some false => true
                           | _ => false
                           end) recent)).
Proof.
  unfold recent_errors. do 2 f_equal. apply filter_ext.
  intros h. now destruct (correct h) as [[|]|].
Qed.

(** C3: when every score is computed and is a number, [build_study_plan]
    returns, without changing anything, the words of the scored list sorted
    downwards by priority and cut to its first [target] items; each score is
    the product of the overdue, difficulty, accuracy, new-word and error
    factors, the error factor being [1 + 0.3 * k] where [k] is the number of
    reviews with [correct = False] among the last five of the history (all
    of them when there are fewer than five); for a non-negative [target] the
    plan has [min target n] words, [n] being the number of entries; no call
    changes the world, whatever its outcome. *)
Theorem build_study_plan_ranks today target w scored :
  score_words today (vocab w) = Return scored ->
  Forall scored_ok scored ->
  let sorted := sort_reverse tuple_lt scored in
  let plan := map snd (slice_to target sorted) in
  build_study_plan today target w = (Return plan, w) /\
  Forall2 (scores today) (vocab w) scored /\
  (forall item p,
     In item (vocab w) -> priority today (snd item) = Return p ->
     let data := snd item in
     let reviewed := get_default (times_reviewed data) 0 in
     let reviews := match history data with Some h => h | None => [] end in
     exists o d accuracy a n older recent e,
       o = add (of_Z 1)
             (mul (of_Z (Z.max 0 (today - get_default (next_review data) today)))
                  lit_0_15) /\
       d = SFdiv prec emax lit_3_5 (get_default (ease data) lit_2_5) /\
       (if reviewed >? 0
        then int_truediv (get_default (times_correct data) 0) reviewed
             = Return accuracy
        else accuracy = of_Z 0) /\
       a = add (of_Z 1) (mul (sub (of_Z 1) accuracy) lit_1_5) /\
       n = (if reviewed =? 0 then lit_1_8 else of_Z 1) /\
       reviews = older ++ recent /\
       List.length recent = Nat.min 5 (List.length reviews) /\
       e = add (of_Z 1)
             (mul (of_Z (Z.of_nat
                           (List.length
                              (filter (fun h => match correct h with
                                                | Some false => true
                                                | _ => false
                                                end) recent))))
                  lit_0_3) /\
       p = mul (mul (mul (mul o d) a) n) e) /\
  Permutation sorted scored /\
  StronglySorted (fun a b => leb (fst b) (fst a) = true) sorted /\
  (0 <= target ->
   slice_to target sorted = firstn (Z.to_nat target) sorted /\
   Z.of_nat (List.length plan)
     = Z.min target (Z.of_nat (List.length (vocab w))) /\
   Z.of_nat (List.length plan)
     <= Z.min target (Z.of_nat (List.length (vocab w)))) /\
  (forall t o w', build_study_plan today t w = (o, w') -> w' = w).
Proof.
  intros Hscore Hok sorted plan.
  assert (Permutation sorted scored) as Hperm by apply sort_reverse_perm.
  assert (Forall scored_ok sorted) as Hoks
    by (eapply Permutation_Forall; [symmetry; exact Hperm|exact Hok]).
  split.
  { unfold build_study_plan, bind, get_world, lift. now rewrite Hscore. }
  split; [now apply score_words_spec|].
  split.
  { intros item p _ Hp data reviewed reviews.
    destruct (priority_product _ _ _ Hp)
      as (o & d & accuracy & a & n & e & Ho & Hd & Hacc & Ha & Hn & He & Hprod).
    destruct (last5_split reviews) as (older & Hsplit & Hlen).
    exists o, d, accuracy, a, n, older, (last5 reviews), e.
    rewrite <- recent_errors_count.
    split; [exact Ho|]. split; [exact Hd|]. split; [exact Hacc|].
    split; [exact Ha|]. split; [exact Hn|]. split; [exact Hsplit|].
    split; [exact Hlen|]. split; [exact He|exact Hprod]. }
  split; [exact Hperm|]. split.
  { apply (StronglySorted_weaken (descending tuple_lt)).
    - rewrite Forall_forall in Hoks. intros a b Ha Hb.
      apply tuple_lt_false_leb; auto.
    - now apply tuple_sort_reverse_sorted. }
  split; [|intros t o w'; apply build_study_plan_pure].
  intros Ht.
  assert (Z.of_nat (List.length plan)
          = Z.min target (Z.of_nat (List.length (vocab w)))) as Hlen.
  { unfold plan. rewrite length_map, slice_to_nonneg, length_firstn by exact Ht.
    rewrite (Permutation_length Hperm).
    apply score_words_spec in Hscore.
    rewrite <- (Forall2_length_eq _ _ _ Hscore). lia. }
  split; [now apply slice_to_nonneg|]. split; [exact Hlen|lia].
Qed.

Lemma NoDup_map_In_eq {A B : Type} (f : A -> B) l a b :
  NoDup (map f l) -> In a l -> In b l -> f a = f b -> a = b.
Proof.
  induction l as [|x l IH]; simpl; intros Hnd Ha Hb Hf; [contradiction|].
  inversion Hnd as [|? ? Hx Hnd']; subst.
  destruct Ha as [->|Ha], Hb as [->|Hb]; auto.
  - exfalso. apply Hx. rewrite Hf. now apply in_map.
  - exfalso. apply Hx. rewrite <- Hf. now apply in_map.
Qed.

Lemma scored_words_keys today items scored :
  Forall2 (scores today) items scored -> map snd scored = keys items.
Proof.
  unfold keys. induction 1 as [|it sc items scored [_ Hw] _ IH]; simpl;
    congruence.
Qed.

Lemma scores_perm today items items' :
  Permutation items items' ->
  forall scored,
    Forall2 (scores today) items scored ->
    exists scored',
      Forall2 (scores today) items' scored' /\ Permutation scored scored'.
Proof.
  induction 1 as [|x l l' Hp IH|x y l|l l' l'' Hp1 IH1 Hp2 IH2]; intros scored Hs.
  - inversion Hs; subst. exists []. split; constructor.
  - inversion Hs as [|? sc ? tl Hx Hrest]; subst.
    destruct (IH _ Hrest) as (tl' & Hf & Hperm).
    exists (sc :: tl'). split; now constructor.
  - inversion Hs as [|? sy ? tl Hy Hrest]; subst.
    inversion Hrest as [|? sx ? tl' Hx Hrest']; subst.
    exists (sx :: sy :: tl').
    split; [repeat (constructor; try assumption)|apply perm_swap].
  - destruct (IH1 _ Hs) as (s1 & Hf1 & Hq1).
    destruct (IH2 _ Hf1) as (s2 & Hf2 & Hq2).
    exists s2. split; [assumption|]. now transitivity s1.
Qed.

Lemma StronglySorted_distinct {A B : Type} (f : A -> B) (R : A -> A -> Prop) l :
  NoDup (map f l) -> StronglySorted R l ->
  StronglySorted (fun a b => R a b /\ f a <> f b) l.
Proof.
  intros Hnd Hs. induction Hs as [|a l Hs IH Ha]; [constructor|].
  simpl in Hnd. inversion Hnd as [|? ? Hnotin Hnd']; subst.
  constructor; [now apply IH|].
  rewrite Forall_forall in *. intros b Hb. split; [now apply Ha|].
  intros Heq. apply Hnotin. rewrite Heq. now apply in_map.
Qed.

(** C10: with distinct keys and scores that are numbers, two scored words
    of equal priority appear in the sorted list with the greater word first,
    and the plan is the same for every dictionary holding the same items in
    any order. *)
Theorem build_study_plan_tie_break today target w scored :
  score_words today (vocab w) = Return scored ->
  Forall scored_ok scored ->
  NoDup (keys (vocab w)) ->
  let sorted := sort_reverse tuple_lt scored in
  build_study_plan today target w =
    (Return (map snd (slice_to target sorted)), w) /\
  StronglySorted
    (fun a b => eqb (fst a) (fst b) = true ->
                String.ltb (snd b) (snd a) = true) sorted /\
  (forall w2,
     Permutation (vocab w) (vocab w2) ->
     build_study_plan today target w2 =
       (Return (map snd (slice_to target sorted)), w2)).
Proof.
  intros Hscore Hok Hnd sorted.
  assert (Permutation sorted scored) as Hperm by apply sort_reverse_perm.
  assert (Forall scored_ok sorted) as Hoks
    by (eapply Permutation_Forall; [symmetry; exact Hperm|exact Hok]).
  assert (StronglySorted (descending tuple_lt) sorted) as Hsorted
    by now apply tuple_sort_reverse_sorted.
  assert (Forall2 (scores today) (vocab w) scored) as Hf
    by now apply score_words_spec.
  assert (NoDup (map snd sorted)) as Hnds.
  { eapply Permutation_NoDup;
      [apply Permutation_map; symmetry; exact Hperm|].
    now rewrite (scored_words_keys _ _ _ Hf). }
  split.
  { unfold build_study_plan, bind, get_world, lift. now rewrite Hscore. }
  split.
  { apply (StronglySorted_weaken
             (fun a b => descending tuple_lt a b /\ snd a <> snd b)).
    - intros a b _ _ [Hd Hne] Heq. unfold descending, tuple_lt in Hd.
      rewrite Heq in Hd.
      destruct (String.ltb (snd b) (snd a)) eqn:E; auto.
      exfalso. apply Hne. now apply string_ltb_total.
    - now apply StronglySorted_distinct. }
  intros w2 Hp.
  destruct (scores_perm today _ _ Hp _ Hf) as (scored2 & Hf2 & Hp2).
  unfold build_study_plan, bind, get_world, lift.
  apply score_words_spec in Hf2. rewrite Hf2. unfold ret.
  assert (sorted = sort_reverse tuple_lt scored2) as <-; [|reflexivity].
  apply (descending_unique tuple_lt).
  - rewrite Forall_forall in Hoks. intros a b Ha Hb H1 H2.
    destruct (tuple_lt_total a b (Hoks _ Ha) (Hoks _ Hb) H1 H2) as [_ Hw].
    now apply (NoDup_map_In_eq snd sorted).
  - exact Hsorted.
  - apply tuple_sort_reverse_sorted.
    eapply Permutation_Forall; [exact Hp2|exact Hok].
  - fold sorted. rewrite Hperm, Hp2. symmetry. apply sort_reverse_perm.
Qed.

(** ** Rounding to binary64 *)

Lemma pow2_step (d : Z) : 0 < d -> 2 ^ d = 2 * 2 ^ (d - 1).
Proof.
  intros H. rewrite <- Z.pow_succ_r by lia. f_equal. lia.
Qed.

Lemma digits2_bounds (m : positive) :
  2 ^ (Zpos (digits2_pos m) - 1) <= Zpos m < 2 ^ Zpos (digits2_pos m).
Proof.
  induction m as [m IH|m IH|]; simpl digits2_pos; [| |simpl; lia];
    rewrite Pos2Z.inj_succ;
    replace (Z.succ (Zpos (digits2_pos m)) - 1) with (Zpos (digits2_pos m))
      by lia;
    rewrite Z.pow_succ_r by lia;
    pose proof (pow2_step (Zpos (digits2_pos m)) ltac:(lia)) as E;
    [change (Zpos m~1) with (2 * Zpos m + 1)
    |change (Zpos m~0) with (2 * Zpos m)];
    revert IH E;
    generalize (2 ^ Zpos (digits2_pos m)), (2 ^ (Zpos (digits2_pos m) - 1));
    intros; lia.
Qed.

Lemma Zdigits2_bounds (z : Z) :
  0 < z -> 2 ^ (Zdigits2 z - 1) <= z < 2 ^ Zdigits2 z.
Proof.
  destruct z as [|p|p]; try lia. intros _. apply digits2_bounds.
Qed.

Lemma Zdigits2_nonneg (z : Z) : 0 <= Zdigits2 z.
Proof. destruct z; simpl; lia. Qed.

Lemma Zdigits2_le (z n : Z) : 0 <= n -> 0 <= z < 2 ^ n -> Zdigits2 z <= n.
Proof.
  intros Hn [Hz Hlt]. destruct (Z.eq_dec z 0) as [->|Hne]; [simpl; lia|].
  destruct (Zdigits2_bounds z ltac:(lia)) as [Hlo _].
  destruct (Z.le_gt_cases (Zdigits2 z) n) as [|Hgt]; [assumption|].
  assert (2 ^ n <= 2 ^ (Zdigits2 z - 1)) by (apply Z.pow_le_mono_r; lia).
  lia.
Qed.

Lemma shr_1_m (mrs : shr_record) :
  0 <= shr_m mrs -> shr_m (shr_1 mrs) = shr_m mrs / 2.
Proof.
  destruct mrs as [m r s]. simpl. intros Hm.
  rewrite <- Z.div2_div.
  destruct m as [|[p|p|]|[p|p|]]; simpl; try reflexivity; lia.
Qed.

Lemma shr_1_nonneg (mrs : shr_record) : 0 <= shr_m mrs -> 0 <= shr_m (shr_1 mrs).
Proof.
  intros H. rewrite shr_1_m by assumption. apply Z.div_pos; lia.
Qed.

Lemma iter_shr_1_m (p : positive) :
  forall mrs,
    0 <= shr_m mrs ->
    shr_m (iter_pos shr_1 p mrs) = shr_m mrs / 2 ^ Zpos p.
Proof.
  induction p as [p IH|p IH|]; intros mrs Hm; simpl iter_pos.
  - assert (0 <= shr_m (shr_1 mrs)) as H1 by now apply shr_1_nonneg.
    assert (0 <= shr_m (iter_pos shr_1 p (shr_1 mrs))) as H2.
    { rewrite IH by assumption. apply Z.div_pos; lia. }
    rewrite IH, IH, shr_1_m by assumption.
    rewrite !Z.div_div by lia.
    f_equal. rewrite (Pos2Z.inj_xI p).
    replace (2 * Zpos p + 1) with (1 + Zpos p + Zpos p) by lia.
    rewrite !Z.pow_add_r by lia. change (2 ^ 1) with 2. lia.
  - assert (0 <= shr_m (iter_pos shr_1 p mrs)) as H2.
    { rewrite IH by assumption. apply Z.div_pos; lia. }
    rewrite IH, IH by assumption.
    rewrite Z.div_div by lia.
    f_equal. rewrite (Pos2Z.inj_xO p).
    replace (2 * Zpos p) with (Zpos p + Zpos p) by lia.
    now rewrite Z.pow_add_r by lia.
  - rewrite shr_1_m by assumption. reflexivity.
Qed.

(** A right shift by [n] places keeps the quotient by [2^n]. *)
Lemma shr_spec (mrs : shr_record) (e n : Z) :
  0 <= shr_m mrs ->
  shr_m (fst (shr mrs e n)) = shr_m mrs / 2 ^ Z.max 0 n /\
  snd (shr mrs e n) = e + Z.max 0 n.
Proof.
  intros Hm. destruct n as [|p|p]; simpl.
  - rewrite Z.div_1_r. split; [reflexivity|lia].
  - split; [now apply iter_shr_1_m|reflexivity].
  - rewrite Z.div_1_r. split; [reflexivity|lia].
Qed.

Lemma shr_m_of_loc (m : Z) (l : location) : shr_m (shr_record_of_loc m l) = m.
Proof. destruct l as [|[| |]]; reflexivity. Qed.

Lemma round_nearest_even_bounds (m : Z) (l : location) :
  m <= round_nearest_even m l <= m + 1.
Proof.
  destruct l as [|[| |]]; simpl; try lia. destruct (Z.even m); lia.
Qed.

(** The two shifts of a rounding, as quotients. *)
Lemma binary_round_aux_spec (s : bool) (m : positive) (e : Z) :
  let K1 := Z.max 0 (fexp prec emax (Zpos (digits2_pos m) + e) - e) in
  let m1 := Zpos m / 2 ^ K1 in
  let e1 := e + K1 in
  exists m2,
    m1 <= m2 <= m1 + 1 /\
    let K2 := Z.max 0 (fexp prec emax (Zdigits2 m2 + e1) - e1) in
    binary_round_aux prec emax s (Zpos m) e loc_Exact =
    match m2 / 2 ^ K2 with
    | Z0 => S754_zero s
    | Zpos m3 =>
      if e1 + K2 <=? emax - prec then S754_finite s m3 (e1 + K2)
      else S754_infinity s
    | Zneg _ => S754_nan
    end.
Proof.
  intros K1 m1 e1. unfold binary_round_aux, shr_fexp.
  change (Zdigits2 (Zpos m)) with (Zpos (digits2_pos m)).
  destruct (shr_spec (shr_record_of_loc (Zpos m) loc_Exact) e
              (fexp prec emax (Zpos (digits2_pos m) + e) - e)) as [Hm1 He1];
    [rewrite shr_m_of_loc; lia|].
  destruct (shr (shr_record_of_loc (Zpos m) loc_Exact) e
              (fexp prec emax (Zpos (digits2_pos m) + e) - e))
    as [mrs' e'].
  cbn [fst snd] in Hm1, He1. rewrite shr_m_of_loc in Hm1.
  fold K1 in Hm1, He1. fold m1 in Hm1. fold e1 in He1. subst e'.
  set (m2 := round_nearest_even (shr_m mrs') (loc_of_shr_record mrs')).
  assert (m1 <= m2 <= m1 + 1) as Hm2.
  { unfold m2. rewrite <- Hm1. apply round_nearest_even_bounds. }
  assert (0 <= m1) as Hm1pos by (apply Z.div_pos; lia).
  exists m2. split; [exact Hm2|]. cbv zeta.
  destruct (shr_spec (shr_record_of_loc m2 loc_Exact) e1
              (fexp prec emax (Zdigits2 m2 + e1) - e1)) as [Hm3 He3];
    [rewrite shr_m_of_loc; lia|].
  destruct (shr (shr_record_of_loc m2 loc_Exact) e1
              (fexp prec emax (Zdigits2 m2 + e1) - e1))
    as [mrs'' e''].
  cbn [fst snd] in Hm3, He3. rewrite shr_m_of_loc in Hm3.
  now rewrite Hm3, He3.
Qed.

Lemma fexp_unfold (x : Z) : fexp prec emax x = Z.max (x - 53) (-1074).
Proof. reflexivity. Qed.

Lemma pow2_pos (n : Z) : 0 <= n -> 0 < 2 ^ n.
Proof. intros H. apply Z.pow_pos_nonneg; lia. Qed.

Lemma pow2_split (a b : Z) : 0 <= a -> 0 <= b -> 2 ^ (a + b) = 2 ^ a * 2 ^ b.
Proof. intros Ha Hb. now apply Z.pow_add_r. Qed.

(** A rounded mantissa is full whenever the exponent is above the
    smallest one. *)
Lemma binary_round_aux_normalized (s : bool) (m : positive) (e : Z) :
  e <= fexp prec emax (Zpos (digits2_pos m) + e) ->
  normalized (binary_round_aux prec emax s (Zpos m) e loc_Exact).
Proof.
  intros Hk.
  destruct (binary_round_aux_spec s m e) as (m2 & Hm2 & Hres).
  cbv zeta in Hres. rewrite Hres. clear Hres.
  rewrite !fexp_unfold in *.
  set (d := Zpos (digits2_pos m)) in *.
  set (K1 := Z.max 0 (Z.max (d + e - 53) (-1074) - e)) in *.
  set (e1 := e + K1) in *.
  set (K2 := Z.max 0 (Z.max (Zdigits2 m2 + e1 - 53) (-1074) - e1)).
  assert (0 <= Zpos m / 2 ^ K1) as Hm1 by (apply Z.div_pos; [lia|apply pow2_pos; lia]).
  destruct (m2 / 2 ^ K2) as [|m3|m3] eqn:E3; [exact I| |exact I].
  destruct (e1 + K2 <=? emax - prec); [|exact I].
  unfold normalized. change (emin prec emax) with (-1074). intros Hemin.
  rewrite <- E3.
  destruct (Z.eq_dec K2 0) as [K0|Kpos].
  - (* no second shift: the first quotient is already full *)
    rewrite K0, Z.div_1_r.
    assert (K1 = d - 53) as EK by lia.
    assert (2 ^ 52 <= Zpos m / 2 ^ K1); [|lia].
    apply Z.div_le_lower_bound; [apply pow2_pos; lia|].
    destruct (digits2_bounds m) as [Hlo _]. fold d in Hlo.
    replace (d - 1) with (K1 + 52) in Hlo by lia.
    rewrite pow2_split in Hlo by lia. lia.
  - (* a second shift happens only on 54 digits or more *)
    assert (0 < m2) as Hpos.
    { destruct (Z.eq_dec m2 0) as [->|]; [|lia]. simpl in K2. lia. }
    assert (K2 = Zdigits2 m2 - 53) as EK by lia.
    apply Z.div_le_lower_bound; [apply pow2_pos; lia|].
    destruct (Zdigits2_bounds m2 Hpos) as [Hlo _].
    replace (Zdigits2 m2 - 1) with (K2 + 52) in Hlo by lia.
    rewrite pow2_split in Hlo by lia. lia.
Qed.

(** In the normal range a rounding loses less than one part in [2^51]. *)
Lemma binary_round_aux_lower (s : bool) (m : positive) (e : Z) :
  e <= fexp prec emax (Zpos (digits2_pos m) + e) ->
  -1074 <= Zpos (digits2_pos m) + e - 53 ->
  binary_round_aux prec emax s (Zpos m) e loc_Exact = S754_infinity s \/
  exists m3 e3,
    binary_round_aux prec emax s (Zpos m) e loc_Exact = S754_finite s m3 e3 /\
    e <= e3 /\
    (2 ^ 51 - 1) * Zpos m < 2 ^ 51 * (Zpos m3 * 2 ^ (e3 - e)).
Proof.
  intros Hk Hn.
  destruct (binary_round_aux_spec s m e) as (m2 & Hm2 & Hres).
  cbv zeta in Hres. rewrite Hres. clear Hres.
  rewrite !fexp_unfold in *.
  set (d := Zpos (digits2_pos m)) in *.
  set (K1 := Z.max 0 (Z.max (d + e - 53) (-1074) - e)) in *.
  assert (K1 = d - 53) as EK1 by lia.
  assert (0 <= K1) as HK1 by lia.
  set (e1 := e + K1) in *.
  set (K2 := Z.max 0 (Z.max (Zdigits2 m2 + e1 - 53) (-1074) - e1)).
  (* the first quotient has exactly 53 digits *)
  destruct (digits2_bounds m) as [Hlo Hhi]. fold d in Hlo, Hhi.
  replace (d - 1) with (K1 + 52) in Hlo by lia.
  replace d with (K1 + 53) in Hhi by lia.
  rewrite pow2_split in Hlo, Hhi by lia.
  pose proof (pow2_pos K1 HK1) as HP1.
  set (P1 := 2 ^ K1) in *.
  pose proof (Z.div_mod (Zpos m) P1 ltac:(lia)) as Hdm.
  pose proof (Z.mod_pos_bound (Zpos m) P1 HP1) as Hr1.
  set (m1 := Zpos m / P1) in *. set (r1 := Zpos m mod P1) in *.
  assert (2 ^ 52 <= m1 < 2 ^ 53) as Hm1 by nia.
  (* so the second shift is by at most one place *)
  assert (Zdigits2 m2 <= 54) as Hd2 by (apply Zdigits2_le; lia).
  assert (K2 = 0 \/ K2 = 1) as HK2 by lia.
  assert (2 ^ K2 * (m2 / 2 ^ K2) + m2 mod 2 ^ K2 = m2 /\
          0 <= m2 mod 2 ^ K2 < 2 ^ K2 /\ (2 ^ K2 = 1 \/ 2 ^ K2 = 2)) as Hdm2.
  { destruct HK2 as [->| ->]; change (2 ^ 0) with 1; change (2 ^ 1) with 2;
      (split; [symmetry; apply Z.div_mod; lia|]);
      (split; [apply Z.mod_pos_bound; lia|auto]). }
  destruct Hdm2 as (Hdm2 & Hr2 & HP2).
  destruct (m2 / 2 ^ K2) as [|m3|m3] eqn:E3; [lia| |lia].
  destruct (e1 + K2 <=? emax - prec); [right|now left].
  exists m3, (e1 + K2). split; [reflexivity|]. split; [lia|].
  replace (e1 + K2 - e) with (K1 + K2) by lia.
  rewrite pow2_split by lia. fold P1.
  assert (m1 * P1 <= m2 * P1) as Hmono by (apply Z.mul_le_mono_nonneg_r; lia).
  destruct HP2 as [HP2|HP2]; rewrite HP2 in *; nia.
Qed.

Lemma iter_xO_value (m n : positive) :
  Zpos (Pos.iter xO m n) = Zpos m * 2 ^ Zpos n.
Proof.
  induction n as [|n IH] using Pos.peano_ind.
  - simpl. lia.
  - rewrite Pos.iter_succ, Pos2Z.inj_succ, Z.pow_succ_r by lia.
    change (Zpos (Pos.iter xO m n)~0) with (2 * Zpos (Pos.iter xO m n)).
    rewrite IH. lia.
Qed.

Lemma iter_xO_digits (m n : positive) :
  Zpos (digits2_pos (Pos.iter xO m n)) = Zpos (digits2_pos m) + Zpos n.
Proof.
  induction n as [|n IH] using Pos.peano_ind.
  - simpl. lia.
  - rewrite Pos.iter_succ. simpl digits2_pos. lia.
Qed.

(** Aligning a mantissa to a smaller exponent keeps the value and adds the
    shifted places to the digit count. *)
Lemma shl_align_spec (mx : positive) (ex ex' : Z) :
  let mz := fst (shl_align mx ex ex') in
  let ez := snd (shl_align mx ex ex') in
  ez = Z.min ex ex' /\
  Zpos mz = Zpos mx * 2 ^ (ex - ez) /\
  Zpos (digits2_pos mz) = Zpos (digits2_pos mx) + (ex - ez).
Proof.
  unfold shl_align. destruct (ex' - ex) as [|d|d] eqn:E; cbn [fst snd].
  - replace (ex - ex) with 0 by lia. simpl (2 ^ 0). lia.
  - replace (ex - ex) with 0 by lia. simpl (2 ^ 0). lia.
  - replace (ex - ex') with (Zpos d) by lia.
    rewrite iter_xO_value, iter_xO_digits. lia.
Qed.

Lemma binary_round_normalized (s : bool) (m : positive) (e : Z) :
  normalized (binary_round prec emax s m e).
Proof.
  unfold binary_round.
  destruct (shl_align_spec m e (fexp prec emax (Zpos (digits2_pos m) + e)))
    as (Hez & _ & Hdz).
  destruct (shl_align m e (fexp prec emax (Zpos (digits2_pos m) + e)))
    as [mz ez].
  cbn [fst snd] in Hez, Hdz.
  apply binary_round_aux_normalized.
  rewrite Hdz.
  replace (Zpos (digits2_pos m) + (e - ez) + ez) with (Zpos (digits2_pos m) + e)
    by lia.
  lia.
Qed.

Lemma binary_normalize_normalized (m e : Z) (sz : bool) :
  normalized (binary_normalize prec emax m e sz).
Proof.
  destruct m; simpl; [exact I| |]; apply binary_round_normalized.
Qed.

Lemma add_normalized (x y : float) :
  normalized x -> normalized y -> normalized (add x y).
Proof.
  intros Hx Hy. unfold add.
  destruct x as [sx|sx| |sx mx ex], y as [sy|sy| |sy my ey];
    try exact I; try assumption;
    try (destruct sx, sy; simpl; (exact I || assumption)).
  cbn [SFadd]. apply binary_normalize_normalized.
Qed.

Lemma sub_normalized (x y : float) :
  normalized x -> normalized y -> normalized (sub x y).
Proof.
  intros Hx Hy. unfold sub.
  destruct x as [sx|sx| |sx mx ex], y as [sy|sy| |sy my ey];
    try exact I; try assumption;
    try (destruct sx, sy; simpl; (exact I || assumption)).
  cbn [SFsub]. apply binary_normalize_normalized.
Qed.

(** In the normal range [binary_round] loses less than one part in
    [2^51] of the value it is given. *)
Lemma binary_round_lower (s : bool) (m : positive) (e : Z) :
  -1074 <= Zpos (digits2_pos m) + e - 53 ->
  let ez := Z.min e (Zpos (digits2_pos m) + e - 53) in
  binary_round prec emax s m e = S754_infinity s \/
  exists m3 e3,
    binary_round prec emax s m e = S754_finite s m3 e3 /\
    ez <= e3 /\
    (2 ^ 51 - 1) * (Zpos m * 2 ^ (e - ez)) < 2 ^ 51 * (Zpos m3 * 2 ^ (e3 - ez)).
Proof.
  intros Hn ez. unfold binary_round.
  destruct (shl_align_spec m e (fexp prec emax (Zpos (digits2_pos m) + e)))
    as (Hez & Hmz & Hdz).
  destruct (shl_align m e (fexp prec emax (Zpos (digits2_pos m) + e)))
    as [mz ez'].
  cbn [fst snd] in Hez, Hmz, Hdz. rewrite fexp_unfold in Hez.
  assert (ez' = ez) as -> by (unfold ez; lia).
  rewrite <- Hmz.
  apply binary_round_aux_lower; rewrite ?fexp_unfold, Hdz; lia.
Qed.

(** [float(i)] for a positive int is within one part in [2^51] of [i]. *)
Lemma of_Z_lower (p : positive) :
  of_Z (Zpos p) = S754_infinity false \/
  exists mf ef,
    of_Z (Zpos p) = S754_finite false mf ef /\
    -52 <= ef /\
    (2 ^ 51 - 1) * (Zpos p * 2 ^ 52) < 2 ^ 51 * (Zpos mf * 2 ^ (ef + 52)).
Proof.
  unfold of_Z. cbn [binary_normalize].
  pose proof (Pos2Z.is_pos (digits2_pos p)) as Hd.
  destruct (binary_round_lower false p 0 ltac:(lia))
    as [Hinf|(mf & ef & Hfin & Hef & Hb)]; [now left|right].
  exists mf, ef. split; [exact Hfin|].
  set (ez := Z.min 0 (Zpos (digits2_pos p) + 0 - 53)) in *.
  assert (-52 <= ez <= 0) as Hez by lia.
  split; [lia|].
  pose proof (pow2_pos (ez + 52) ltac:(lia)) as HS.
  replace (2 ^ 52) with (2 ^ (0 - ez) * 2 ^ (ez + 52))
    by (rewrite <- pow2_split by lia; f_equal; lia).
  replace (2 ^ (ef + 52)) with (2 ^ (ef - ez) * 2 ^ (ez + 52))
    by (rewrite <- pow2_split by lia; f_equal; lia).
  rewrite !Z.mul_assoc.
  apply Z.mul_lt_mono_pos_r; [exact HS|]. lia.
Qed.

(** A product of a positive number and a full-mantissa number, both of
    exponent at least -52, is rounded down by less than one part in
    [2^51]. *)
Lemma mul_lower (mf me : positive) (ef ee : Z) :
  2 ^ 52 <= Zpos me -> -52 <= ef -> -52 <= ee ->
  mul (S754_finite false mf ef) (S754_finite false me ee) = S754_infinity false \/
  exists mp ep,
    mul (S754_finite false mf ef) (S754_finite false me ee)
      = S754_finite false mp ep /\
    -104 <= ep /\
    (2 ^ 51 - 1) * ((Zpos mf * 2 ^ (ef + 52)) * (Zpos me * 2 ^ (ee + 52)))
      < 2 ^ 51 * (Zpos mp * 2 ^ (ep + 104)).
Proof.
  intros Hme Hef Hee. unfold mul. cbn [SFmul xorb].
  assert (53 <= Zpos (digits2_pos (mf * me))) as Hd.
  { destruct (digits2_bounds (mf * me)) as [_ Hhi].
    destruct (Z.le_gt_cases 53 (Zpos (digits2_pos (mf * me)))) as [|Hlt];
      [assumption|].
    assert (2 ^ Zpos (digits2_pos (mf * me)) <= 2 ^ 52)
      by (apply Z.pow_le_mono_r; lia).
    rewrite Pos2Z.inj_mul in Hhi. nia. }
  destruct (binary_round_aux_lower false (mf * me) (ef + ee))
    as [Hinf|(mp & ep & Hfin & Hep & Hb)];
    [rewrite fexp_unfold; lia|lia|now left|right].
  exists mp, ep. split; [exact Hfin|]. split; [lia|].
  pose proof (pow2_pos (ef + ee + 104) ltac:(lia)) as HS.
  replace (2 ^ (ep + 104)) with (2 ^ (ep - (ef + ee)) * 2 ^ (ef + ee + 104))
    by (rewrite <- pow2_split by lia; f_equal; lia).
  replace (Zpos mf * 2 ^ (ef + 52) * (Zpos me * 2 ^ (ee + 52)))
    with (Zpos (mf * me) * 2 ^ (ef + ee + 104)).
  - rewrite !Z.mul_assoc. apply Z.mul_lt_mono_pos_r; [exact HS|]. lia.
  - replace (ef + ee + 104) with ((ef + 52) + (ee + 52)) by lia.
    rewrite pow2_split, Pos2Z.inj_mul by lia. ring.
Qed.

(** A magnitude above [i + 1/2] rounds to more than [i]. *)
Lemma round_half_even_above (m : positive) (e i scale : Z) :
  0 <= scale -> 0 <= e + scale ->
  (2 * i + 1) * 2 ^ scale < 2 * (Zpos m * 2 ^ (e + scale)) ->
  i < round_half_even m e.
Proof.
  intros Hs Hes Hgt. unfold round_half_even.
  destruct e as [|p|p].
  - simpl (2 ^ 0). rewrite Z.add_0_l in Hgt.
    pose proof (pow2_pos scale Hs). nia.
  - rewrite pow2_split in Hgt by lia.
    pose proof (pow2_pos scale Hs). pose proof (pow2_pos (Zpos p) ltac:(lia)).
    nia.
  - assert (2 ^ scale = 2 ^ (Zneg p + scale) * 2 ^ Zpos p) as E
      by (rewrite <- pow2_split by lia; f_equal; lia).
    rewrite E in Hgt.
    pose proof (pow2_pos (Zneg p + scale) Hes) as HS.
    pose proof (pow2_pos (Zpos p) ltac:(lia)) as HD.
    set (d := 2 ^ Zpos p) in *.
    assert ((2 * i + 1) * d < 2 * Zpos m) as Hgt' by nia.
    pose proof (Z.div_mod (Zpos m) d ltac:(lia)) as Hdm.
    pose proof (Z.mod_pos_bound (Zpos m) d HD) as Hr.
    cbv zeta.
    destruct (Z.compare_spec (2 * (Zpos m mod d)) d);
      [destruct (Z.even (Zpos m / d))| |]; nia.
Qed.

(** A full-mantissa number at or above the literal 1.3 is plus infinity
    or a positive number of value at least [5854679515581645 * 2^-52]. *)
Lemma leb_lit_1_3_value (x : float) :
  normalized x -> leb lit_1_3 x = true ->
  x = S754_infinity false \/
  exists me ee,
    x = S754_finite false me ee /\ -52 <= ee /\ 2 ^ 52 <= Zpos me /\
    5854679515581645 <= Zpos me * 2 ^ (ee + 52).
Proof.
  intros Hn Hle. unfold leb, SFleb, lit_1_3 in Hle.
  destruct x as [s|s| |s me ee]; cbn [SFcompare] in Hle; try discriminate.
  - destruct s; [discriminate|now left].
  - right. destruct s; [discriminate|].
    exists me, ee. split; [reflexivity|].
    destruct (Z.compare_spec (-52) ee) as [<-|Hlt|Hgt];
      [|clear Hle|discriminate].
    + assert (2 ^ 52 <= Zpos me) as Hfull
        by (apply Hn; change (emin prec emax) with (-1074); lia).
      split; [lia|]. split; [exact Hfull|].
      rewrite compare_cont_Eq in Hle.
      assert (5854679515581645 <= Zpos me) as Hm.
      { destruct (Pos.compare_spec 5854679515581645 me); try discriminate;
          subst; lia. }
      simpl (2 ^ (-52 + 52)). lia.
    + simpl in Hn. change (emin prec emax) with (-1074) in Hn.
      assert (2 ^ 52 <= Zpos me) as Hm by (apply Hn; lia).
      split; [lia|]. split; [exact Hm|].
      assert (2 ^ 1 <= 2 ^ (ee + 52)) by (apply Z.pow_le_mono_r; lia).
      change (2 ^ 1) with 2 in *. change (2 ^ 52) with 4503599627370496 in *.
      nia.
Qed.

Lemma valid_binary_normalized (x : float) :
  valid_binary prec emax x = true -> normalized x.
Proof.
  destruct x as [s|s| |s m e]; try (intros; exact I).
  unfold valid_binary, bounded, canonical_mantissa, normalized.
  rewrite andb_true_iff, Z.eqb_eq, fexp_unfold.
  change (emin prec emax) with (-1074). intros [Hc _] He.
  destruct (digits2_bounds m) as [Hlo _].
  replace (Zpos (digits2_pos m) - 1) with 52 in Hlo by lia. exact Hlo.
Qed.

Lemma sub_lit_normalized (y : float) : normalized (sub lit_0_1 y).
Proof.
  unfold sub, lit_0_1.
  destruct y as [sy|sy| |sy my ey]; cbn [SFsub]; try exact I.
  - unfold normalized. intros _. lia.
  - apply binary_normalize_normalized.
Qed.

Lemma py_max_normalized (x : float) : normalized x -> normalized (py_max lit_1_3 x).
Proof.
  intros Hx. unfold py_max. destruct (ltb lit_1_3 x); [exact Hx|].
  unfold normalized, lit_1_3. intros _. lia.
Qed.

Lemma new_ease_normalized e q e' :
  normalized e -> new_ease e q = Return e' -> normalized e'.
Proof.
  intros He. unfold new_ease.
  destruct (int_mul_float (5 - q) lit_0_02) as [a|]; cbn [obind];
    [|discriminate].
  destruct (int_mul_float (5 - q) (add lit_0_08 a)) as [b|]; cbn [obind];
    [|discriminate].
  intros [= <-]. apply py_max_normalized, add_normalized; [exact He|].
  apply sub_lit_normalized.
Qed.

(** The interval step of a pass: from an interval of at least 2 and an
    ease of at least 1.3, the rounded product is above the interval. *)
Lemma pass_interval_grows (i : Z) (e' : float) (i' : Z) :
  2 <= i -> normalized e' -> leb lit_1_3 e' = true ->
  obind (int_mul_float i e') py_round = Return i' ->
  i < i'.
Proof.
  intros Hi Hn Hle. destruct i as [|p|p]; try lia.
  unfold int_mul_float, float_of_int.
  destruct (of_Z_lower p) as [Hinf|(mf & ef & Hf & Hef & Hb)].
  { rewrite Hinf. discriminate. }
  rewrite Hf. cbn [obind].
  destruct (leb_lit_1_3_value e' Hn Hle)
    as [->|(me & ee & -> & Hee & Hfull & Hv)].
  { cbn. discriminate. }
  destruct (mul_lower mf me ef ee Hfull Hef Hee)
    as [Hinf|(mp & ep & Hp & Hep & Hbp)].
  { rewrite Hinf. cbn. discriminate. }
  rewrite Hp. cbn [py_round cond_Zopp]. intros [= <-].
  apply (round_half_even_above mp ep (Zpos p) 104); [lia|lia|].
  pose proof (pow2_pos (ef + 52) ltac:(lia)) as HA.
  set (A := Zpos mf * 2 ^ (ef + 52)) in *.
  set (B := Zpos me * 2 ^ (ee + 52)) in *.
  set (C := Zpos mp * 2 ^ (ep + 104)) in *.
  assert (0 <= A) as HA0 by (unfold A; nia).
  assert (A * 5854679515581645 <= A * B) as HAB
    by (apply Z.mul_le_mono_nonneg_l; assumption).
  change (2 ^ 51) with 2251799813685248 in *.
  change (2 ^ 52) with 4503599627370496 in *.
  change (2 ^ 104) with 20282409603651670423947251286016.
  lia.
Qed.

(** With rating 4 the ease does not go down. *)
Lemma new_ease_easy (e e' : float) :
  is_nan e = false -> new_ease e 4 = Return e' -> leb e e' = true.
Proof.
  intros Hnan. rewrite new_ease_formula by reflexivity.
  change (sub lit_0_1
            (mul (of_Z (5 - 4)) (add lit_0_08 (mul (of_Z (5 - 4)) lit_0_02))))
    with (S754_zero false).
  intros [= <-]. unfold py_max.
  assert (add e (S754_zero false) = e \/
          (exists s, e = S754_zero s) /\ add e (S754_zero false) = S754_zero false)
    as [->|[[s ->] ->]].
  { destruct e as [s|s| |s m x]; try (now left); try discriminate.
    destruct s; [right|left]; eauto. }
  - destruct (ltb lit_1_3 e) eqn:E; [now apply leb_refl|].
    now apply not_ltb_leb.
  - destruct s; reflexivity.
Qed.

(** C6: after a completed call with a rating of 3 or more the stored ease
    is at least 1.3; with rating 4 it is not below the ease before the call
    (for an ease that is a number), and from an interval above 1 the new
    interval is strictly larger (for an ease that is a binary64 value). *)
Theorem schedule_pass_grows today word q w data w' :
  dict_get word (vocab w) = Some data ->
  3 <= q ->
  schedule_next_review today word q w = (Return tt, w') ->
  let e := get_default (ease data) lit_2_5 in
  let i := get_default (interval data) 1 in
  exists data' e' i',
    dict_get word (vocab w') = Some data' /\
    ease data' = Some e' /\
    interval data' = Some i' /\
    leb lit_1_3 e' = true /\
    (q = 4 -> is_nan e = false -> leb e e' = true) /\
    (1 < i -> valid_binary prec emax e = true -> i < i').
Proof.
  intros Hget Hq Hrun e i.
  destruct (schedule_next_review_inv _ _ _ _ _ _ Hget Hrun)
    as (e' & i' & nd & He & Hi & _ & ->).
  fold e in He. fold i in Hi.
  exists (reschedule data e' i' nd q), e', i'.
  split; [apply dict_get_set_same|]. do 2 (split; [reflexivity|]).
  assert (leb lit_1_3 e' = true) as Hle by (eapply new_ease_lower_bound; eassumption).
  split; [exact Hle|]. split.
  - intros -> Hnan. now apply new_ease_easy.
  - intros Hi1 Hvalid. unfold new_interval in Hi.
    destruct (q <? 3) eqn:E; [lia|]. destruct (i =? 1) eqn:E1; [lia|].
    apply (pass_interval_grows i e' i'); auto; [lia|].
    apply (new_ease_normalized e q); [|exact He].
    now apply valid_binary_normalized.
Qed.

(** ** Concrete runs *)

Lemma schedule_updates_ease_witness :
  dict_get "apple" (vocab world0) = Some apple /\
  1 <= 4 <= 4 /\
  exists w',
    schedule_next_review today0 "apple" 4 world0 = (Return tt, w') /\
    exists data',
      dict_get "apple" (vocab w') = Some data' /\ ease data' = Some lit_2_5.
Proof.
  split; [reflexivity|]. split; [lia|].
  assert (1 <= 4 <= 4) as Hq by lia.
  pose proof (schedule_updates_ease today0 "apple" 4 world0 apple eq_refl Hq)
    as H.
  cbv zeta in H. destruct H as (_ & _ & Hrun).
  eexists. split; [vm_compute; reflexivity|].
  destruct (Hrun _ ltac:(vm_compute; reflexivity)) as (data' & Hget & He).
  exists data'. split; [exact Hget|]. rewrite He. vm_compute. reflexivity.
Defined.

Lemma schedule_updates_interval_box_date_witness :
  exists w' data',
    schedule_next_review today0 "apple" 4 world0 = (Return tt, w') /\
    dict_get "apple" (vocab w') = Some data' /\
    interval data' = Some 12 /\ box data' = Some 3 /\
    next_review data' = Some (today0 + 12).
Proof.
  destruct (schedule_next_review today0 "apple" 4 world0) as [o w'] eqn:Hrun.
  assert (o = Return tt) as -> by (vm_compute in Hrun; congruence).
  destruct (schedule_updates_interval_box_date today0 "apple" 4 world0 apple w'
              eq_refl Hrun)
    as (data' & e' & i' & Hget & He & Hi & Hn & _ & Hpass & Hbox).
  exists w', data'. split; [reflexivity|]. split; [exact Hget|].
  assert (i' = 12) as ->.
  { vm_compute in Hrun. injection Hrun as <-. vm_compute in Hget.
    injection Hget as <-. vm_compute in Hi. congruence. }
  split; [exact Hi|]. split; [|exact Hn].
  rewrite Hbox; [reflexivity|]. vm_compute. split; discriminate.
Defined.

Lemma schedule_silent_on_bad_input_witness :
  dict_get "ghost" (vocab world0) = None /\
  schedule_next_review today0 "ghost" 9 world0 = (Return tt, world0).
Proof.
  split; [reflexivity|].
  apply (proj1 (schedule_silent_on_bad_input today0 "ghost" 9 world0)).
  reflexivity.
Defined.

Lemma edit_word_frame_witness :
  dict_get "pear" (vocab world0) = Some pear /\
  exists data',
    edit_word str_strip "pear" "  Pears are sweet " "" world0 =
      (Return true, committed "pear" data' world0) /\
    sentence data' = Some "Pears are sweet" /\ box data' = box pear /\
    ease data' = ease pear /\ interval data' = interval pear.
Proof.
  split; [reflexivity|].
  destruct (edit_word_frame str_strip "pear" "  Pears are sweet " "" world0 pear
              eq_refl)
    as (data' & Hrun & Hs & _ & (Hb & He & Hi & _) & _).
  exists data'. repeat split; assumption.
Defined.

Lemma update_streak_state_machine_witness :
  last_study_date (progress world0) = Some (today0 - 1) /\
  current_streak (progress world0) = Some 2 /\
  update_streak today0 world0 = (Return tt, streak_saved 3 today0 world0).
Proof.
  split; [reflexivity|]. split; [reflexivity|].
  apply (proj1 (proj2 (update_streak_state_machine today0 world0))
           (today0 - 1) 2 eq_refl eq_refl eq_refl).
  vm_compute. split; discriminate.
Defined.

Lemma check_achievements_reports_new_witness :
  exists w',
    check_achievements world0 =
      (Return ["Earned 500 XP"; "100 reviews completed"], w') /\
    achievements (progress w') = ["XP_100"; "XP_500"; "Reviews_100"].
Proof.
  destruct (check_achievements_reports_new world0)
    as (_ & _ & _ & w' & Hrun & Hach & _).
  exists w'. split; [exact Hrun|exact Hach].
Defined.

Lemma build_study_plan_ranks_witness :
  exists scored,
    score_words today0 (vocab world_history) = Return scored /\
    Forall scored_ok scored /\
    build_study_plan today0 2 world_history
      = (Return ["pear"; "grape"], world_history) /\
    exists p o d a n,
      priority today0 grape = Return p /\
      p = mul (mul (mul (mul o d) a) n)
              (add (of_Z 1) (mul (of_Z 3) lit_0_3)).
Proof.
  destruct (score_words today0 (vocab world_history)) as [scored|x] eqn:Hs;
    [|vm_compute in Hs; discriminate].
  assert (Forall scored_ok scored) as Hok.
  { vm_compute in Hs. injection Hs as <-. repeat constructor. }
  exists scored. split; [reflexivity|]. split; [exact Hok|].
  destruct (build_study_plan_ranks today0 2 world_history scored Hs Hok)
    as (Hrun & _ & Hprod & _).
  split.
  { rewrite Hrun. vm_compute in Hs. injection Hs as <-. reflexivity. }
  destruct (priority today0 grape) as [p|x] eqn:Hp;
    [|vm_compute in Hp; discriminate].
  assert (In ("grape", grape) (vocab world_history)) as Hin
    by (right; left; reflexivity).
  pose proof (Hprod ("grape", grape) p Hin Hp) as H. cbv zeta in H.
  destruct H
    as (o & d & accuracy & a & n & older & recent & e
        & _ & _ & _ & _ & _ & Hsplit & Hlen & He & Hpe).
  apply (last_five_unique _ _ _ Hsplit) in Hlen. subst recent.
  exists p, o, d, a, n. split; [reflexivity|]. rewrite Hpe, He. reflexivity.
Defined.

Lemma build_study_plan_tie_break_witness :
  exists p q,
    score_words today0 (vocab world_tie)
      = Return [(p, "alp"); (q, "pear"); (p, "beta")] /\
    is_nan p = false /\ is_nan q = false /\ ltb p q = true /\
    NoDup (keys (vocab world_tie)) /\
    build_study_plan today0 3 world_tie
      = (Return ["pear"; "beta"; "alp"], world_tie) /\
    build_study_plan today0 3
      (mkWorld [("beta", apple); ("alp", apple); ("pear", pear)]
               progress0 stats0 None None None) =
    (Return ["pear"; "beta"; "alp"],
     mkWorld [("beta", apple); ("alp", apple); ("pear", pear)]
             progress0 stats0 None None None).
Proof.
  destruct (score_words today0 (vocab world_tie)) as [scored|x] eqn:Hs;
    [|vm_compute in Hs; discriminate].
  assert (Forall scored_ok scored) as Hok.
  { vm_compute in Hs. injection Hs as <-. repeat constructor. }
  assert (NoDup (keys (vocab world_tie))) as Hnd.
  { simpl. repeat (constructor; [simpl; intuition discriminate|]). constructor. }
  destruct (build_study_plan_tie_break today0 3 world_tie scored Hs Hok Hnd)
    as (Hrun & _ & Hperm).
  vm_compute in Hs. injection Hs as <-.
  do 2 eexists. split; [reflexivity|].
  split; [reflexivity|]. split; [reflexivity|]. split; [reflexivity|].
  split; [exact Hnd|]. split.
  - rewrite Hrun. reflexivity.
  - rewrite Hperm; [reflexivity|].
    apply Permutation_sym.
    apply perm_trans with [("alp", apple); ("beta", apple); ("pear", pear)].
    + apply perm_swap.
    + apply perm_skip. apply perm_swap.
Defined.

Lemma schedule_pass_grows_witness :
  dict_get "apple" (vocab world0) = Some apple /\
  3 <= 4 /\
  exists w' data',
    schedule_next_review today0 "apple" 4 world0 = (Return tt, w') /\
    dict_get "apple" (vocab w') = Some data' /\
    ease data' = Some lit_2_5 /\ interval data' = Some 12 /\
    5 < 12.
Proof.
  split; [reflexivity|]. split; [lia|].
  destruct (schedule_next_review today0 "apple" 4 world0) as [o w'] eqn:Hrun.
  assert (o = Return tt) as -> by (vm_compute in Hrun; congruence).
  assert (3 <= 4) as Hq by lia.
  pose proof (schedule_pass_grows today0 "apple" 4 world0 apple w' eq_refl Hq Hrun)
    as H.
  cbv zeta in H.
  destruct H as (data' & e' & i' & Hget & He & Hi & _ & _ & Hgrow).
  exists w', data'. split; [reflexivity|]. split; [exact Hget|].
  vm_compute in Hrun. injection Hrun as <-. vm_compute in Hget.
  injection Hget as <-. vm_compute in He, Hi.
  injection He as <-. injection Hi as <-.
  split; [reflexivity|]. split; [reflexivity|].
  apply Hgrow; [vm_compute; reflexivity|reflexivity].
Defined.

(** * Further properties *)

(** ** Dictionaries with distinct keys *)

Lemma dict_get_In {V : Type} (k : string) (v : V) (m : dict V) :
  dict_get k m = Some v -> In (k, v) m.
Proof.
  induction m as [|[k' v'] m IH]; simpl; [discriminate|].
  destruct (String.eqb k' k) eqn:E.
  - apply String.eqb_eq in E. intros [= <-]. left. now subst.
  - intros H. right. now apply IH.
Qed.

Lemma In_dict_get {V : Type} (k : string) (v : V) (m : dict V) :
  NoDup (keys m) -> In (k, v) m -> dict_get k m = Some v.
Proof.
  unfold keys. induction m as [|[k' v'] m IH]; simpl; intros Hnd Hin;
    [contradiction|].
  inversion Hnd as [|? ? Hnotin Hnd']; subst.
  destruct Hin as [[= -> ->]|Hin].
  - now rewrite String.eqb_refl.
  - destruct (String.eqb k' k) eqn:E; [|now apply IH].
    apply String.eqb_eq in E. subst k'. exfalso. apply Hnotin.
    change k with (fst (k, v)). now apply in_map.
Qed.

Lemma dict_get_None_keys {V : Type} (k : string) (m : dict V) :
  dict_get k m = None <-> ~ In k (keys m).
Proof.
  unfold keys. induction m as [|[k' v'] m IH]; simpl; [tauto|].
  destruct (String.eqb k' k) eqn:E.
  - apply String.eqb_eq in E. subst. split; [discriminate|]. tauto.
  - apply String.eqb_neq in E. rewrite IH. tauto.
Qed.

Lemma dict_set_absent {V : Type} (k : string) (v : V) (m : dict V) :
  dict_get k m = None -> dict_set k v m = m ++ [(k, v)].
Proof.
  induction m as [|[k' v'] m IH]; simpl; [reflexivity|].
  destruct (String.eqb k' k); [discriminate|].
  intros H. now rewrite IH.
Qed.

(** ** What [schedule_next_review] leaves alone *)

(** X1: a completed call on a stored word keeps that entry's sentence,
    note, review counters, history and last-review date, keeps every other
    entry and the key order, does not touch progress or statistics, and
    leaves the saved vocabulary equal to the one in memory. *)
Theorem schedule_next_review_frame today word q w data w' :
  dict_get word (vocab w) = Some data ->
  schedule_next_review today word q w = (Return tt, w') ->
  exists data',
    dict_get word (vocab w') = Some data' /\
    (sentence data' = sentence data /\ note data' = note data /\
     times_reviewed data' = times_reviewed data /\
     times_correct data' = times_correct data /\
     history data' = history data /\
     last_reviewed data' = last_reviewed data) /\
    (forall k, k <> word -> dict_get k (vocab w') = dict_get k (vocab w)) /\
    keys (vocab w') = keys (vocab w) /\
    progress w' = progress w /\ stats w' = stats w /\
    vocab_file w' = Some (vocab w').
Proof.
  intros Hget Hrun.
  destruct (schedule_next_review_inv _ _ _ _ _ _ Hget Hrun)
    as (e' & i' & nd & _ & _ & _ & ->).
  exists (reschedule data e' i' nd q).
  split; [apply dict_get_set_same|].
  split; [simpl; auto 10|].
  split; [intros k Hk; now apply dict_get_set_other|].
  split; [|repeat split].
  apply keys_dict_set. unfold dict_mem. now rewrite Hget.
Qed.

Lemma new_box_range b q : 1 <= new_box b q <= 5.
Proof. unfold new_box. lia. Qed.

Lemma new_interval_positive i e' q i' :
  1 <= i -> normalized e' -> leb lit_1_3 e' = true ->
  new_interval i e' q = Return i' -> 1 <= i'.
Proof.
  intros Hi Hn Hle. unfold new_interval.
  destruct (q <? 3); [intros [= <-]; lia|].
  destruct (i =? 1) eqn:E; [intros [= <-]; lia|].
  intros H. assert (i < i'); [|lia].
  apply (pass_interval_grows i e' i'); auto. lia.
Qed.

(** X2: whatever box the entry had, after a completed call its box lies
    in 1..5; and an interval of at least one day stays at least one day when
    the stored ease is a binary64 value. *)
Theorem schedule_next_review_keeps_ranges today word q w data w' :
  dict_get word (vocab w) = Some data ->
  schedule_next_review today word q w = (Return tt, w') ->
  exists data' b' i',
    dict_get word (vocab w') = Some data' /\
    box data' = Some b' /\ 1 <= b' <= 5 /\
    interval data' = Some i' /\
    (1 <= get_default (interval data) 1 ->
     valid_binary prec emax (get_default (ease data) lit_2_5) = true ->
     1 <= i').
Proof.
  intros Hget Hrun.
  destruct (schedule_next_review_inv _ _ _ _ _ _ Hget Hrun)
    as (e' & i' & nd & He & Hi & _ & ->).
  exists (reschedule data e' i' nd q), (new_box (get_default (box data) 1) q), i'.
  split; [apply dict_get_set_same|]. split; [reflexivity|].
  split; [apply new_box_range|]. split; [reflexivity|].
  intros Hi1 Hvalid.
  apply (new_interval_positive _ e' q i' Hi1); [| |exact Hi].
  - apply (new_ease_normalized _ q _ (valid_binary_normalized _ Hvalid) He).
  - eapply new_ease_lower_bound; eassumption.
Qed.

(** ** Due words *)

Lemma due_loop_In today items word :
  In word (due_loop today items) <->
  exists data,
    In (word, data) items /\ get_default (next_review data) today <= today.
Proof.
  induction items as [|[k d] items IH]; simpl.
  - split; [contradiction|]. intros (data & [] & _).
  - destruct (get_default (next_review d) today <=? today) eqn:E.
    + simpl. rewrite IH. split.
      * intros [->|(data & Hin & Hd)]; [exists d|exists data]; split; auto; lia.
      * intros (data & [[= -> ->]|Hin] & Hd); [now left|right; eauto].
    + rewrite IH. split.
      * intros (data & Hin & Hd). exists data. auto.
      * intros (data & [[= -> ->]|Hin] & Hd); [lia|eauto].
Qed.

Lemma due_loop_keys today items :
  exists picked, due_loop today items = map fst (filter picked items).
Proof.
  exists (fun item => get_default (next_review (snd item)) today <=? today).
  induction items as [|[k d] items IH]; simpl; [reflexivity|].
  destruct (get_default (next_review d) today <=? today); simpl; now rewrite IH.
Qed.

Lemma NoDup_map_filter {A B : Type} (f : A -> B) (p : A -> bool) l :
  NoDup (map f l) -> NoDup (map f (filter p l)).
Proof.
  induction l as [|x l IH]; simpl; intros Hnd; [constructor|].
  inversion Hnd as [|? ? Hnotin Hnd']; subst.
  destruct (p x); simpl; [|now apply IH].
  constructor; [|now apply IH].
  intros Hin. apply Hnotin. apply in_map_iff in Hin.
  destruct Hin as (y & Hy & Hin). apply filter_In in Hin.
  rewrite <- Hy. apply in_map. tauto.
Qed.

Lemma due_loop_length today items :
  (List.length (due_loop today items) <= List.length items)%nat.
Proof.
  induction items as [|[k d] items IH]; simpl; [lia|].
  destruct (get_default (next_review d) today <=? today); simpl; lia.
Qed.

(** X3: with distinct keys, the due list holds exactly the stored words
    whose next review is today or earlier, a word without a next-review date
    counting as due; it holds no word twice and the call changes nothing. *)
Theorem get_due_words_exact today w :
  NoDup (keys (vocab w)) ->
  exists due,
    get_due_words today w = (Return due, w) /\
    NoDup due /\
    forall word,
      In word due <->
      exists data,
        dict_get word (vocab w) = Some data /\
        match next_review data with
        | Some d => d <= today
        | None => True
        end.
Proof.
  intros Hnd. exists (due_loop today (vocab w)).
  split; [reflexivity|]. split.
  - destruct (due_loop_keys today (vocab w)) as [picked ->].
    now apply NoDup_map_filter.
  - intros word. rewrite due_loop_In. split.
    + intros (data & Hin & Hd). exists data.
      split; [now apply In_dict_get|].
      destruct (next_review data); simpl in *; [lia|exact I].
    + intros (data & Hget & Hd). exists data.
      split; [now apply dict_get_In|].
      destruct (next_review data); simpl in *; lia.
Qed.

(** X4: the suggested daily target is the due count clamped to 5..20, the
    due count never exceeds the number of stored words, and asking for the
    target changes nothing. *)
Theorem suggested_daily_target_bounds today w :
  exists due target,
    get_due_count today w = (Return due, w) /\
    suggested_daily_target today w = (Return target, w) /\
    0 <= due <= Z.of_nat (List.length (vocab w)) /\
    5 <= target <= 20 /\
    (due < 5 -> target = 5) /\
    (5 <= due <= 20 -> target = due) /\
    (20 < due -> target = 20).
Proof.
  exists (Z.of_nat (List.length (due_loop today (vocab w)))),
         (Z.max 5 (Z.min 20 (Z.of_nat (List.length (due_loop today (vocab w)))))).
  split; [reflexivity|]. split; [reflexivity|].
  pose proof (due_loop_length today (vocab w)).
  repeat split; lia.
Qed.

Lemma due_loop_dict_set today word data' items k :
  NoDup (keys items) -> dict_mem word items = true -> k <> word ->
  (In k (due_loop today (dict_set word data' items)) <->
   In k (due_loop today items)).
Proof.
  unfold keys, dict_mem.
  induction items as [|[k0 d0] items IH]; simpl; intros Hnd Hmem Hk;
    [discriminate|].
  inversion Hnd as [|? ? Hnotin Hnd']; subst.
  destruct (String.eqb k0 word) eqn:E; simpl.
  - apply String.eqb_eq in E. subst k0.
    destruct (get_default (next_review data') today <=? today),
             (get_default (next_review d0) today <=? today); simpl;
      intuition congruence.
  - destruct (get_default (next_review d0) today <=? today); simpl;
      rewrite IH by assumption; tauto.
Qed.

Lemma due_loop_dict_set_same today word data' items :
  NoDup (keys items) ->
  today < get_default (next_review data') today ->
  ~ In word (due_loop today (dict_set word data' items)).
Proof.
  unfold keys.
  induction items as [|[k0 d0] items IH]; simpl; intros Hnd Hlate.
  - destruct (get_default (next_review data') today <=? today) eqn:E; [lia|].
    simpl. tauto.
  - inversion Hnd as [|? ? Hnotin Hnd']; subst.
    destruct (String.eqb k0 word) eqn:E; simpl.
    + apply String.eqb_eq in E. subst k0.
      destruct (get_default (next_review data') today <=? today) eqn:E'; [lia|].
      rewrite due_loop_In. intros (data & Hin & _). apply Hnotin.
      change word with (fst (word, data)). now apply in_map.
    + apply String.eqb_neq in E.
      destruct (get_default (next_review d0) today <=? today); simpl;
        intros H; [destruct H as [H|H]; [congruence|]|]; now apply IH.
Qed.

(** X5: once a stored word with an interval of at least one day and a
    binary64 ease has been rated, it is no longer due on that day, and every
    other word is due exactly as before. *)
Theorem rated_word_is_not_due today word q w data w' :
  NoDup (keys (vocab w)) ->
  dict_get word (vocab w) = Some data ->
  1 <= get_default (interval data) 1 ->
  valid_binary prec emax (get_default (ease data) lit_2_5) = true ->
  schedule_next_review today word q w = (Return tt, w') ->
  ~ In word (due_loop today (vocab w')) /\
  forall k, k <> word ->
    (In k (due_loop today (vocab w')) <-> In k (due_loop today (vocab w))).
Proof.
  intros Hnd Hget Hi1 Hvalid Hrun.
  destruct (schedule_next_review_inv _ _ _ _ _ _ Hget Hrun)
    as (e' & i' & nd & He & Hi & Hd & ->).
  apply date_add_days_inv in Hd. subst nd.
  assert (1 <= i') as Hpos.
  { apply (new_interval_positive _ e' q i' Hi1); [| |exact Hi].
    - apply (new_ease_normalized _ q _ (valid_binary_normalized _ Hvalid) He).
    - eapply new_ease_lower_bound; eassumption. }
  split.
  - apply due_loop_dict_set_same; [exact Hnd|]. simpl. lia.
  - intros k Hk. apply due_loop_dict_set; auto.
    unfold dict_mem. now rewrite Hget.
Qed.

(** ** [add_word_gui_logic] *)

Lemma str_in_In x l : str_in x l = true <-> In x l.
Proof.
  unfold str_in. rewrite existsb_exists. split.
  - intros (y & Hy & E). apply String.eqb_eq in E. now subst.
  - intros H. exists x. split; [exact H|apply String.eqb_refl].
Qed.

Lemma str_in_lower_absent (lower : string -> string) k (m : dict entry) :
  str_in (lower k) (map lower (keys m)) = false -> dict_get k m = None.
Proof.
  intros H. apply dict_get_None_keys. intros Hin.
  assert (str_in (lower k) (map lower (keys m)) = true); [|congruence].
  apply str_in_In. now apply in_map.
Qed.

(** The world after [word] has been appended with a fresh entry. *)
Lemma add_word_gui_logic_run lower strip today word sentence_ note_ w :
  add_word_gui_logic lower strip today word sentence_ note_ w =
  if str_empty (strip word) || str_empty (strip sentence_)
     || str_in (lower (strip word)) (map lower (keys (vocab w)))
  then (Return false, w)
  else
    let v' := vocab w ++ [(strip word,
                           new_entry (strip sentence_) (strip note_) today)] in
    let s' := set_words_added (get_default (words_added (stats w)) 0 + 1)
                              (stats w) in
    (Return true, mkWorld v' (progress w) s' (Some v') (progress_file w) (Some s')).
Proof.
  unfold add_word_gui_logic.
  destruct (str_empty (strip word) || str_empty (strip sentence_)) eqn:E;
    [reflexivity|].
  cbn [orb]. unfold bind, get_world.
  destruct (str_in (lower (strip word)) (map lower (keys (vocab w)))) eqn:E';
    [reflexivity|].
  cbn. rewrite (dict_set_absent _ _ _ (str_in_lower_absent _ _ _ E')).
  reflexivity.
Qed.

(** X6: adding is refused, with nothing changed, exactly when the
    stripped word or sentence is empty or some stored key equals the stripped
    word ignoring case; otherwise the word is appended after the existing
    entries with the default scheduling fields and today as next review, the
    added-words counter goes up by one, and vocabulary and statistics are
    saved. *)
Theorem add_word_gui_logic_outcome lower strip today word sentence_ note_ w :
  let refused :=
    strip word = "" \/ strip sentence_ = "" \/
    exists k, In k (keys (vocab w)) /\ lower k = lower (strip word) in
  (refused ->
   add_word_gui_logic lower strip today word sentence_ note_ w
     = (Return false, w)) /\
  (~ refused ->
   exists w',
     add_word_gui_logic lower strip today word sentence_ note_ w
       = (Return true, w') /\
     vocab w' =
       vocab w ++ [(strip word,
                    mkEntry (Some (strip sentence_)) (Some (strip note_))
                            (Some 1) (Some 0) (Some 0) (Some lit_2_5)
                            (Some []) None (Some today) (Some 1))] /\
     dict_get (strip word) (vocab w) = None /\
     words_added (stats w') = Some (get_default (words_added (stats w)) 0 + 1) /\
     words_removed (stats w') = words_removed (stats w) /\
     progress w' = progress w /\
     vocab_file w' = Some (vocab w') /\ stats_file w' = Some (stats w')).
Proof.
  intros refused. rewrite add_word_gui_logic_run.
  assert (str_empty (strip word) || str_empty (strip sentence_)
          || str_in (lower (strip word)) (map lower (keys (vocab w))) = true
          <-> refused) as Hiff.
  { unfold refused. rewrite !orb_true_iff, str_in_In, in_map_iff.
    assert (forall s, str_empty s = true <-> s = "") as Hemp
      by (intros [|c s']; simpl; split; congruence).
    rewrite !Hemp. split.
    - intros [[H|H]|(k & Hk & Hin)]; auto. right. right. eauto.
    - intros [H|[H|(k & Hin & Hk)]]; auto. right. eauto. }
  destruct (str_empty (strip word) || str_empty (strip sentence_)
            || str_in (lower (strip word)) (map lower (keys (vocab w)))) eqn:E.
  - split; [reflexivity|]. intros Hn. exfalso. apply Hn, Hiff. reflexivity.
  - split; [intros Hr; apply Hiff in Hr; discriminate|].
    intros _. eexists. split; [reflexivity|]. cbn.
    repeat split.
    apply (str_in_lower_absent lower).
    apply orb_false_iff in E. tauto.
Qed.

(** X7: adding a word never breaks the uniqueness of keys ignoring case,
    whether it is accepted or refused. *)
Theorem add_word_gui_logic_keeps_keys_distinct
    lower strip today word sentence_ note_ w :
  NoDup (map lower (keys (vocab w))) ->
  NoDup (map lower
           (keys (vocab (snd (add_word_gui_logic lower strip today word
                                                 sentence_ note_ w))))).
Proof.
  intros Hnd. rewrite add_word_gui_logic_run.
  destruct (str_empty (strip word) || str_empty (strip sentence_)
            || str_in (lower (strip word)) (map lower (keys (vocab w)))) eqn:E;
    [exact Hnd|].
  cbn. unfold keys. rewrite !map_app. cbn.
  apply orb_false_iff in E. destruct E as [_ E].
  apply NoDup_app; [exact Hnd|repeat constructor; intros []|].
  intros x Hx [<-|[]].
  assert (str_in (lower (strip word)) (map lower (keys (vocab w))) = true);
    [|congruence].
  now apply str_in_In.
Qed.

(** X8: a word that has just been added is stored with its stripped
    sentence, is due on the day it was added, and cannot be added again in
    any spelling that differs only by case or by stripped characters. *)
Theorem added_word_is_due_and_unique
    lower strip today word sentence_ note_ w w' again sentence2 note2 :
  add_word_gui_logic lower strip today word sentence_ note_ w
    = (Return true, w') ->
  lower (strip again) = lower (strip word) ->
  (exists data,
     dict_get (strip word) (vocab w') = Some data /\
     sentence data = Some (strip sentence_)) /\
  In (strip word) (due_loop today (vocab w')) /\
  add_word_gui_logic lower strip today again sentence2 note2 w'
    = (Return false, w').
Proof.
  intros Hrun Hsame. rewrite add_word_gui_logic_run in Hrun.
  destruct (str_empty (strip word) || str_empty (strip sentence_)
            || str_in (lower (strip word)) (map lower (keys (vocab w)))) eqn:E;
    [discriminate|].
  cbv zeta in Hrun. injection Hrun as <-.
  apply orb_false_iff in E. destruct E as [_ E].
  pose proof (str_in_lower_absent lower _ _ E) as Habs.
  split; [|split].
  - eexists. cbn. rewrite <- (dict_set_absent _ _ _ Habs).
    split; [apply dict_get_set_same|reflexivity].
  - cbn. apply due_loop_In. eexists. split.
    + apply in_or_app. right. left. reflexivity.
    + cbn. lia.
  - rewrite add_word_gui_logic_run. cbn [vocab].
    assert (str_in (lower (strip again))
              (map lower (keys (vocab w ++
                 [(strip word, new_entry (strip sentence_) (strip note_) today)])))
            = true) as ->; [|now rewrite orb_true_r].
    apply str_in_In. rewrite Hsame. apply in_map. unfold keys.
    rewrite map_app. apply in_or_app. right. now left.
Qed.

(** ** [get_box_distribution] *)

Lemma idict_get_set_same k v m : idict_get k (idict_set k v m) = Some v.
Proof.
  induction m as [|[k' v'] m IH]; simpl.
  - now rewrite Z.eqb_refl.
  - destruct (k' =? k) eqn:E; simpl; rewrite E; auto.
Qed.

Lemma idict_get_set_other k k' v m :
  k' <> k -> idict_get k' (idict_set k v m) = idict_get k' m.
Proof.
  intros Hne. induction m as [|[k0 v0] m IH]; simpl.
  - destruct (k =? k') eqn:E; auto. lia.
  - destruct (k0 =? k) eqn:E; simpl.
    + destruct (k0 =? k') eqn:E'; auto. lia.
    + now rewrite IH.
Qed.

Lemma sum_values_bump k m :
  sum_values (idict_set k (get_default (idict_get k m) 0 + 1) m)
  = sum_values m + 1.
Proof.
  induction m as [|[k' v'] m IH]; simpl; [lia|].
  destruct (k' =? k) eqn:E; simpl; [lia|].
  unfold sum_values in IH. simpl in IH. unfold sum_values. lia.
Qed.

Lemma distribution_loop_get items :
  forall distribution b,
    get_default (idict_get b (distribution_loop items distribution)) 0
    = get_default (idict_get b distribution) 0 + count_box b items.
Proof.
  unfold count_box.
  induction items as [|[k d] items IH]; intros distribution b; simpl; [lia|].
  rewrite IH.
  destruct (get_default (box d) 1 =? b) eqn:E; simpl.
  - apply Z.eqb_eq in E. subst b. rewrite idict_get_set_same. simpl. lia.
  - apply Z.eqb_neq in E. rewrite idict_get_set_other by congruence. lia.
Qed.

Lemma distribution_loop_present items :
  forall distribution b,
    idict_get b distribution <> None ->
    idict_get b (distribution_loop items distribution) <> None.
Proof.
  induction items as [|[k d] items IH]; intros distribution b Hb; simpl;
    [exact Hb|].
  apply IH.
  destruct (Z.eq_dec b (get_default (box d) 1)) as [->|Hne].
  - rewrite idict_get_set_same. discriminate.
  - now rewrite idict_get_set_other.
Qed.

Lemma distribution_loop_sum items :
  forall distribution,
    sum_values (distribution_loop items distribution)
    = sum_values distribution + Z.of_nat (List.length items).
Proof.
  induction items as [|[k d] items IH]; intros distribution; [simpl; lia|].
  change (List.length ((k, d) :: items)) with (S (List.length items)).
  cbn [distribution_loop]. rewrite IH, sum_values_bump. lia.
Qed.

(** X9: the box distribution gives, for every box, the number of entries
    in it (an entry without a box counting in box 1); boxes 1 to 5 are always
    listed, even when empty; the counts add up to the number of stored words;
    nothing is changed. *)
Theorem get_box_distribution_counts w :
  exists distribution,
    get_box_distribution w = (Return distribution, w) /\
    (forall b,
       get_default (idict_get b distribution) 0 = count_box b (vocab w)) /\
    (forall b, 1 <= b <= 5 ->
       idict_get b distribution = Some (count_box b (vocab w))) /\
    sum_values distribution = Z.of_nat (List.length (vocab w)).
Proof.
  eexists. split; [reflexivity|].
  assert (forall b,
            get_default
              (idict_get b
                 (distribution_loop (vocab w)
                    [(1, 0); (2, 0); (3, 0); (4, 0); (5, 0)])) 0
            = count_box b (vocab w)) as Hcount.
  { intros b. rewrite distribution_loop_get.
    assert (get_default (idict_get b [(1, 0); (2, 0); (3, 0); (4, 0); (5, 0)]) 0
            = 0) as ->; [|lia].
    cbn [idict_get].
    destruct (1 =? b); [reflexivity|]. destruct (2 =? b); [reflexivity|].
    destruct (3 =? b); [reflexivity|]. destruct (4 =? b); [reflexivity|].
    destruct (5 =? b); reflexivity. }
  split; [exact Hcount|]. split.
  - intros b Hb.
    destruct (idict_get b
                (distribution_loop (vocab w)
                   [(1, 0); (2, 0); (3, 0); (4, 0); (5, 0)])) as [n|] eqn:E.
    + specialize (Hcount b). rewrite E in Hcount. simpl in Hcount. congruence.
    + exfalso. revert E. apply distribution_loop_present.
      assert (b = 1 \/ b = 2 \/ b = 3 \/ b = 4 \/ b = 5) as Hcases by lia.
      repeat destruct Hcases as [->|Hcases]; try subst b; discriminate.
  - rewrite distribution_loop_sum. simpl. lia.
Qed.

(** ** Repeated calls of the progress operations *)

Lemma check_achievements_run w :
  exists w',
    check_achievements w = (Return (map message (newly_unlocked w)), w') /\
    achievements (progress w')
      = achievements (progress w) ++ map achievement_id (newly_unlocked w) /\
    vocab w' = vocab w /\
    xp (progress w') = xp (progress w) /\
    current_streak (progress w') = current_streak (progress w) /\
    total_reviews (progress w') = total_reviews (progress w) /\
    (newly_unlocked w = [] -> w' = w).
Proof.
  unfold check_achievements, bind, get_world. cbv zeta.
  rewrite (check_loop_run _ (table_ids_distinct _ _ _ _)).
  rewrite app_nil_l. cbv zeta.
  change (filter _ _) with (newly_unlocked w).
  destruct (newly_unlocked w) as [|a l] eqn:E.
  - cbn [map]. unfold ret. rewrite unlocked_world_nil.
    eexists. split; [reflexivity|]. rewrite app_nil_r. auto 10.
  - cbn [map]. unfold ret, save_progress, modify.
    eexists. split; [reflexivity|]. cbn. repeat split. discriminate.
Qed.

(** X10: right after a call of [check_achievements] a second call reports
    nothing and changes nothing; the list of unlocked identifiers only grows
    at its end and, if it had no repetition, still has none. *)
Theorem check_achievements_settles w o w' :
  check_achievements w = (o, w') ->
  check_achievements w' = (Return [], w') /\
  (exists added,
     achievements (progress w') = achievements (progress w) ++ added) /\
  (NoDup (achievements (progress w)) -> NoDup (achievements (progress w'))).
Proof.
  intros Hrun.
  destruct (check_achievements_run w)
    as (w1 & Hrun1 & Hach & Hv & Hx & Hs & Ht & _).
  rewrite Hrun1 in Hrun. injection Hrun as <- <-.
  assert (newly_unlocked w1 = []) as Hnone.
  { unfold newly_unlocked. rewrite Hv, Hx, Hs, Ht, Hach.
    set (table := achievements_to_check _ _ _ _).
    assert (forall a, In a table ->
              condition a
              && negb (str_in (achievement_id a)
                         (achievements (progress w)
                          ++ map achievement_id (newly_unlocked w))) = false)
      as Hall.
    { intros a Ha. destruct (condition a) eqn:Hc; [|reflexivity]. simpl.
      rewrite str_in_app.
      destruct (str_in (achievement_id a) (achievements (progress w))) eqn:Hin;
        [reflexivity|].
      simpl. apply negb_false_iff, str_in_In, in_map.
      unfold newly_unlocked. fold table. apply filter_In.
      split; [exact Ha|]. now rewrite Hc, Hin. }
    clearbody table. induction table as [|a table IH]; [reflexivity|].
    simpl. rewrite (Hall a) by now left.
    apply IH. intros b Hb. apply Hall. now right. }
  split; [|split].
  - destruct (check_achievements_run w1) as (w2 & Hrun2 & _ & _ & _ & _ & _ & Hsame).
    rewrite Hrun2, Hnone, (Hsame Hnone). reflexivity.
  - eexists. exact Hach.
  - intros Hnd. rewrite Hach. apply NoDup_app; [exact Hnd| |].
    + unfold newly_unlocked. apply NoDup_map_filter, table_ids_distinct.
    + intros x Hx' Hin. apply in_map_iff in Hin.
      destruct Hin as (a & <- & Ha). unfold newly_unlocked in Ha.
      apply filter_In in Ha. destruct Ha as [_ Ha].
      apply andb_true_iff in Ha. destruct Ha as [_ Ha].
      apply negb_true_iff in Ha.
      apply str_in_In in Hx'. congruence.
Qed.

(** X11: after a completed call of [update_streak] the last study date is
    [today], and a second call on the same day changes nothing. *)
Theorem update_streak_same_day today w w1 :
  update_streak today w = (Return tt, w1) ->
  last_study_date (progress w1) = Some today /\
  update_streak today w1 = (Return tt, w1).
Proof.
  intros Hrun.
  assert (last_study_date (progress w1) = Some today) as Hlast.
  { revert Hrun. unfold update_streak, bind, get_world.
    destruct (last_study_date (progress w)) as [last|] eqn:El.
    - destruct (today =? last) eqn:E.
      + apply Z.eqb_eq in E. subst last. unfold ret. now intros [= <-].
      + unfold lift. destruct (date_add_days last 1) as [nd|x]; [|discriminate].
        destruct (today =? nd).
        * unfold read_current_streak, bind, get_world.
          destruct (current_streak (progress w)) as [cur|]; [|discriminate].
          unfold ret, modify_progress, modify. rewrite update_streak_set.
          now intros [= <-].
        * unfold modify_progress, modify. rewrite update_streak_set.
          now intros [= <-].
    - unfold modify_progress, modify. rewrite update_streak_set.
      now intros [= <-]. }
  split; [exact Hlast|].
  unfold update_streak, bind, get_world. rewrite Hlast.
  now rewrite Z.eqb_refl.
Qed.

(** ** The words of a study plan *)

Lemma NoDup_firstn {A : Type} (n : nat) (l : list A) :
  NoDup l -> NoDup (firstn n l).
Proof.
  intros H. rewrite <- (firstn_skipn n l) in H.
  now apply NoDup_app_remove_r in H.
Qed.

Lemma In_firstn {A : Type} (n : nat) (l : list A) x :
  In x (firstn n l) -> In x l.
Proof.
  intros H. rewrite <- (firstn_skipn n l). apply in_or_app. now left.
Qed.

Lemma slice_to_firstn {A : Type} (n : Z) (l : list A) :
  exists k, slice_to n l = firstn k l.
Proof.
  unfold slice_to. destruct (n <? 0); eexists; reflexivity.
Qed.

(** X12: a plan lists stored words only and, with distinct keys, no word
    twice; a target of at least the number of entries gives every stored word
    exactly once, a target of 0 gives the empty plan, and a negative target
    [-k] gives the full ranking without its last [k] words. *)
Theorem build_study_plan_words today target w plan w' :
  build_study_plan today target w = (Return plan, w') ->
  (forall word, In word plan -> In word (keys (vocab w))) /\
  (NoDup (keys (vocab w)) -> NoDup plan) /\
  (Z.of_nat (List.length (vocab w)) <= target ->
   Permutation plan (keys (vocab w))) /\
  (target = 0 -> plan = []) /\
  (target < 0 ->
   exists full,
     build_study_plan today (Z.of_nat (List.length (vocab w))) w
       = (Return full, w) /\
     Permutation full (keys (vocab w)) /\
     plan = firstn (List.length full - Z.to_nat (- target)) full).
Proof.
  unfold build_study_plan, bind, get_world, lift, ret.
  destruct (score_words today (vocab w)) as [scored|x] eqn:Hs; [|discriminate].
  intros [= <- <-].
  set (sorted := sort_reverse tuple_lt scored).
  assert (Permutation sorted scored) as Hperm by apply sort_reverse_perm.
  apply score_words_spec in Hs.
  pose proof (scored_words_keys _ _ _ Hs) as Hkeys.
  assert (Permutation (map snd sorted) (keys (vocab w))) as Hpk
    by (rewrite <- Hkeys; now apply Permutation_map).
  assert (List.length sorted = List.length (vocab w)) as Hlen.
  { rewrite (Permutation_length Hperm).
    symmetry. exact (Forall2_length_eq _ _ _ Hs). }
  split; [|split; [|split; [|split]]].
  - intros word Hin. destruct (slice_to_firstn target sorted) as [k Hk].
    rewrite Hk, <- firstn_map in Hin. apply In_firstn in Hin.
    eapply Permutation_in; eassumption.
  - intros Hnd. destruct (slice_to_firstn target sorted) as [k Hk].
    rewrite Hk, <- firstn_map. apply NoDup_firstn.
    eapply Permutation_NoDup; [symmetry; exact Hpk|exact Hnd].
  - intros Ht. rewrite slice_to_nonneg by lia.
    rewrite firstn_all2 by lia. exact Hpk.
  - intros ->. reflexivity.
  - intros Ht. exists (map snd sorted).
    split; [|split; [exact Hpk|]].
    + rewrite slice_to_nonneg by lia. rewrite firstn_all2 by lia. reflexivity.
    + unfold slice_to. destruct (target <? 0) eqn:E; [|lia].
      rewrite <- firstn_map, length_map. f_equal. lia.
Qed.

Lemma priority_zero_ease today data :
  is_zero (get_default (ease data) lit_2_5) = true ->
  exists x, priority today data = Raise x.
Proof.
  intros Hz. unfold priority.
  destruct (overdue_factor today data) as [o|x]; cbn [obind]; [|eauto].
  unfold difficulty_factor, truediv. rewrite Hz. cbn [obind]. eauto.
Qed.

Lemma score_words_fails today items word data :
  In (word, data) items ->
  (exists x, priority today data = Raise x) ->
  exists x, score_words today items = Raise x.
Proof.
  intros Hin [x Hx]. induction items as [|[k d] items IH]; [contradiction|].
  simpl. destruct Hin as [[= -> ->]|Hin].
  - rewrite Hx. cbn. eauto.
  - destruct (priority today d); cbn [obind]; [|eauto].
    destruct (IH Hin) as [y ->]. cbn. eauto.
Qed.

(** X13: a single stored entry whose ease is zero makes every call of
    [build_study_plan] end in an exception instead of a plan, whatever the
    target; the world is left as it was. *)
Theorem build_study_plan_zero_ease today target w word data :
  In (word, data) (vocab w) ->
  is_zero (get_default (ease data) lit_2_5) = true ->
  exists x, build_study_plan today target w = (Raise x, w).
Proof.
  intros Hin Hz.
  destruct (score_words_fails today _ _ _ Hin (priority_zero_ease today _ Hz))
    as [x Hx].
  exists x. unfold build_study_plan, bind, get_world, lift. now rewrite Hx.
Qed.

(** ** Statistics *)

Lemma binary_round_aux_not_nan (s : bool) (mx ex : Z) (lx : location) :
  0 <= mx -> is_nan (binary_round_aux prec emax s mx ex lx) = false.
Proof.
  intros Hm. unfold binary_round_aux, shr_fexp.
  destruct (shr_spec (shr_record_of_loc mx lx) ex
              (fexp prec emax (Zdigits2 mx + ex) - ex)) as [Hm1 _];
    [rewrite shr_m_of_loc; lia|].
  destruct (shr (shr_record_of_loc mx lx) ex
              (fexp prec emax (Zdigits2 mx + ex) - ex)) as [mrs' e'].
  cbn [fst] in Hm1. rewrite shr_m_of_loc in Hm1.
  set (m2 := round_nearest_even (shr_m mrs') (loc_of_shr_record mrs')).
  assert (0 <= m2) as Hm2.
  { pose proof (round_nearest_even_bounds (shr_m mrs') (loc_of_shr_record mrs')).
    assert (0 <= shr_m mrs')
      by (rewrite Hm1; apply Z.div_pos; [lia|apply pow2_pos; lia]).
    unfold m2. lia. }
  destruct (shr_spec (shr_record_of_loc m2 loc_Exact) e'
              (fexp prec emax (Zdigits2 m2 + e') - e')) as [Hm3 _];
    [rewrite shr_m_of_loc; lia|].
  destruct (shr (shr_record_of_loc m2 loc_Exact) e'
              (fexp prec emax (Zdigits2 m2 + e') - e')) as [mrs'' e''].
  cbn [fst] in Hm3. rewrite shr_m_of_loc in Hm3.
  assert (0 <= shr_m mrs'') as Hm3pos
    by (rewrite Hm3; apply Z.div_pos; [lia|apply pow2_pos; lia]).
  destruct (shr_m mrs'') as [|m3|m3]; [reflexivity| |lia].
  destruct (e'' <=? emax - prec); reflexivity.
Qed.

Lemma SFdiv_core_binary_nonneg (m1 e1 m2 e2 : Z) :
  0 <= m1 -> 0 < m2 ->
  0 <= fst (fst (SFdiv_core_binary prec emax m1 e1 m2 e2)).
Proof.
  intros H1 H2. unfold SFdiv_core_binary. cbv zeta.
  set (sh := e1 - e2 - _).
  set (m' := match sh with Z0 => m1 | Zpos _ => Z.shiftl m1 sh | Zneg _ => 0 end).
  assert (0 <= m') as Hm'.
  { unfold m'. destruct sh; try lia. apply Z.shiftl_nonneg. lia. }
  pose proof (Z.div_pos m' m2 Hm' H2) as Hq. unfold Z.div in Hq.
  destruct (Z.div_eucl m' m2) as [q r]. exact Hq.
Qed.

(** A quotient of two ints is a finite number or zero whenever it is
    returned, and the only division error is a zero divisor. *)
Lemma int_truediv_result (a b : Z) :
  (b = 0 /\ int_truediv a b = Raise ZeroDivisionError) \/
  (b <> 0 /\
   ((exists f, int_truediv a b = Return f /\ is_nan f = false /\
               f <> S754_infinity false /\ f <> S754_infinity true) \/
    int_truediv a b = Raise OverflowError)).
Proof.
  destruct (Z.eq_dec b 0) as [->|Hb]; [now left|right].
  split; [exact Hb|].
  destruct (Z.eq_dec a 0) as [->|Ha].
  { left. unfold int_truediv. destruct b; [contradiction| |];
      eexists; repeat split; discriminate. }
  assert (int_truediv a b =
          let '(mz, ez, lz) :=
            SFdiv_core_binary prec emax (Z.abs a) 0 (Z.abs b) 0 in
          match binary_round_aux prec emax (xorb (a <? 0) (b <? 0)) mz ez lz with
          | S754_infinity _ => Raise OverflowError
          | f => Return f
          end) as ->.
  { unfold int_truediv. destruct b, a; try contradiction; reflexivity. }
  pose proof (SFdiv_core_binary_nonneg (Z.abs a) 0 (Z.abs b) 0
                ltac:(lia) ltac:(lia)) as Hq.
  destruct (SFdiv_core_binary prec emax (Z.abs a) 0 (Z.abs b) 0)
    as [[mz ez] lz].
  cbn [fst] in Hq.
  pose proof (binary_round_aux_not_nan (xorb (a <? 0) (b <? 0)) mz ez lz Hq)
    as Hnan.
  destruct (binary_round_aux prec emax (xorb (a <? 0) (b <? 0)) mz ez lz)
    as [s0|s0| |s0 m0 e0]; try discriminate;
    [left|now right|left]; eexists; repeat split; discriminate.
Qed.

Lemma int_truediv_not_nan a b f : int_truediv a b = Return f -> is_nan f = false.
Proof.
  intros H.
  destruct (int_truediv_result a b) as [[_ E]|[_ [(g & E & Hn & _)|E]]];
    rewrite E in H; try discriminate.
  now injection H as <-.
Qed.

Lemma rate_lt_asym a b :
  rate_ok a -> rate_ok b -> rate_lt a b = true -> rate_lt b a = false.
Proof.
  unfold rate_ok, rate_lt. intros Ha Hb H.
  apply (ltb_fkey _ _ Ha Hb) in H.
  destruct (ltb (snd b) (snd a)) eqn:E; auto.
  apply (ltb_fkey _ _ Hb Ha) in E.
  destruct (fkey (snd a)) as [[a1 a2] a3], (fkey (snd b)) as [[b1 b2] b3].
  simpl in *. lia.
Qed.

Lemma rate_le_trans a b c :
  rate_ok a -> rate_ok b -> rate_ok c ->
  rate_lt b a = false -> rate_lt c b = false -> rate_lt c a = false.
Proof.
  unfold rate_ok, rate_lt. intros Ha Hb Hc H1 H2.
  destruct (ltb (snd c) (snd a)) eqn:E; auto.
  apply (ltb_fkey _ _ Hc Ha) in E.
  assert (~ lex_lt (fkey (snd b)) (fkey (snd a))) as N1
    by (rewrite <- (ltb_fkey _ _ Hb Ha); congruence).
  assert (~ lex_lt (fkey (snd c)) (fkey (snd b))) as N2
    by (rewrite <- (ltb_fkey _ _ Hc Hb); congruence).
  destruct (fkey (snd a)) as [[a1 a2] a3], (fkey (snd b)) as [[b1 b2] b3],
           (fkey (snd c)) as [[c1 c2] c3].
  simpl in *. lia.
Qed.

Lemma StronglySorted_firstn {A : Type} (R : A -> A -> Prop) (n : nat) l :
  StronglySorted R l -> StronglySorted R (firstn n l).
Proof.
  intros Hs. revert n. induction Hs as [|a l Hs IH Ha]; intros [|n]; simpl;
    try constructor; auto.
  rewrite Forall_forall in *. intros x Hx. apply Ha.
  now apply In_firstn in Hx.
Qed.

Lemma difficulties_loop_In items :
  forall difficulties,
    difficulties_loop items = Return difficulties ->
    forall word rate,
      In (word, rate) difficulties <->
      exists data,
        In (word, data) items /\
        3 <= get_default (times_reviewed data) 0 /\
        error_rate_of data = Return rate.
Proof.
  unfold error_rate_of.
  induction items as [|[k d] items IH]; intros difficulties; simpl.
  - intros [= <-] word rate. split; [contradiction|]. intros (data & [] & _).
  - destruct (get_default (times_reviewed d) 0 >=? 3) eqn:E.
    + destruct (int_truediv _ _) as [r|x] eqn:Er; cbn [obind]; [|discriminate].
      destruct (difficulties_loop items) as [tl|x]; cbn [obind]; [|discriminate].
      intros [= <-] word rate. simpl. rewrite (IH tl eq_refl). split.
      * intros [[= <- <-]|(data & Hin & H3 & Hr)].
        -- exists d. split; [now left|]. split; [lia|exact Er].
        -- exists data. auto.
      * intros (data & [[= <- <-]|Hin] & H3 & Hr).
        -- left. congruence.
        -- right. eauto.
    + intros Hl word rate. rewrite (IH _ Hl). split.
      * intros (data & Hin & H). exists data. auto.
      * intros (data & [[= <- <-]|Hin] & H3 & Hr); [lia|eauto].
Qed.

Lemma difficulties_loop_length items :
  forall difficulties,
    difficulties_loop items = Return difficulties ->
    (List.length difficulties <= List.length items)%nat.
Proof.
  induction items as [|[k d] items IH]; intros difficulties; simpl.
  - intros [= <-]. simpl. lia.
  - destruct (get_default (times_reviewed d) 0 >=? 3).
    + destruct (int_truediv _ _); cbn [obind]; [|discriminate].
      destruct (difficulties_loop items) as [tl|]; cbn [obind]; [|discriminate].
      intros [= <-]. specialize (IH tl eq_refl). simpl. lia.
    + intros H. specialize (IH _ H). lia.
Qed.

(** X14: the difficult-words list holds only stored words reviewed at
    least three times, each with its error rate [(reviewed - correct) /
    reviewed], which is a number; it is ordered by error rate downwards; for
    a non-negative limit it has at most [limit] items; nothing is changed. *)
Theorem get_difficult_words_ranked limit w ranked w' :
  get_difficult_words limit w = (Return ranked, w') ->
  w' = w /\
  (forall word rate,
     In (word, rate) ranked ->
     exists data,
       In (word, data) (vocab w) /\
       3 <= get_default (times_reviewed data) 0 /\
       int_truediv (get_default (times_reviewed data) 0
                    - get_default (times_correct data) 0)
                   (get_default (times_reviewed data) 0) = Return rate /\
       is_nan rate = false) /\
  StronglySorted (fun a b => leb (snd b) (snd a) = true) ranked /\
  (0 <= limit -> Z.of_nat (List.length ranked) <= limit) /\
  (List.length ranked <= List.length (vocab w))%nat.
Proof.
  unfold get_difficult_words, bind, get_world, lift, ret.
  destruct (difficulties_loop (vocab w)) as [difficulties|x] eqn:Hd;
    [|discriminate].
  intros [= <- <-]. split; [reflexivity|].
  set (sorted := sort_reverse rate_lt difficulties).
  assert (Permutation sorted difficulties) as Hperm by apply sort_reverse_perm.
  assert (forall word rate,
            In (word, rate) difficulties ->
            exists data,
              In (word, data) (vocab w) /\
              3 <= get_default (times_reviewed data) 0 /\
              error_rate_of data = Return rate /\ is_nan rate = false) as Hmem.
  { intros word rate Hin.
    apply (difficulties_loop_In _ _ Hd) in Hin.
    destruct Hin as (data & Hin & H3 & Hr). exists data.
    repeat split; auto. eapply int_truediv_not_nan. exact Hr. }
  assert (Forall rate_ok difficulties) as Hok.
  { apply Forall_forall. intros [word rate] Hin.
    destruct (Hmem _ _ Hin) as (_ & _ & _ & _ & Hn). exact Hn. }
  assert (Forall rate_ok sorted) as Hoks
    by (eapply Permutation_Forall; [symmetry; exact Hperm|exact Hok]).
  destruct (slice_to_firstn limit sorted) as [k Hk].
  split; [|split; [|split]].
  - intros word rate Hin. rewrite Hk in Hin. apply In_firstn in Hin.
    apply Hmem. eapply Permutation_in; eassumption.
  - rewrite Hk. apply StronglySorted_firstn.
    apply (StronglySorted_weaken (descending rate_lt)).
    + rewrite Forall_forall in Hoks. intros a b Ha Hb Hd'.
      unfold descending, rate_lt in Hd'.
      apply not_ltb_leb; auto; [apply (Hoks _ Ha)|apply (Hoks _ Hb)].
    + apply (sort_reverse_sorted rate_lt rate_ok);
        [exact rate_lt_asym|exact rate_le_trans|exact Hok].
  - intros Hl. rewrite slice_to_nonneg by exact Hl. rewrite length_firstn. lia.
  - rewrite Hk, length_firstn.
    pose proof (difficulties_loop_length _ _ Hd).
    rewrite (Permutation_length Hperm). lia.
Qed.

Section StableSort.
Context {A : Type}.
Variable lt : A -> A -> bool.
Variable same : A -> bool.

(** Inserting an element of the class [same] puts it in front of the
    elements of the class already there. *)
Lemma filter_insert_sorted x l :
  (same x = true -> forall y, In y l -> lt y x = true -> same y = false) ->
  filter same (insert_sorted lt x l) =
  if same x then x :: filter same l else filter same l.
Proof.
  intros Hcls. induction l as [|y l IH]; simpl; [reflexivity|].
  destruct (lt y x) eqn:E; simpl.
  - rewrite IH by (intros Hx z Hz; apply Hcls; [exact Hx|now right]).
    destruct (same x) eqn:Ex; [|reflexivity].
    now rewrite (Hcls eq_refl y (or_introl eq_refl) E).
  - reflexivity.
Qed.

Lemma filter_stable_sort l :
  (forall x y, In x l -> In y l -> same x = true -> lt y x = true ->
               same y = false) ->
  filter same (stable_sort lt l) = filter same l.
Proof.
  induction l as [|x l IH]; simpl; intros Hcls; [reflexivity|].
  rewrite filter_insert_sorted.
  - rewrite IH; [reflexivity|].
    intros a b Ha Hb. apply Hcls; now right.
  - intros Hx y Hy. apply Hcls; [now left| |exact Hx].
    right. eapply Permutation_in; [apply stable_sort_perm|exact Hy].
Qed.

Lemma filter_sort_reverse l :
  (forall x y, In x l -> In y l -> same x = true -> lt y x = true ->
               same y = false) ->
  filter same (sort_reverse lt l) = filter same l.
Proof.
  intros Hcls. unfold sort_reverse.
  rewrite filter_rev, filter_stable_sort, filter_rev, rev_involutive;
    [reflexivity|].
  intros x y Hx Hy. apply Hcls; now apply in_rev.
Qed.
End StableSort.

(** X15: words with the same error rate keep, in the difficult-words
    ranking, the order they have in the vocabulary: for every rate, the items
    of that rate appear in the ranking as they were collected. *)
Theorem get_difficult_words_stable w difficulties rate :
  difficulties_loop (vocab w) = Return difficulties ->
  is_nan rate = false ->
  get_difficult_words (Z.of_nat (List.length difficulties)) w
    = (Return (sort_reverse rate_lt difficulties), w) /\
  filter (fun a => eqb (snd a) rate) (sort_reverse rate_lt difficulties)
  = filter (fun a => eqb (snd a) rate) difficulties.
Proof.
  intros Hd Hrate. split.
  - unfold get_difficult_words, bind, get_world, lift, ret. rewrite Hd.
    rewrite slice_to_nonneg by lia. rewrite firstn_all2; [reflexivity|].
    rewrite (Permutation_length (sort_reverse_perm rate_lt difficulties)). lia.
  - apply filter_sort_reverse.
    intros [wx x] [wy y] Hx Hy Hsame Hlt. cbn [snd] in *.
    unfold rate_lt in Hlt. cbn [snd] in Hlt.
    assert (is_nan x = false) as Hnx.
    { apply (difficulties_loop_In _ _ Hd) in Hx.
      destruct Hx as (data & _ & _ & Hr). eapply int_truediv_not_nan. exact Hr. }
    assert (is_nan y = false) as Hny.
    { apply (difficulties_loop_In _ _ Hd) in Hy.
      destruct Hy as (data & _ & _ & Hr). eapply int_truediv_not_nan. exact Hr. }
    apply (eqb_fkey _ _ Hnx Hrate) in Hsame.
    apply (ltb_fkey _ _ Hny Hnx) in Hlt.
    destruct (eqb y rate) eqn:E; auto.
    apply (eqb_fkey _ _ Hny Hrate) in E.
    rewrite Hsame, E in Hlt.
    destruct (fkey rate) as [[r1 r2] r3]. simpl in Hlt. lia.
Qed.

Lemma mul_100_not_nan (r : float) :
  is_nan r = false -> r <> S754_infinity false -> r <> S754_infinity true ->
  is_nan (mul r (of_Z 100)) = false.
Proof.
  intros Hn Hp Hm. destruct r as [s|s| |s m e]; try discriminate.
  - reflexivity.
  - destruct s; congruence.
  - unfold mul. change (of_Z 100) with (S754_finite false 7036874417766400 (-46)).
    cbn [SFmul]. apply binary_round_aux_not_nan. lia.
Qed.

(** [(a / b) * 100] is a number unless the division fails. *)
Lemma percent_result (a b : Z) :
  b <> 0 ->
  (exists x,
     obind (int_truediv a b) (fun r => float_mul_int r 100) = Return x /\
     is_nan x = false) \/
  obind (int_truediv a b) (fun r => float_mul_int r 100) = Raise OverflowError.
Proof.
  intros Hb.
  destruct (int_truediv_result a b)
    as [[Hz _]|[_ [(f & E & Hn & Hp & Hm)|E]]]; [contradiction| |].
  - left. rewrite E. cbn [obind]. unfold float_mul_int.
    change (float_of_int 100) with (Return (of_Z 100)). cbn [obind].
    eexists. split; [reflexivity|]. now apply mul_100_not_nan.
  - right. now rewrite E.
Qed.

(** X16: the accuracy of a word is 0.0 for an unknown word and for a word
    never reviewed; the overall accuracy is 0.0 when the review counters add
    up to zero, as in an empty vocabulary; otherwise each is a number, never
    NaN, or the call ends in OverflowError; neither divides by zero and
    neither changes anything. *)
Theorem accuracy_never_divides_by_zero word w :
  (dict_get word (vocab w) = None ->
   get_word_accuracy word w = (Return (S754_zero false), w)) /\
  (forall data,
     dict_get word (vocab w) = Some data ->
     get_default (times_reviewed data) 0 = 0 ->
     get_word_accuracy word w = (Return (S754_zero false), w)) /\
  ((exists x, get_word_accuracy word w = (Return x, w) /\ is_nan x = false) \/
   get_word_accuracy word w = (Raise OverflowError, w)) /\
  (sum_reviewed (vocab w) = 0 ->
   get_overall_accuracy w = (Return (S754_zero false), w)) /\
  ((exists x, get_overall_accuracy w = (Return x, w) /\ is_nan x = false) \/
   get_overall_accuracy w = (Raise OverflowError, w)).
Proof.
  unfold get_word_accuracy, get_overall_accuracy, bind, get_world, ret, lift.
  repeat split.
  - now intros ->.
  - intros data -> ->. reflexivity.
  - destruct (dict_get word (vocab w)) as [data|]; [|left; eauto].
    destruct (get_default (times_reviewed data) 0 =? 0) eqn:E; [left; eauto|].
    apply Z.eqb_neq in E.
    destruct (percent_result (get_default (times_correct data) 0) _ E)
      as [(x & -> & Hn)| ->]; [left; eauto|now right].
  - now intros ->.
  - destruct (sum_reviewed (vocab w) =? 0) eqn:E; [left; eauto|].
    apply Z.eqb_neq in E.
    destruct (percent_result (sum_correct (vocab w)) _ E)
      as [(x & -> & Hn)| ->]; [left; eauto|now right].
Qed.

(** ** Loading the progress *)

(** X17: loading right after saving gives back the progress that was
    saved, with a missing XP or total-reviews counter read as 0 and the
    streak fields, achievements, daily counter and history as they were;
    without a progress file the loaded progress has streaks 0, no last study
    date and no achievements. *)
Theorem load_progress_after_save w :
  (forall w1,
     save_progress w = (Return tt, w1) ->
     exists p,
       load_progress w1 = (Return p, w1) /\
       current_streak p = current_streak (progress w) /\
       longest_streak p = longest_streak (progress w) /\
       last_study_date p = last_study_date (progress w) /\
       achievements p = achievements (progress w) /\
       studied_today p = studied_today (progress w) /\
       daily_history p = daily_history (progress w) /\
       xp p = Some (get_default (xp (progress w)) 0) /\
       total_reviews p = Some (get_default (total_reviews (progress w)) 0) /\
       (xp (progress w) <> None -> total_reviews (progress w) <> None ->
        p = progress w)) /\
  (progress_file w = None ->
   load_progress w =
     (Return (mkProgress (Some 0) (Some 0) None [] (Some 0) 0 (Some 0) []), w)).
Proof.
  split.
  - intros w1 [= <-]. eexists. split; [reflexivity|]. cbn.
    repeat split.
    intros Hx Ht. destruct (progress w) as [c l d a t s x h]. cbn in *.
    destruct x; [|congruence]. destruct t; [|congruence]. reflexivity.
  - intros H. unfold load_progress, bind, get_world. now rewrite H.
Qed.

(** X18: on a first start, with no progress file, the first call of
    [update_streak] completes and leaves a current and longest streak of 1,
    [today] as last study date and a progress file. *)
Theorem first_session_starts_streak today w w0 :
  progress_file w = None ->
  init_progress w = (Return tt, w0) ->
  exists w1,
    update_streak today w0 = (Return tt, w1) /\
    current_streak (progress w1) = Some 1 /\
    longest_streak (progress w1) = Some 1 /\
    last_study_date (progress w1) = Some today /\
    studied_today (progress w1) = 0 /\
    progress_file w1 = Some (progress w1) /\
    vocab w1 = vocab w.
Proof.
  intros Hfile. unfold init_progress, load_progress, bind, get_world.
  rewrite Hfile. unfold ret, modify. intros [= <-].
  eexists. split; [reflexivity|]. cbn. repeat split.
Qed.

(** ** Schema migration *)

Lemma heal_entry_complete today data u :
  complete (fst (heal_entry today data u)) = true.
Proof.
  destruct data as [[?|] [?|] [?|] [?|] [?|] [?|] [?|] [?|] [?|] [?|]];
    reflexivity.
Qed.

Lemma heal_entry_fixed today data u :
  complete data = true -> heal_entry today data u = (data, u).
Proof.
  destruct data as [[?|] [?|] [?|] [?|] [?|] [?|] [?|] [?|] [?|] [?|]];
    try discriminate; reflexivity.
Qed.

Lemma heal_entry_flag today data u :
  snd (heal_entry today data u) = u || negb (complete data).
Proof.
  destruct data as [[?|] [?|] [?|] [?|] [?|] [?|] [?|] [?|] [?|] [?|]];
    cbn; rewrite ?orb_true_r, ?orb_false_r; reflexivity.
Qed.

Lemma heal_entry_value today data u :
  fst (heal_entry today data u) = fst (heal_entry today data false).
Proof.
  destruct data as [[?|] [?|] [?|] [?|] [?|] [?|] [?|] [?|] [?|] [?|]];
    reflexivity.
Qed.

Lemma heal_loop_spec today items :
  forall u,
    fst (heal_loop today items u)
    = map (fun item => (fst item, fst (heal_entry today (snd item) false))) items
    /\
    snd (heal_loop today items u)
    = u || existsb (fun item => negb (complete (snd item))) items.
Proof.
  induction items as [|[word data] items IH]; intros u; simpl.
  - now rewrite orb_false_r.
  - pose proof (heal_entry_flag today data u) as Hflag.
    pose proof (heal_entry_value today data u) as Hval.
    destruct (heal_entry today data u) as [data' u1]. cbn [fst snd] in *.
    destruct (IH u1) as [Hfst Hsnd].
    destruct (heal_loop today items u1) as [rest' u2]. cbn [fst snd] in *.
    subst. split; [reflexivity|]. now rewrite orb_assoc.
Qed.

(** X19: the migration gives every entry all ten keys without changing a
    key that was present or the order of the words; entries that were
    complete come out as they were; the vocabulary file is rewritten exactly
    when some entry lacked a key; running the migration a second time changes
    nothing. *)
Theorem upgrade_vocab_schema_heals today v file :
  let st' := upgrade_vocab_schema today (v, file) in
  keys (fst st') = keys v /\
  Forall (fun item => complete (snd item) = true) (fst st') /\
  (forall word data,
     In (word, data) v -> complete data = true -> In (word, data) (fst st')) /\
  (forall word data,
     dict_get word v = Some data ->
     exists data',
       dict_get word (fst st') = Some data' /\
       (forall x, j_sentence data = Some x -> j_sentence data' = Some x) /\
       (forall x, j_note data = Some x -> j_note data' = Some x) /\
       (forall x, j_box data = Some x -> j_box data' = Some x) /\
       (forall x, j_times_reviewed data = Some x ->
                  j_times_reviewed data' = Some x) /\
       (forall x, j_times_correct data = Some x ->
                  j_times_correct data' = Some x) /\
       (forall x, j_ease data = Some x -> j_ease data' = Some x) /\
       (forall x, j_history data = Some x -> j_history data' = Some x) /\
       (forall x, j_last_reviewed data = Some x ->
                  j_last_reviewed data' = Some x) /\
       (forall x, j_next_review data = Some x -> j_next_review data' = Some x) /\
       (forall x, j_interval data = Some x -> j_interval data' = Some x)) /\
  (snd st' =
     if existsb (fun item => negb (complete (snd item))) v
     then Some (fst st') else file) /\
  (Forall (fun item => complete (snd item) = true) v -> st' = (v, file)) /\
  upgrade_vocab_schema today st' = st'.
Proof.
  cbv zeta. unfold upgrade_vocab_schema. cbn [fst snd].
  destruct (heal_loop_spec today v false) as [Hfst Hsnd].
  destruct (heal_loop today v false) as [v' updated]. cbn [fst snd] in *.
  cbn [orb] in Hsnd. subst v' updated.
  set (healed := map _ v).
  assert (Forall (fun item => complete (snd item) = true) healed) as Hall.
  { apply Forall_forall. intros item Hin. apply in_map_iff in Hin.
    destruct Hin as (it & <- & _). apply heal_entry_complete. }
  assert (forall l : dict json_entry,
            Forall (fun item => complete (snd item) = true) l ->
            map (fun item => (fst item, fst (heal_entry today (snd item) false))) l
            = l /\
            existsb (fun item => negb (complete (snd item))) l = false)
    as Hfix.
  { induction l as [|[k d] l IH]; intros Hl; [now split|].
    inversion Hl as [|? ? Hd Hl']; subst. destruct (IH Hl') as [E1 E2].
    cbn [snd] in Hd. simpl. rewrite E1, E2, heal_entry_fixed by exact Hd.
    rewrite Hd. now split. }
  split; [|split; [|split; [|split; [|split; [|split]]]]].
  - unfold healed, keys. rewrite map_map. reflexivity.
  - exact Hall.
  - intros word data Hin Hc. unfold healed. apply in_map_iff.
    exists (word, data). split; [|exact Hin].
    cbn. now rewrite heal_entry_fixed.
  - intros word data Hget.
    exists (fst (heal_entry today data false)). split.
    + unfold healed. clear Hall. induction v as [|[k d] v IH]; [discriminate|].
      simpl in *. destruct (String.eqb k word); [now injection Hget as ->|].
      now apply IH.
    + destruct data as [[?|] [?|] [?|] [?|] [?|] [?|] [?|] [?|] [?|] [?|]];
        cbn; repeat split; intros x Hx; (exact Hx || discriminate Hx).
  - reflexivity.
  - intros Hv. destruct (Hfix v Hv) as [E1 E2]. unfold healed.
    now rewrite E1, E2.
  - destruct (heal_loop_spec today healed false) as [Hfst Hsnd].
    destruct (heal_loop today healed false) as [v2 u2]. cbn [fst snd] in *.
    cbn [orb] in Hsnd. destruct (Hfix healed Hall) as [E1 E2].
    rewrite E1 in Hfst. rewrite E2 in Hsnd. now subst.
Qed.

Lemma entry_of_json_healed_defaults today data :
  let healed := entry_of_json (fst (heal_entry today data false)) in
  get_default (ease healed) lit_2_5
    = get_default (ease (entry_of_json data)) lit_2_5 /\
  get_default (interval healed) 1
    = get_default (interval (entry_of_json data)) 1 /\
  get_default (box healed) 1 = get_default (box (entry_of_json data)) 1 /\
  get_default (times_reviewed healed) 0
    = get_default (times_reviewed (entry_of_json data)) 0 /\
  get_default (times_correct healed) 0
    = get_default (times_correct (entry_of_json data)) 0 /\
  get_default (history healed) []
    = get_default (history (entry_of_json data)) [] /\
  get_default (next_review healed) today
    = get_default (next_review (entry_of_json data)) today.
Proof.
  destruct data as [[?|] [?|] [?|] [?|] [?|] [?|] [?|] [?|] [?|] [?|]];
    cbn; repeat split.
Qed.

(** X20: the defaults written by the migration are the defaults the
    readers fall back on: on the day of the migration an entry has the same
    priority score, the same due status and the same rescheduled ease,
    interval and next review whether it has been migrated or not. *)
Theorem migration_agrees_with_readers today data q :
  let before := entry_of_json data in
  let after := entry_of_json (fst (heal_entry today data false)) in
  priority today after = priority today before /\
  (forall word,
     due_loop today [(word, after)] = due_loop today [(word, before)]) /\
  new_ease (get_default (ease after) lit_2_5) q
    = new_ease (get_default (ease before) lit_2_5) q /\
  (forall e', new_interval (get_default (interval after) 1) e' q
              = new_interval (get_default (interval before) 1) e' q) /\
  new_box (get_default (box after) 1) q = new_box (get_default (box before) 1) q.
Proof.
  cbv zeta.
  destruct (entry_of_json_healed_defaults today data)
    as (He & Hi & Hb & Hr & Hc & Hh & Hn).
  cbv zeta in He, Hi, Hb, Hr, Hc, Hh, Hn.
  split; [|split; [|split; [|split]]].
  - unfold priority, overdue_factor, difficulty_factor, accuracy_factor,
      times_new_word_factor, error_boost.
    now rewrite He, Hr, Hc, Hh, Hn.
  - intros word. cbn [due_loop]. now rewrite Hn.
  - now rewrite He.
  - intros e'. now rewrite Hi.
  - now rewrite Hb.
Qed.

(** ** End of a session *)

Lemma update_streak_completed today w w1 :
  update_streak today w = (Return tt, w1) ->
  (last_study_date (progress w) = Some today /\ w1 = w) \/
  (last_study_date (progress w) <> Some today /\
   exists cur, w1 = streak_saved cur today w).
Proof.
  unfold update_streak, bind, get_world.
  destruct (last_study_date (progress w)) as [last|] eqn:El.
  - destruct (today =? last) eqn:E.
    + apply Z.eqb_eq in E. subst last. unfold ret. intros [= <-]. now left.
    + apply Z.eqb_neq in E. unfold lift.
      destruct (date_add_days last 1) as [nd|x]; [|discriminate].
      destruct (today =? nd).
      * unfold read_current_streak, bind, get_world.
        destruct (current_streak (progress w)) as [cur|]; [|discriminate].
        unfold ret, modify_progress, modify. rewrite update_streak_set.
        intros [= <-]. right. split; [congruence|eauto].
      * unfold modify_progress, modify. rewrite update_streak_set.
        intros [= <-]. right. split; [congruence|eauto].
  - unfold modify_progress, modify. rewrite update_streak_set.
    intros [= <-]. right. split; [discriminate|eauto].
Qed.

(** X21: when the streak update completes, finishing a session adds five
    XP per correct answer, adds the reviewed count to today's entry of the
    daily history and leaves the other days alone, counts the reviewed words
    from zero on a new study day and on top of the day's count otherwise,
    keeps [longest_streak >= current_streak], does not touch the vocabulary,
    saves progress, and reports the achievements unlocked by the new totals:
    reaching 100 XP in this session reports "Earned 100 XP" unless it was
    unlocked before. *)
Theorem finish_session_effects iso today reviewed correct_ w w1 :
  update_streak today w = (Return tt, w1) ->
  exists news w',
    finish_session iso today reviewed correct_ w = (Return news, w') /\
    xp (progress w') = Some (get_default (xp (progress w)) 0 + correct_ * 5) /\
    (last_study_date (progress w) = Some today ->
     studied_today (progress w') = studied_today (progress w) + reviewed) /\
    (last_study_date (progress w) <> Some today ->
     studied_today (progress w') = reviewed) /\
    dict_get (iso today) (daily_history (progress w'))
      = Some (get_default (dict_get (iso today) (daily_history (progress w))) 0
              + reviewed) /\
    (forall day, day <> iso today ->
       dict_get day (daily_history (progress w'))
       = dict_get day (daily_history (progress w))) /\
    (streak_invariant (progress w) -> streak_invariant (progress w')) /\
    last_study_date (progress w') = Some today /\
    total_reviews (progress w') = total_reviews (progress w) /\
    vocab w' = vocab w /\
    progress_file w' = Some (progress w') /\
    (100 <= get_default (xp (progress w)) 0 + correct_ * 5 ->
     str_in "XP_100" (achievements (progress w)) = false ->
     In "Earned 100 XP" news /\ In "XP_100" (achievements (progress w'))).
Proof.
  intros Hup.
  set (p1 := progress w1).
  set (h2 := dict_set (iso today)
               (get_default (dict_get (iso today) (daily_history p1)) 0 + reviewed)
               (daily_history p1)).
  set (p2 := mkProgress (current_streak p1) (longest_streak p1)
               (last_study_date p1) (achievements p1) (total_reviews p1)
               (studied_today p1 + reviewed)
               (Some (get_default (xp p1) 0 + correct_ * 5)) h2).
  set (w2 := mkWorld (vocab w1) p2 (stats w1) (Some (vocab w1)) (Some p2)
               (stats_file w1)).
  assert (finish_session iso today reviewed correct_ w
          = bind check_achievements ret w2) as ->.
  { unfold finish_session. unfold bind at 1. rewrite Hup. reflexivity. }
  unfold bind.
  destruct (check_achievements_run w2)
    as (w3 & Hrun & Hach & Hv & Hx & Hs & Ht & Hsame).
  rewrite Hrun. unfold ret.
  exists (map message (newly_unlocked w2)), w3. split; [reflexivity|].
  assert (progress w3 =
          set_achievements
            (achievements p2 ++ map achievement_id (newly_unlocked w2)) p2
          /\ progress_file w3 = Some (progress w3)) as [Hp3 Hfile].
  { revert Hrun. unfold check_achievements, bind, get_world. cbv zeta.
    rewrite (check_loop_run _ (table_ids_distinct _ _ _ _)).
    rewrite app_nil_l. cbv zeta. change (filter _ _) with (newly_unlocked w2).
    destruct (newly_unlocked w2) as [|a l].
    - cbn [map]. unfold ret. rewrite unlocked_world_nil. intros [= <-].
      cbn. rewrite app_nil_r. split; reflexivity.
    - cbn [map]. unfold ret, save_progress, modify. intros [= <-].
      cbn. split; reflexivity. }
  assert (daily_history p1 = daily_history (progress w) /\
          get_default (xp p1) 0 = get_default (xp (progress w)) 0 /\
          total_reviews p1 = total_reviews (progress w) /\
          vocab w1 = vocab w /\
          last_study_date p1 = Some today /\
          achievements p1 = achievements (progress w) /\
          (streak_invariant (progress w) -> streak_invariant p1) /\
          (last_study_date (progress w) = Some today ->
           studied_today p1 = studied_today (progress w)) /\
          (last_study_date (progress w) <> Some today -> studied_today p1 = 0))
    as (Hh & Hxp & Htot & Hvoc & Hlast & Hachs & Hinv & Hsame_day & Hnew_day).
  { unfold p1.
    destruct (update_streak_completed _ _ _ Hup) as [[Hl ->]|[Hl [cur ->]]].
    - repeat split; auto. contradiction.
    - cbn. repeat split; auto; try contradiction.
      intros _. apply streak_set_invariant. }
  assert (forall A (f : progress_t -> A),
            (forall l p, f (set_achievements l p) = f p) ->
            f (progress w3) = f p2) as Hfield.
  { intros A f Hf. now rewrite Hp3, Hf. }
  split.
  { rewrite (Hfield _ xp) by reflexivity. cbn. now rewrite Hxp. }
  split.
  { intros Hl. rewrite (Hfield _ studied_today) by reflexivity. cbn.
    now rewrite (Hsame_day Hl). }
  split.
  { intros Hl. rewrite (Hfield _ studied_today) by reflexivity. cbn.
    rewrite (Hnew_day Hl). lia. }
  rewrite (Hfield _ daily_history) by reflexivity.
  change (daily_history p2) with h2. unfold h2. rewrite Hh.
  split; [apply dict_get_set_same|].
  split; [intros day Hday; now apply dict_get_set_other|].
  split.
  { intros Hi. unfold streak_invariant.
    rewrite (Hfield _ current_streak), (Hfield _ longest_streak) by reflexivity.
    exact (Hinv Hi). }
  split; [now rewrite (Hfield _ last_study_date) by reflexivity|].
  split; [now rewrite (Hfield _ total_reviews) by reflexivity|].
  split; [now rewrite Hv|]. split; [exact Hfile|].
  intros H100 Hnot.
  assert (In (mkAchievement "XP_100"
                (get_default (xp p1) 0 + correct_ * 5 >=? 100) "Earned 100 XP")
             (newly_unlocked w2)) as Hin.
  { unfold newly_unlocked. apply filter_In. split; [now left|].
    cbn [condition achievement_id].
    change (achievements (progress w2)) with (achievements p1).
    rewrite Hachs, Hnot.
    destruct (get_default (xp p1) 0 + correct_ * 5 >=? 100) eqn:E; [reflexivity|].
    lia. }
  split.
  - apply in_map_iff. eexists. split; [|exact Hin]. reflexivity.
  - rewrite Hach. apply in_or_app. right. apply in_map_iff.
    eexists. split; [|exact Hin]. reflexivity.
Qed.

(** ** Further concrete runs *)

Lemma NoDup_keys_world1 : NoDup (keys (vocab world1)).
Proof.
  simpl. repeat (constructor; [simpl; intuition discriminate|]). constructor.
Qed.

Lemma schedule_next_review_frame_witness :
  dict_get "apple" (vocab world0) = Some apple /\
  exists w' data',
    schedule_next_review today0 "apple" 2 world0 = (Return tt, w') /\
    dict_get "apple" (vocab w') = Some data' /\
    sentence data' = Some "An apple a day" /\
    times_reviewed data' = Some 4 /\
    dict_get "pear" (vocab w') = Some pear /\
    keys (vocab w') = ["apple"; "pear"] /\
    progress w' = progress0.
Proof.
  split; [reflexivity|].
  destruct (schedule_next_review today0 "apple" 2 world0) as [o w'] eqn:Hrun.
  assert (o = Return tt) as -> by (vm_compute in Hrun; congruence).
  destruct (schedule_next_review_frame today0 "apple" 2 world0 apple w'
              eq_refl Hrun)
    as (data' & Hget & (Hs & _ & Ht & _) & Hother & Hkeys & Hp & _).
  exists w', data'. split; [reflexivity|]. split; [exact Hget|].
  split; [exact Hs|]. split; [exact Ht|].
  split; [rewrite Hother; [reflexivity|discriminate]|].
  split; [exact Hkeys|exact Hp].
Defined.

Lemma schedule_next_review_keeps_ranges_witness :
  dict_get "apple" (vocab world0) = Some apple /\
  exists w' data' b' i',
    schedule_next_review today0 "apple" 1 world0 = (Return tt, w') /\
    dict_get "apple" (vocab w') = Some data' /\
    box data' = Some b' /\ 1 <= b' <= 5 /\
    interval data' = Some i' /\ 1 <= i'.
Proof.
  split; [reflexivity|].
  destruct (schedule_next_review today0 "apple" 1 world0) as [o w'] eqn:Hrun.
  assert (o = Return tt) as -> by (vm_compute in Hrun; congruence).
  destruct (schedule_next_review_keeps_ranges today0 "apple" 1 world0 apple w'
              eq_refl Hrun)
    as (data' & b' & i' & Hget & Hb & Hrange & Hi & Hpos).
  exists w', data', b', i'. split; [reflexivity|]. split; [exact Hget|].
  split; [exact Hb|]. split; [exact Hrange|]. split; [exact Hi|].
  apply Hpos; [vm_compute; discriminate|vm_compute; reflexivity].
Defined.

Lemma get_due_words_exact_witness :
  NoDup (keys (vocab world1)) /\
  exists due,
    get_due_words today0 world1 = (Return due, world1) /\
    NoDup due /\ In "apple" due /\ ~ In "plum" due.
Proof.
  split; [exact NoDup_keys_world1|].
  destruct (get_due_words_exact today0 world1 NoDup_keys_world1)
    as (due & Hrun & Hnd & Hiff).
  exists due. split; [exact Hrun|]. split; [exact Hnd|]. split.
  - apply Hiff. exists apple. split; [reflexivity|]. vm_compute. discriminate.
  - intros Hin. apply Hiff in Hin. destruct Hin as (data & Hget & Hd).
    vm_compute in Hget. injection Hget as <-. apply Hd. reflexivity.
Defined.

Lemma suggested_daily_target_bounds_witness :
  get_due_count today0 world1 = (Return 3, world1) /\
  suggested_daily_target today0 world1 = (Return 5, world1).
Proof.
  destruct (suggested_daily_target_bounds today0 world1)
    as (due & target & Hc & Ht & _ & _ & Hlow & _).
  assert (due = 3) as -> by (vm_compute in Hc; congruence).
  rewrite Hc, Ht. rewrite Hlow; [split; reflexivity|reflexivity].
Defined.

Lemma rated_word_is_not_due_witness :
  NoDup (keys (vocab world1)) /\
  dict_get "apple" (vocab world1) = Some apple /\
  1 <= get_default (interval apple) 1 /\
  valid_binary prec emax (get_default (ease apple) lit_2_5) = true /\
  exists w',
    schedule_next_review today0 "apple" 1 world1 = (Return tt, w') /\
    ~ In "apple" (due_loop today0 (vocab w')) /\
    In "pear" (due_loop today0 (vocab w')).
Proof.
  split; [exact NoDup_keys_world1|]. split; [reflexivity|].
  assert (1 <= get_default (interval apple) 1) as Hi
    by (vm_compute; discriminate).
  assert (valid_binary prec emax (get_default (ease apple) lit_2_5) = true)
    as He by (vm_compute; reflexivity).
  split; [exact Hi|]. split; [exact He|].
  destruct (schedule_next_review today0 "apple" 1 world1) as [o w'] eqn:Hrun.
  assert (o = Return tt) as -> by (vm_compute in Hrun; congruence).
  destruct (rated_word_is_not_due today0 "apple" 1 world1 apple w'
              NoDup_keys_world1 eq_refl Hi He Hrun) as (Hnot & Hothers).
  exists w'. split; [reflexivity|]. split; [exact Hnot|].
  apply Hothers; [discriminate|]. vm_compute. right. left. reflexivity.
Defined.

Lemma add_word_gui_logic_outcome_witness :
  add_word_gui_logic str_lower str_strip today0 "  Apple " "A red apple" ""
    world0 = (Return false, world0) /\
  exists w',
    add_word_gui_logic str_lower str_strip today0 " Kiwi " "A green kiwi " ""
      world0 = (Return true, w') /\
    keys (vocab w') = ["apple"; "pear"; "Kiwi"] /\
    words_added (stats w') = Some 3.
Proof.
  pose proof (add_word_gui_logic_outcome str_lower str_strip today0) as H.
  split.
  - apply (proj1 (H "  Apple " "A red apple" "" world0)).
    right. right. exists "apple". split; [left; reflexivity|reflexivity].
  - destruct (proj2 (H " Kiwi " "A green kiwi " "" world0))
      as (w' & Hrun & Hv & _ & Ha & _).
    + intros [Hw|[Hs|(k & Hin & Hk)]]; try discriminate.
      destruct Hin as [<-|[<-|[]]]; discriminate.
    + exists w'. split; [exact Hrun|]. split; [now rewrite Hv|exact Ha].
Defined.

Lemma add_word_gui_logic_keeps_keys_distinct_witness :
  NoDup (map str_lower (keys (vocab world0))) /\
  NoDup (map str_lower
           (keys (vocab (snd (add_word_gui_logic str_lower str_strip today0
                                " Kiwi " "A green kiwi" "" world0))))) /\
  keys (vocab (snd (add_word_gui_logic str_lower str_strip today0
                      " Kiwi " "A green kiwi" "" world0)))
    = ["apple"; "pear"; "Kiwi"].
Proof.
  assert (NoDup (map str_lower (keys (vocab world0)))) as Hnd.
  { simpl. repeat (constructor; [simpl; intuition discriminate|]). constructor. }
  split; [exact Hnd|]. split; [|reflexivity].
  exact (add_word_gui_logic_keeps_keys_distinct str_lower str_strip today0
           " Kiwi " "A green kiwi" "" world0 Hnd).
Defined.

Lemma added_word_is_due_and_unique_witness :
  exists w',
    add_word_gui_logic str_lower str_strip today0 " Kiwi " "A green kiwi" ""
      world0 = (Return true, w') /\
    str_lower (str_strip "KIWI  ") = str_lower (str_strip " Kiwi ") /\
    In "Kiwi" (due_loop today0 (vocab w')) /\
    add_word_gui_logic str_lower str_strip today0 "KIWI  " "Another kiwi" "x"
      w' = (Return false, w').
Proof.
  destruct (add_word_gui_logic str_lower str_strip today0 " Kiwi "
              "A green kiwi" "" world0) as [o w'] eqn:Hrun.
  assert (o = Return true) as -> by (vm_compute in Hrun; congruence).
  assert (str_lower (str_strip "KIWI  ") = str_lower (str_strip " Kiwi "))
    as Hsame by reflexivity.
  destruct (added_word_is_due_and_unique str_lower str_strip today0 " Kiwi "
              "A green kiwi" "" world0 w' "KIWI  " "Another kiwi" "x"
              Hrun Hsame) as (_ & Hdue & Hagain).
  exists w'. split; [reflexivity|]. split; [exact Hsame|].
  split; [exact Hdue|exact Hagain].
Defined.

Lemma get_box_distribution_counts_witness :
  exists distribution,
    get_box_distribution world1 = (Return distribution, world1) /\
    idict_get 1 distribution = Some 2 /\
    idict_get 4 distribution = Some 0 /\
    sum_values distribution = 4.
Proof.
  destruct (get_box_distribution_counts world1)
    as (distribution & Hrun & _ & Hbox & Hsum).
  exists distribution. split; [exact Hrun|].
  split; [rewrite Hbox by lia; reflexivity|].
  split; [rewrite Hbox by lia; reflexivity|exact Hsum].
Defined.

Lemma check_achievements_settles_witness :
  exists w',
    check_achievements world0 =
      (Return ["Earned 500 XP"; "100 reviews completed"], w') /\
    check_achievements w' = (Return [], w') /\
    NoDup (achievements (progress w')).
Proof.
  destruct (check_achievements world0) as [o w'] eqn:Hrun.
  destruct (check_achievements_settles world0 o w' Hrun)
    as (Hagain & _ & Hnd).
  exists w'. split; [vm_compute in Hrun; congruence|].
  split; [exact Hagain|]. apply Hnd.
  simpl. repeat (constructor; [simpl; intuition discriminate|]). constructor.
Defined.

Lemma update_streak_same_day_witness :
  exists w1,
    update_streak today0 world0 = (Return tt, w1) /\
    current_streak (progress w1) = Some 3 /\
    last_study_date (progress w1) = Some today0 /\
    update_streak today0 w1 = (Return tt, w1).
Proof.
  destruct (update_streak today0 world0) as [o w1] eqn:Hrun.
  assert (o = Return tt) as -> by (vm_compute in Hrun; congruence).
  destruct (update_streak_same_day today0 world0 w1 Hrun) as (Hlast & Hagain).
  exists w1. split; [reflexivity|].
  split; [vm_compute in Hrun; injection Hrun as <-; reflexivity|].
  split; [exact Hlast|exact Hagain].
Defined.

Lemma build_study_plan_words_witness :
  exists plan,
    build_study_plan today0 9 world1 = (Return plan, world1) /\
    Permutation plan ["apple"; "pear"; "plum"; "fig"] /\
    NoDup plan /\
    build_study_plan today0 0 world1 = (Return [], world1).
Proof.
  destruct (build_study_plan today0 9 world1) as [o w'] eqn:Hrun.
  assert (exists plan, o = Return plan /\ w' = world1) as (plan & -> & ->).
  { vm_compute in Hrun. injection Hrun as <- <-. eexists. split; reflexivity. }
  destruct (build_study_plan_words today0 9 world1 plan world1 Hrun)
    as (_ & Hnd & Hall & _).
  exists plan. split; [reflexivity|].
  split; [apply Hall; vm_compute; discriminate|].
  split; [exact (Hnd NoDup_keys_world1)|].
  destruct (build_study_plan today0 0 world1) as [o0 w0] eqn:Hrun0.
  assert (exists plan0, o0 = Return plan0 /\ w0 = world1) as (plan0 & -> & ->).
  { vm_compute in Hrun0. injection Hrun0 as <- <-. eexists. split; reflexivity. }
  destruct (build_study_plan_words today0 0 world1 plan0 world1 Hrun0)
    as (_ & _ & _ & Hzero & _).
  now rewrite (Hzero eq_refl).
Defined.

Lemma build_study_plan_zero_ease_witness :
  In ("flat", flat) (vocab world_flat) /\
  is_zero (get_default (ease flat) lit_2_5) = true /\
  build_study_plan today0 5 world_flat = (Raise ZeroDivisionError, world_flat).
Proof.
  assert (In ("flat", flat) (vocab world_flat)) as Hin
    by (right; left; reflexivity).
  split; [exact Hin|]. split; [reflexivity|].
  destruct (build_study_plan_zero_ease today0 5 world_flat "flat" flat Hin
              eq_refl) as (x & Hrun).
  rewrite Hrun. vm_compute in Hrun. congruence.
Defined.

Lemma get_difficult_words_ranked_witness :
  exists ranked,
    get_difficult_words 2 world1 = (Return ranked, world1) /\
    map fst ranked = ["fig"; "apple"] /\
    StronglySorted (fun a b => leb (snd b) (snd a) = true) ranked /\
    Z.of_nat (List.length ranked) <= 2.
Proof.
  destruct (get_difficult_words 2 world1) as [o w'] eqn:Hrun.
  assert (exists ranked, o = Return ranked /\ map fst ranked = ["fig"; "apple"])
    as (ranked & -> & Hwords).
  { vm_compute in Hrun. injection Hrun as <- _. eexists. split; reflexivity. }
  destruct (get_difficult_words_ranked 2 world1 ranked w' Hrun)
    as (-> & _ & Hsorted & Hlen & _).
  exists ranked. split; [reflexivity|]. split; [exact Hwords|].
  split; [exact Hsorted|]. apply Hlen. lia.
Defined.

Lemma get_difficult_words_stable_witness :
  exists difficulties quarter,
    difficulties_loop (vocab world1) = Return difficulties /\
    int_truediv 1 4 = Return quarter /\
    is_nan quarter = false /\
    map fst difficulties = ["apple"; "plum"; "fig"] /\
    map fst (filter (fun a => eqb (snd a) quarter)
               (sort_reverse rate_lt difficulties)) = ["apple"; "plum"].
Proof.
  destruct (difficulties_loop (vocab world1)) as [difficulties|x] eqn:Hd;
    [|vm_compute in Hd; discriminate].
  destruct (int_truediv 1 4) as [quarter|x] eqn:Hq;
    [|vm_compute in Hq; discriminate].
  assert (is_nan quarter = false) as Hnan
    by (vm_compute in Hq; injection Hq as <-; reflexivity).
  destruct (get_difficult_words_stable world1 difficulties quarter Hd Hnan)
    as (_ & Hstable).
  exists difficulties, quarter. split; [reflexivity|]. split; [reflexivity|].
  split; [exact Hnan|].
  rewrite Hstable.
  vm_compute in Hd. injection Hd as <-. vm_compute in Hq. injection Hq as <-.
  split; reflexivity.
Defined.

Lemma accuracy_never_divides_by_zero_witness :
  get_word_accuracy "ghost" world0 = (Return (S754_zero false), world0) /\
  get_word_accuracy "pear" world0 = (Return (S754_zero false), world0) /\
  get_overall_accuracy (mkWorld [] progress0 stats0 None None None)
    = (Return (S754_zero false), mkWorld [] progress0 stats0 None None None).
Proof.
  split; [|split].
  - apply (proj1 (accuracy_never_divides_by_zero "ghost" world0)). reflexivity.
  - apply (proj1 (proj2 (accuracy_never_divides_by_zero "pear" world0)) pear);
      reflexivity.
  - apply (proj1 (proj2 (proj2 (proj2
             (accuracy_never_divides_by_zero "ghost"
                (mkWorld [] progress0 stats0 None None None)))))).
    reflexivity.
Defined.

Lemma load_progress_after_save_witness :
  exists w1,
    save_progress world0 = (Return tt, w1) /\
    load_progress w1 = (Return progress0, w1) /\
    load_progress world0 = (Return default_progress, world0).
Proof.
  destruct (load_progress_after_save world0) as (Hsaved & Hnone).
  destruct (Hsaved _ eq_refl) as (p & Hrun & _ & _ & _ & _ & _ & _ & _ & _ & Hp).
  eexists. split; [reflexivity|]. split.
  - rewrite Hrun, Hp; [reflexivity|discriminate|discriminate].
  - apply Hnone. reflexivity.
Defined.

Lemma first_session_starts_streak_witness :
  progress_file world0 = None /\
  exists w0 w1,
    init_progress world0 = (Return tt, w0) /\
    update_streak today0 w0 = (Return tt, w1) /\
    current_streak (progress w1) = Some 1 /\
    longest_streak (progress w1) = Some 1 /\
    progress_file w1 = Some (progress w1).
Proof.
  split; [reflexivity|].
  destruct (init_progress world0) as [o w0] eqn:Hinit.
  assert (o = Return tt) as -> by (vm_compute in Hinit; congruence).
  destruct (first_session_starts_streak today0 world0 w0 eq_refl Hinit)
    as (w1 & Hrun & Hc & Hl & _ & _ & Hf & _).
  exists w0, w1. split; [reflexivity|]. split; [exact Hrun|].
  split; [exact Hc|]. split; [exact Hl|exact Hf].
Defined.

Lemma upgrade_vocab_schema_heals_witness :
  exists healed,
    upgrade_vocab_schema today0 (legacy_vocab, None)
      = ([("old", healed)], Some [("old", healed)]) /\
    complete healed = true /\
    j_sentence healed = Some "An old entry" /\ j_box healed = Some 2 /\
    upgrade_vocab_schema today0 ([("old", healed)], Some [("old", healed)])
      = ([("old", healed)], Some [("old", healed)]).
Proof.
  assert (exists healed,
            upgrade_vocab_schema today0 (legacy_vocab, None)
            = ([("old", healed)], Some [("old", healed)])) as (healed & Hrun)
    by (eexists; vm_compute; reflexivity).
  pose proof (upgrade_vocab_schema_heals today0 legacy_vocab None) as H.
  cbv zeta in H. rewrite Hrun in H. cbn [fst snd] in H.
  destruct H as (_ & Hcomplete & _ & Hkept & _ & _ & Hagain).
  exists healed. split; [exact Hrun|].
  split; [inversion Hcomplete as [|? ? Hc _]; exact Hc|].
  destruct (Hkept "old" legacy eq_refl) as (data' & Hget & Hs & _ & Hb & _).
  cbn in Hget. injection Hget as <-.
  split; [now apply Hs|]. split; [now apply Hb|exact Hagain].
Defined.

Lemma finish_session_effects_witness :
  exists w1 news w',
    update_streak today0 world0 = (Return tt, w1) /\
    finish_session iso_format today0 10 8 world0 = (Return news, w') /\
    xp (progress w') = Some 550 /\
    studied_today (progress w') = 10 /\
    dict_get "2026-11-03" (daily_history (progress w')) = Some 10 /\
    vocab w' = vocab world0.
Proof.
  destruct (update_streak today0 world0) as [o w1] eqn:Hup.
  assert (o = Return tt) as -> by (vm_compute in Hup; congruence).
  destruct (finish_session_effects iso_format today0 10 8 world0 w1 Hup)
    as (news & w' & Hrun & Hxp & _ & Hday & Hhist & _ & _ & _ & _ & Hv & _).
  exists w1, news, w'. split; [reflexivity|]. split; [exact Hrun|].
  split; [exact Hxp|].
  split; [apply Hday; discriminate|]. split; [exact Hhist|exact Hv].
Defined.
